(** * The retrieval-augmented chatbot pipeline of the RTW portal

    A shallow embedding of [src/lib/chatbot.ts] (keyword extraction,
    knowledge-base search, prompt assembly, provider call and error
    classification), of the rate limiter and the response helpers of
    [src/lib/middleware.ts], and of the route handler
    [POST /api/chatbot/message], followed by the properties of the
    pipeline that the specification states.

    Modelling conventions.
    - A JavaScript string is a sequence of UTF-16 code units.  The model
      takes [string] (a sequence of 8-bit characters) and reads a character
      as the code unit of the same number, so it covers the strings whose
      code units are below 256 (ASCII and Latin-1).  [toLowerCase], [\w]
      and [\s] are written out for exactly that range.
    - A JavaScript number that holds a relevance score is the quotient of
      two small integers; it is modelled by the exact rational [Q].
      Where the size of the numbers is not bounded (the pagination
      helper), a product and a quotient are rounded as binary64 rounds
      them; the rounding is written out in [binary64].
    - The database, the provider client and the clock are explicit: the
      tables are fields of [World], what the client and the store answer is
      given by [Externals], and every call that the code makes to the
      database client or to the provider client is recorded in the [log] of
      the world.  An entry of the log is one call of a method of a client,
      as the code writes it; what the client library does during that call
      is not part of the log.  In particular the provider client is
      constructed with the defaults of the SDK, which resends a request
      that fails up to two times: one call of [anthropic.messages.create]
      can stand for one, two or three requests to the provider. *)

From Stdlib Require Import Ascii QArith Qminmax Qround Qpower Lqa.
From stdpp Require Import base gmap strings list sorting pretty.

Local Open Scope Z_scope.

(** ** JavaScript string primitives *)

Definition code (c : ascii) : N := Ascii.N_of_ascii c.

Definition inRange (lo hi : N) (c : ascii) : bool :=
  ((lo <=? code c) && (code c <=? hi))%N.

Definition isUpperAZ (c : ascii) : bool := inRange 65 90 c.
Definition isLowerAZ (c : ascii) : bool := inRange 97 122 c.
Definition isDigit (c : ascii) : bool := inRange 48 57 c.
Definition isUnderscore (c : ascii) : bool := (code c =? 95)%N.

(** The class [\w] of a regular expression: [A-Za-z0-9_]. *)
Definition isWordChar (c : ascii) : bool :=
  isUpperAZ c || isLowerAZ c || isDigit c || isUnderscore c.

(** The class [\s], below 256: tab, line feed, vertical tab, form feed,
    carriage return, space and the no-break space. *)
Definition isWhiteSpace (c : ascii) : bool :=
  inRange 9 13 c || (code c =? 32)%N || (code c =? 160)%N.

(** [String.prototype.toLowerCase] on one code unit below 256: the letters
    A-Z and the accented capitals U+00C0..U+00DE (the multiplication sign
    U+00D7 apart) move up by 32. *)
Definition charToLowerCase (c : ascii) : ascii :=
  if isUpperAZ c || (inRange 192 222 c && negb (code c =? 215)%N)
  then Ascii.ascii_of_N (code c + 32)
  else c.

Fixpoint mapChars (f : ascii → ascii) (s : string) : string :=
  match s with
  | EmptyString => EmptyString
  | String c s' => String (f c) (mapChars f s')
  end.

Fixpoint allChars (p : ascii → bool) (s : string) : bool :=
  match s with
  | EmptyString => true
  | String c s' => p c && allChars p s'
  end.

Definition toLowerCase (s : string) : string := mapChars charToLowerCase s.

(** [s.replace(/[^\w\s]/g, ' ')] *)
Definition replaceNonWord (s : string) : string :=
  mapChars (λ c, if isWordChar c || isWhiteSpace c then c else " "%char) s.

(** [s.split(/\s+/)]: the pieces between maximal runs of white space; a
    run at either end leaves an empty piece there, and the empty string
    splits into one empty piece.  [cur] is the piece being read and
    [inRun] says that the previous character was white space. *)
Fixpoint splitRuns (inRun : bool) (cur : string) (s : string) : list string :=
  match s with
  | EmptyString => [cur]
  | String c s' =>
      if isWhiteSpace c
      then (if inRun then splitRuns true cur s'
            else cur :: splitRuns true EmptyString s')
      else splitRuns false (cur +:+ String c EmptyString) s'
  end.

Definition splitWhiteSpace (s : string) : list string :=
  splitRuns false EmptyString s.

(** [s.startsWith(t)] and [s.includes(t)] *)
Fixpoint startsWith (s t : string) : bool :=
  match t, s with
  | EmptyString, _ => true
  | String _ _, EmptyString => false
  | String b t', String a s' => bool_decide (a = b) && startsWith s' t'
  end.

Fixpoint includes (s t : string) : bool :=
  startsWith s t ||
  match s with
  | EmptyString => false
  | String _ s' => includes s' t
  end.

(** [s.substring(0, n)]: the first [n] code units, all of [s] when it is
    shorter. *)
Fixpoint substring0 (n : nat) (s : string) : string :=
  match n, s with
  | O, _ => EmptyString
  | S _, EmptyString => EmptyString
  | S n', String c s' => String c (substring0 n' s')
  end.

(** [l.join(sep)] *)
Fixpoint join (sep : string) (l : list string) : string :=
  match l with
  | [] => EmptyString
  | [x] => x
  | x :: l' => x +:+ sep +:+ join sep l'
  end.

(** ** KeywordExtractor: [extractKeywords] *)

Definition stopWords : gset string :=
  list_to_set
    ["the"; "is"; "at"; "which"; "on"; "a"; "an"; "and"; "or"; "but"; "in";
     "with"; "to"; "for"; "of"; "as"; "by"; "that"; "this"; "it"; "from";
     "are"; "was"; "were"; "been"; "be"; "have"; "has"; "had"; "do"; "does";
     "did"; "will"; "would"; "could"; "should"; "may"; "might"; "can"].

Definition extractKeywords (query : string) : list string :=
  filter (λ word, (2 < String.length word)%nat ∧ word ∉ stopWords)
         (splitWhiteSpace (replaceNonWord (toLowerCase query))).

(** ** Data model *)

(** The values of the enum [DocumentType]; in JavaScript an enum value is
    the string of its name. *)
Inductive DocumentType := COMPLIANCE | QA | JOB_DESC | BRIDGE | FORUM_POST.

Definition documentTypeName (t : DocumentType) : string :=
  match t with
  | COMPLIANCE => "COMPLIANCE"
  | QA => "QA"
  | JOB_DESC => "JOB_DESC"
  | BRIDGE => "BRIDGE"
  | FORUM_POST => "FORUM_POST"
  end.

(** A row of the table [trainingDocument]. *)
Module TrainingDocument.
Record t := mk {
  id : string;
  title : string;
  content : string;
  documentType : DocumentType;
  isActive : bool;
  createdAt : Z
}.
End TrainingDocument.

(** [interface SearchResult] *)
Module SearchResult.
Record t := mk {
  content : string;
  title : string;
  type : string;
  score : Q
}.
End SearchResult.

Inductive MessageRole := USER | ASSISTANT.

(** A row of the table [chatbotMessage] (the columns the pipeline reads or
    writes). *)
Module ChatbotMessage.
Record t := mk {
  conversationId : string;
  role : MessageRole;
  content : string;
  sources : option (list SearchResult.t);
  createdAt : Z
}.
End ChatbotMessage.

(** A row of the table [chatbotConversation], keyed by its [id]. *)
Module ChatbotConversation.
Record t := mk {
  userId : string;
  title : string
}.
End ChatbotConversation.

Inductive ChatRole := user | assistant.

(** [interface ChatMessage] *)
Module ChatMessage.
Record t := mk {
  role : ChatRole;
  content : string
}.
End ChatMessage.

(** ** Ordering rows *)

(** A stable sort: [before x y] says that [x] may stand in front of [y];
    an element is put in front of the first element of the sorted rest
    that it may stand in front of, so that elements which compare equal
    keep the order they had.  Both [orderBy] of the store and
    [Array.prototype.sort] (stable since ES2019) are read this way. *)
Section StableSort.
Context {A : Type} (before : A → A → bool).

Fixpoint insertStable (x : A) (l : list A) : list A :=
  match l with
  | [] => [x]
  | y :: l' => if before x y then x :: l else y :: insertStable x l'
  end.

Definition stableSort (l : list A) : list A := foldr insertStable [] l.

(** The order that the sort establishes, given a relation [was] that
    held between an element and the elements behind it: [x] stands in
    front of [y] only if it may, and where [y] may stand in front of [x]
    as well, [x] was in front of [y] before. *)
Definition keeps (was : A → A → Prop) (x y : A) : Prop :=
  before x y = true ∧ (before y x = true → was x y).
End StableSort.

(** [arr.sort(cmp)]: [a] stays in front of [b] unless [cmp(a, b) > 0]. *)
Definition sortWith {A : Type} (cmp : A → A → Q) (l : list A) : list A :=
  stableSort (λ a b, Qle_bool (cmp a b) 0) l.

Definition createdAtDesc (a b : TrainingDocument.t) : bool :=
  TrainingDocument.createdAt b <=? TrainingDocument.createdAt a.

Definition createdAtAsc (a b : ChatbotMessage.t) : bool :=
  ChatbotMessage.createdAt a <=? ChatbotMessage.createdAt b.

(** ** DocumentStore queries *)

(** [{ contains: keyword, mode: 'insensitive' }] on one column. *)
Definition containsInsensitive (field keyword : string) : bool :=
  includes (toLowerCase field) (toLowerCase keyword).

(** The [OR] over [searchConditions]: for every keyword, one condition on
    the content and one on the title. *)
Definition matchesAny (keywords : list string) (doc : TrainingDocument.t) : bool :=
  existsb (λ keyword,
             containsInsensitive (TrainingDocument.content doc) keyword
             || containsInsensitive (TrainingDocument.title doc) keyword)
          keywords.

(** [prisma.trainingDocument.findMany({ where, take, orderBy: { createdAt:
    'desc' } })] *)
Definition findManyDocuments (where_ : TrainingDocument.t → bool) (n : nat)
    (table : list TrainingDocument.t) : list TrainingDocument.t :=
  take n (stableSort createdAtDesc (List.filter where_ table)).

(** ** RelevanceScorer and KnowledgeRetriever: [searchKnowledgeBase] *)

(** The [forEach] over the keywords, with [matchCount] as the state. *)
Definition countMatches (keywords : list string) (titleLower contentLower : string) : Z :=
  foldl (λ matchCount keyword,
           let matchCount :=
             if includes titleLower keyword then matchCount + 2 else matchCount in
           if includes contentLower keyword then matchCount + 1 else matchCount)
        0 keywords.

Definition relevanceScore (keywords : list string) (doc : TrainingDocument.t) : Q :=
  let contentLower := toLowerCase (TrainingDocument.content doc) in
  let titleLower := toLowerCase (TrainingDocument.title doc) in
  let matchCount := countMatches keywords titleLower contentLower in
  Qmin (inject_Z matchCount / inject_Z (Z.of_nat (length keywords) * 2)) 1.

Definition generalResult (doc : TrainingDocument.t) : SearchResult.t :=
  {| SearchResult.content := substring0 1000 (TrainingDocument.content doc);
     SearchResult.title := TrainingDocument.title doc;
     SearchResult.type := documentTypeName (TrainingDocument.documentType doc);
     SearchResult.score := 0.5 |}.

Definition scoredResult (keywords : list string) (doc : TrainingDocument.t) : SearchResult.t :=
  {| SearchResult.content := substring0 1500 (TrainingDocument.content doc);
     SearchResult.title := TrainingDocument.title doc;
     SearchResult.type := documentTypeName (TrainingDocument.documentType doc);
     SearchResult.score := relevanceScore keywords doc |}.

Definition byScoreDesc (a b : SearchResult.t) : Q :=
  SearchResult.score b - SearchResult.score a.

Definition searchKnowledgeBase (table : list TrainingDocument.t) (query : string)
    : list SearchResult.t :=
  let keywords := extractKeywords query in
  if bool_decide (length keywords = 0%nat) then
    let documents := findManyDocuments TrainingDocument.isActive 3 table in
    generalResult <$> documents
  else
    let documents :=
      findManyDocuments
        (λ doc, TrainingDocument.isActive doc && matchesAny keywords doc) 5 table in
    sortWith byScoreDesc (scoredResult keywords <$> documents).

(** ** The world outside the process *)

(** A content block of a provider response: [{ type: 'text', text }] or a
    block of another type. *)
Inductive ContentBlock :=
| TextBlock (text : string)
| OtherBlock (type : string).

(** The argument of [anthropic.messages.create]. *)
Module MessagesRequest.
Record t := mk {
  model : string;
  max_tokens : Z;
  system : string;
  messages : list ChatMessage.t
}.
End MessagesRequest.

(** The values that are thrown.  [APIError] is what the provider client
    rejects with: its [status] is the HTTP status of the provider's answer
    and is undefined when there was no answer (connection failure,
    timeout). *)
Inductive Thrown :=
| Error (message : string)
| APIError (status : option Z)
| TypeError
| SyntaxError
| ZodError (first : string) (rest : list string)
| PrismaError.

Inductive ProviderOutcome :=
| Responds (content : list ContentBlock)
| Rejects (error : Thrown).

(** What the environment, the provider client, the store and the clock
    answer during one request.  [messagesCreate] is the outcome of one
    call of [anthropic.messages.create], after whatever resending the SDK
    has done on its own. *)
Record Externals := {
  ANTHROPIC_API_KEY : option string;
  messagesCreate : MessagesRequest.t → ProviderOutcome;
  createManyFails : bool;
  dateNow : Z;
  newConversationId : string;
  isUuid : string → bool
}.

(** The calls that the code makes to its clients.  [CallProvider] is one
    call of the method [anthropic.messages.create], not one request on the
    wire. *)
Inductive Event :=
| FindConversation (id : string)
| FindDocuments
| CallProvider (request : MessagesRequest.t)
| CreateConversation (userId : string)
| CreateMessages (conversationId : string).

Module RateRecord.
Record t := mk { count : Z; resetTime : Z }.
End RateRecord.

Record World := {
  trainingDocument : list TrainingDocument.t;
  chatbotConversation : gmap string ChatbotConversation.t;
  chatbotMessage : list ChatbotMessage.t;
  rateLimitMap : gmap string RateRecord.t;
  log : list Event
}.

Definition logEvent (e : Event) (w : World) : World :=
  {| trainingDocument := trainingDocument w;
     chatbotConversation := chatbotConversation w;
     chatbotMessage := chatbotMessage w;
     rateLimitMap := rateLimitMap w;
     log := log w ++ [e] |}.

(** ** Computations that read and change the world and may throw *)

Inductive Outcome (A : Type) :=
| Returned (a : A)
| Threw (e : Thrown).
Arguments Returned {A} a.
Arguments Threw {A} e.

Definition M (A : Type) : Type := World → Outcome A * World.

Definition ret {A} (a : A) : M A := λ w, (Returned a, w).
Definition throw {A} (e : Thrown) : M A := λ w, (Threw e, w).
Definition bind {A B} (m : M A) (k : A → M B) : M B :=
  λ w, match m w with
       | (Returned a, w') => k a w'
       | (Threw e, w') => (Threw e, w')
       end.
Definition tryCatch {A} (m : M A) (handler : Thrown → M A) : M A :=
  λ w, match m w with
       | (Returned a, w') => (Returned a, w')
       | (Threw e, w') => handler e w'
       end.

Notation "'let*' x ':=' m 'in' k" := (bind m (λ x, k))
  (at level 10, x pattern, m at level 100, k at level 200).

(** A value used as a condition: [undefined] and the empty string are
    falsy. *)
Definition falsy (v : option string) : bool :=
  match v with
  | None => true
  | Some s => bool_decide (s = "")
  end.

(** ** ConversationStore *)

(** [prisma.chatbotConversation.findUnique({ where: { id }, include: {
    messages: { orderBy: { createdAt: 'asc' }, take: n } } })] *)
Definition messagesOf (conversationId : string) (n : nat)
    (table : list ChatbotMessage.t) : list ChatbotMessage.t :=
  take n (stableSort createdAtAsc
            (List.filter (λ m, bool_decide (ChatbotMessage.conversationId m = conversationId))
                         table)).

Definition findConversation (conversationId : string) (n : nat)
    : M (option (ChatbotConversation.t * list ChatbotMessage.t)) :=
  λ w, (Returned ((λ c, (c, messagesOf conversationId n (chatbotMessage w)))
                    <$> chatbotConversation w !! conversationId),
        logEvent (FindConversation conversationId) w).

(** [createConversation]: the store gives the new row its id. *)
Definition createConversation (ext : Externals) (userId : string) (title : option string)
    : M string :=
  λ w,
    let row := {| ChatbotConversation.userId := userId;
                  ChatbotConversation.title :=
                    if falsy title then "New Conversation" else default "" title |} in
    (Returned (newConversationId ext),
     logEvent (CreateConversation userId)
       {| trainingDocument := trainingDocument w;
          chatbotConversation := <[newConversationId ext := row]> (chatbotConversation w);
          chatbotMessage := chatbotMessage w;
          rateLimitMap := rateLimitMap w;
          log := log w |}).

(** [saveMessages]: one [createMany] of the user row and the assistant row;
    when the store rejects it nothing is written. *)
Definition saveMessages (ext : Externals) (conversationId userMessage assistantMessage : string)
    (sources : option (list SearchResult.t)) : M unit :=
  λ w,
    if createManyFails ext then (Threw PrismaError, logEvent (CreateMessages conversationId) w)
    else
      (Returned (),
       logEvent (CreateMessages conversationId)
         {| trainingDocument := trainingDocument w;
            chatbotConversation := chatbotConversation w;
            chatbotMessage :=
              chatbotMessage w ++
              [ {| ChatbotMessage.conversationId := conversationId;
                   ChatbotMessage.role := USER;
                   ChatbotMessage.content := userMessage;
                   ChatbotMessage.sources := None;
                   ChatbotMessage.createdAt := dateNow ext |};
                {| ChatbotMessage.conversationId := conversationId;
                   ChatbotMessage.role := ASSISTANT;
                   ChatbotMessage.content := assistantMessage;
                   ChatbotMessage.sources := sources;
                   ChatbotMessage.createdAt := dateNow ext |} ];
            rateLimitMap := rateLimitMap w;
            log := log w |}).

(** The one query that [searchKnowledgeBase] sends to the document store. *)
Definition searchKnowledgeBaseM (query : string) : M (list SearchResult.t) :=
  λ w, (Returned (searchKnowledgeBase (trainingDocument w) query), logEvent FindDocuments w).

(** [anthropic.messages.create(request)]: one call of the method, logged
    once.  The client [new Anthropic({ apiKey })] keeps the default of two
    retries of the SDK, so the requests that reach the provider during
    this call can be up to three; they are inside the SDK and are not
    counted here. *)
Definition callProvider (ext : Externals) (request : MessagesRequest.t)
    : M (list ContentBlock) :=
  λ w, (match messagesCreate ext request with
        | Responds content => Returned content
        | Rejects error => Threw error
        end,
        logEvent (CallProvider request) w).

(** ** ContextAssembler and ResponseGenerator: [generateChatbotResponse] *)

Definition notConfiguredMessage : string :=
  "Chatbot is not configured. Please contact your administrator to set up the ANTHROPIC_API_KEY.".
Definition notFoundMessage : string := "Conversation not found".
Definition invalidKeyMessage : string :=
  "Invalid API key. Please contact your administrator.".
Definition rateLimitedMessage : string :=
  "API rate limit reached. Please try again in a moment.".
Definition unavailableMessage : string :=
  "Claude API is temporarily unavailable. Please try again later.".
Definition failedMessage : string :=
  "Failed to generate response. Please try again.".

Definition noDocumentsContext : string :=
  "No specific documents found for this query. Please provide general guidance based on your knowledge of RTW, ADA/FEHA compliance, and best practices.".

Definition sourceBlock (idx : nat) (result : SearchResult.t) : string :=
  "[Source " +:+ pretty (idx + 1)%nat +:+ ": " +:+ SearchResult.title result
  +:+ " (" +:+ SearchResult.type result +:+ ")]
" +:+ SearchResult.content result.

Definition buildContext (searchResults : list SearchResult.t) : string :=
  if bool_decide (0 < length searchResults)%nat
  then join "

" (imap sourceBlock searchResults)
  else noDocumentsContext.

Definition toChatMessage (msg : ChatbotMessage.t) : ChatMessage.t :=
  {| ChatMessage.role :=
       match ChatbotMessage.role msg with USER => user | ASSISTANT => assistant end;
     ChatMessage.content := ChatbotMessage.content msg |}.

Definition systemPrompt (context : string) : string :=
  "You are an expert assistant for the SIA (State Insurance Authority) Return to Work (RTW) program. Your role is to help SD (Safety Division) members with questions about temporary and permanent work restrictions, both industrial and non-industrial cases.

You have access to:
- ADA/FEHA compliance materials
- Historical Q&A with legal counsel
- Job descriptions and bridge assignments
- Approved forum discussions

When answering:
1. Base your responses on the provided context documents
2. If you cite information, reference the source
3. If the question requires legal interpretation beyond your knowledge, recommend escalating to legal counsel
4. If the question is complex or you're uncertain, recommend escalating to the RTW Liaison
5. Be clear, concise, and professional
6. Focus on practical, actionable guidance

Context documents:
" +:+ context +:+ "

If you don't have enough information to provide a confident answer, say so and suggest escalation options.".

(** The request that is sent for a conversation with the given stored
    messages. *)
Definition buildRequest (searchResults : list SearchResult.t)
    (stored : list ChatbotMessage.t) (userMessage : string) : MessagesRequest.t :=
  let context := buildContext searchResults in
  let messageHistory := toChatMessage <$> stored in
  {| MessagesRequest.model := "claude-3-5-sonnet-20241022";
     MessagesRequest.max_tokens := 2048;
     MessagesRequest.system := systemPrompt context;
     MessagesRequest.messages :=
       messageHistory ++
       [ {| ChatMessage.role := user; ChatMessage.content := userMessage |} ] |}.

(** [error.status] of a caught value. *)
Definition statusOf (error : Thrown) : option Z :=
  match error with
  | APIError status => status
  | _ => None
  end.

(** The [catch] block around the provider call. *)
Definition classifyProviderError (error : Thrown) : Thrown :=
  match statusOf error with
  | Some status =>
      if status =? 401 then Error invalidKeyMessage
      else if status =? 429 then Error rateLimitedMessage
      else if 500 <=? status then Error unavailableMessage
      else Error failedMessage
  | None => Error failedMessage
  end.

Module GenerateResult.
Record t := mk {
  response : string;
  sources : list SearchResult.t
}.
End GenerateResult.

Definition generateChatbotResponse (ext : Externals)
    (userId conversationId userMessage : string) : M GenerateResult.t :=
  if falsy (ANTHROPIC_API_KEY ext) then throw (Error notConfiguredMessage)
  else
    let* conversation := findConversation conversationId 10 in
    match conversation with
    | None => throw (Error notFoundMessage)
    | Some (conversation, messages) =>
        if negb (bool_decide (ChatbotConversation.userId conversation = userId))
        then throw (Error notFoundMessage)
        else
          let* searchResults := searchKnowledgeBaseM userMessage in
          tryCatch
            (let* content :=
               callProvider ext (buildRequest searchResults messages userMessage) in
             match content with
             | [] => throw TypeError
             | block :: _ =>
                 let assistantMessage :=
                   match block with
                   | TextBlock text => text
                   | OtherBlock _ => ""
                   end in
                 ret {| GenerateResult.response := assistantMessage;
                        GenerateResult.sources := searchResults |}
             end)
            (λ error, throw (classifyProviderError error))
    end.

(** ** [rateLimit], [apiResponse] and [apiError] *)

Definition rateLimit (ext : Externals) (identifier : string) (maxRequests windowMs : Z)
    : M bool :=
  λ w,
    let now := dateNow ext in
    let set (r : RateRecord.t) : World :=
      {| trainingDocument := trainingDocument w;
         chatbotConversation := chatbotConversation w;
         chatbotMessage := chatbotMessage w;
         rateLimitMap := <[identifier := r]> (rateLimitMap w);
         log := log w |} in
    match rateLimitMap w !! identifier with
    | None => (Returned true, set (RateRecord.mk 1 (now + windowMs)))
    | Some record =>
        if RateRecord.resetTime record <? now
        then (Returned true, set (RateRecord.mk 1 (now + windowMs)))
        else if maxRequests <=? RateRecord.count record then (Returned false, w)
        else (Returned true,
              set (RateRecord.mk (RateRecord.count record + 1)
                                 (RateRecord.resetTime record)))
    end.

Inductive ResponseBody :=
| ErrorBody (error : string)
| ReplyBody (conversationId : string) (message : string) (sources : list SearchResult.t).

Module HttpResponse.
Record t := mk { status : Z; body : ResponseBody }.
End HttpResponse.

(** [apiResponse(data)], with its default status. *)
Definition apiResponse (data : ResponseBody) : HttpResponse.t :=
  {| HttpResponse.status := 200; HttpResponse.body := data |}.
Definition apiError (message : string) (status : Z) : HttpResponse.t :=
  {| HttpResponse.status := status; HttpResponse.body := ErrorBody message |}.

(** ** The route handler [POST /api/chatbot/message] *)

(** [session?.user] as [getServerSession] gives it. *)
Module SessionUser.
Record t := mk { id : string }.
End SessionUser.

(** The parsed JSON body of a request. *)
Module MessageData.
Record t := mk { conversationId : option string; message : string }.
End MessageData.

(** [messageSchema.parse(body)]: the issues in the order of the schema's
    keys; the texts are the validator's own. *)
Definition messageSchemaParse (ext : Externals) (data : MessageData.t) : M MessageData.t :=
  let issues :=
    match MessageData.conversationId data with
    | Some c => if isUuid ext c then [] else ["Invalid uuid"]
    | None => []
    end ++
    (if (String.length (MessageData.message data) <? 1)%nat
     then ["String must contain at least 1 character(s)"]
     else if (2000 <? String.length (MessageData.message data))%nat
          then ["String must contain at most 2000 character(s)"]
          else []) in
  match issues with
  | [] => ret data
  | first :: rest => throw (ZodError first rest)
  end.

(** [reqJson] is what [req.json()] gives: [None] when the body is not
    JSON. *)
Definition POST (ext : Externals) (session : option SessionUser.t)
    (reqJson : option MessageData.t) : M HttpResponse.t :=
  tryCatch
    (match session with
     | None => ret (apiError "Unauthorized" 401)
     | Some sessionUser =>
         let* canProceed := rateLimit ext ("chatbot:" +:+ SessionUser.id sessionUser) 30 60000 in
         if negb canProceed
         then ret (apiError "Too many requests. Please wait a moment." 429)
         else
           let* body := match reqJson with
                        | Some data => ret data
                        | None => throw SyntaxError
                        end in
           let* validatedData := messageSchemaParse ext body in
           let* conversationId :=
             if falsy (MessageData.conversationId validatedData)
             then createConversation ext (SessionUser.id sessionUser) None
             else ret (default "" (MessageData.conversationId validatedData)) in
           let* generated :=
             generateChatbotResponse ext (SessionUser.id sessionUser) conversationId
                                     (MessageData.message validatedData) in
           let* _ :=
             saveMessages ext conversationId (MessageData.message validatedData)
                          (GenerateResult.response generated)
                          (Some (GenerateResult.sources generated)) in
           ret (apiResponse (ReplyBody conversationId
                                       (GenerateResult.response generated)
                                       (GenerateResult.sources generated)))
     end)
    (λ error,
       match error with
       | ZodError first _ => ret (apiError first 400)
       | _ => ret (apiError "Failed to process message" 500)
       end).

(** ** Notions of the specification *)

(** A lowercase letter or a digit, and the characters a keyword is made
    of. *)
Definition isLowerAlnum (c : ascii) : bool := isLowerAZ c || isDigit c.
Definition isTokenChar (c : ascii) : bool := isLowerAZ c || isDigit c || isUnderscore c.

(** The points of one term: 2 for the title, 1 for the body. *)
Definition termPoints (titleLower contentLower term : string) : Z :=
  (if includes titleLower term then 2 else 0)
  + (if includes contentLower term then 1 else 0).

Definition totalPoints (keywords : list string) (doc : TrainingDocument.t) : Z :=
  foldr Z.add 0
    (termPoints (toLowerCase (TrainingDocument.title doc))
                (toLowerCase (TrainingDocument.content doc)) <$> keywords).

(** Ranking as the specification words it: all active matches, ordered by
    score (descending) and by recency (descending) among equal scores, and
    of these the first five. *)
Definition rankedFirst (keywords : list string) (a b : TrainingDocument.t) : bool :=
  Qle_bool (relevanceScore keywords b) (relevanceScore keywords a).

Definition specTopFive (table : list TrainingDocument.t) (keywords : list string)
    : list SearchResult.t :=
  scoredResult keywords <$>
    take 5 (stableSort (rankedFirst keywords)
              (stableSort createdAtDesc
                 (List.filter (λ doc, TrainingDocument.isActive doc && matchesAny keywords doc)
                              table))).

(** The order of the ranked result: a higher score first, and among equal
    scores the more recent document first. *)
Definition rankedBefore (keywords : list string) (a b : TrainingDocument.t) : Prop :=
  (relevanceScore keywords b < relevanceScore keywords a)%Q
  ∨ ((relevanceScore keywords a == relevanceScore keywords b)%Q
     ∧ TrainingDocument.createdAt b ≤ TrainingDocument.createdAt a).

Definition moreRecent (a b : TrainingDocument.t) : Prop :=
  TrainingDocument.createdAt b ≤ TrainingDocument.createdAt a.

(** The last [n] elements of a list. *)
Definition lastN {A : Type} (n : nat) (l : list A) : list A :=
  drop (length l - n) l.

(** The history as the specification words it: the most recent ten turns
    of the conversation, oldest first. *)
Definition specHistory (conversationId : string) (table : list ChatbotMessage.t)
    : list ChatMessage.t :=
  toChatMessage <$>
    lastN 10 (stableSort createdAtAsc
                (List.filter (λ m, bool_decide (ChatbotMessage.conversationId m = conversationId))
                             table)).

(** The error taxonomy of the specification and the HTTP status it assigns
    to each kind. *)
Inductive ErrorKind :=
| MissingCredentials
| InvalidCredentials
| ProviderRateLimited
| ProviderUnavailable
| UnknownGenerationFailure.

Definition specStatus (kind : ErrorKind) : Z :=
  match kind with
  | MissingCredentials | InvalidCredentials => 401
  | ProviderRateLimited => 429
  | ProviderUnavailable => 503
  | UnknownGenerationFailure => 500
  end.

(** The kind that a thrown error of [generateChatbotResponse] stands for. *)
Definition kindOf (error : Thrown) : option ErrorKind :=
  match error with
  | Error message =>
      if bool_decide (message = notConfiguredMessage) then Some MissingCredentials
      else if bool_decide (message = invalidKeyMessage) then Some InvalidCredentials
      else if bool_decide (message = rateLimitedMessage) then Some ProviderRateLimited
      else if bool_decide (message = unavailableMessage) then Some ProviderUnavailable
      else if bool_decide (message = failedMessage) then Some UnknownGenerationFailure
      else None
  | _ => None
  end.

(** The events that a run from [w] to [w'] has added to the log. *)
Definition newEvents (w w' : World) : list Event := drop (length (log w)) (log w').

Definition isCallProvider (e : Event) : bool :=
  match e with CallProvider _ => true | _ => false end.

(** The number of calls of [anthropic.messages.create] among the events. *)
Definition providerCalls (events : list Event) : nat :=
  length (List.filter isCallProvider events).

Definition genericFailure : HttpResponse.t := apiError "Failed to process message" 500.

(** How a run of the route handler from [w] to [w'] that answers
    [response] went: the provider was not called; or it was called once
    and generation failed; or generation succeeded and the append of the
    turn pair failed; or the pair was appended. *)
Inductive HandlerRun (ext : Externals) (w w' : World) (response : HttpResponse.t) : Prop :=
| NotGenerated :
    providerCalls (newEvents w w') = 0%nat →
    chatbotMessage w' = chatbotMessage w →
    HandlerRun ext w w' response
| GenerationFailed (before : list Event) (request : MessagesRequest.t) :
    newEvents w w' = before ++ [CallProvider request] →
    providerCalls before = 0%nat →
    (messagesCreate ext request = Responds []
     ∨ ∃ error, messagesCreate ext request = Rejects error) →
    chatbotMessage w' = chatbotMessage w →
    response = genericFailure →
    HandlerRun ext w w' response
| AppendFailed (before : list Event) (request : MessagesRequest.t)
    (conversationId : string) (block : ContentBlock) (rest : list ContentBlock) :
    newEvents w w' = before ++ [CallProvider request; CreateMessages conversationId] →
    providerCalls before = 0%nat →
    messagesCreate ext request = Responds (block :: rest) →
    createManyFails ext = true →
    chatbotMessage w' = chatbotMessage w →
    response = genericFailure →
    HandlerRun ext w w' response
| Replied (before : list Event) (request : MessagesRequest.t)
    (conversationId : string) (block : ContentBlock) (rest : list ContentBlock)
    (userRow assistantRow : ChatbotMessage.t) :
    newEvents w w' = before ++ [CallProvider request; CreateMessages conversationId] →
    providerCalls before = 0%nat →
    messagesCreate ext request = Responds (block :: rest) →
    createManyFails ext = false →
    chatbotMessage w' = chatbotMessage w ++ [userRow; assistantRow] →
    HttpResponse.status response = 200 →
    HandlerRun ext w w' response.

(** ** Sample data *)

Definition sampleDocument (id title content : string) (createdAt : Z)
    : TrainingDocument.t :=
  {| TrainingDocument.id := id;
     TrainingDocument.title := title;
     TrainingDocument.content := content;
     TrainingDocument.documentType := COMPLIANCE;
     TrainingDocument.isActive := true;
     TrainingDocument.createdAt := createdAt |}.

Definition accommodationGuidelines : TrainingDocument.t :=
  sampleDocument "d0" "Reasonable Accommodation Guidelines"
                 "How to change a schedule after an injury." 0.

(** Six active documents that contain the word injury; the oldest one has
    it in its title. *)
Definition injuryCorpus : list TrainingDocument.t :=
  [ sampleDocument "d1" "Injury leave" "Leave after an injury at work." 1;
    sampleDocument "d2" "Bridge assignments" "Light duty after an injury." 2;
    sampleDocument "d3" "Schedules" "Shorter shifts after an injury." 3;
    sampleDocument "d4" "Restrictions" "Lifting limits after an injury." 4;
    sampleDocument "d5" "Forms" "Forms to file after an injury." 5;
    sampleDocument "d6" "Contacts" "Whom to call after an injury." 6 ].

Definition sampleConversationId : string := "123e4567-e89b-12d3-a456-426614174000".

Definition sampleTurn (n : Z) (role : MessageRole) (content : string) : ChatbotMessage.t :=
  {| ChatbotMessage.conversationId := sampleConversationId;
     ChatbotMessage.role := role;
     ChatbotMessage.content := content;
     ChatbotMessage.sources := None;
     ChatbotMessage.createdAt := n |}.

(** Eleven stored turns of one conversation, created at times 1 to 11. *)
Definition elevenTurns : list ChatbotMessage.t :=
  [ sampleTurn 1 USER "m1"; sampleTurn 2 ASSISTANT "m2"; sampleTurn 3 USER "m3";
    sampleTurn 4 ASSISTANT "m4"; sampleTurn 5 USER "m5"; sampleTurn 6 ASSISTANT "m6";
    sampleTurn 7 USER "m7"; sampleTurn 8 ASSISTANT "m8"; sampleTurn 9 USER "m9";
    sampleTurn 10 ASSISTANT "m10"; sampleTurn 11 USER "m11" ].

(** A world in which user [u1] owns the sample conversation. *)
Definition sampleWorld : World :=
  {| trainingDocument := injuryCorpus;
     chatbotConversation :=
       {[ sampleConversationId :=
            {| ChatbotConversation.userId := "u1";
               ChatbotConversation.title := "New Conversation" |} ]};
     chatbotMessage := elevenTurns;
     rateLimitMap := ∅;
     log := [] |}.

Definition isHexDigit (c : ascii) : bool :=
  isDigit c || inRange 97 102 c || inRange 65 70 c.

(** A check of the shape 8-4-4-4-12 of a UUID. *)
Fixpoint uuidShape (groups : list nat) (n : nat) (s : string) : bool :=
  match s with
  | EmptyString => bool_decide (n = 0%nat) && bool_decide (groups = [])
  | String c s' =>
      match n with
      | O => match groups with
             | [] => false
             | g :: groups' => bool_decide (c = "-"%char) && uuidShape groups' g s'
             end
      | S n' => isHexDigit c && uuidShape groups n' s'
      end
  end.

(** The answers of the outside world in the examples: the provider always
    answers [outcome]. *)
Definition sampleExternals (key : option string) (outcome : ProviderOutcome)
    (storeFails : bool) : Externals :=
  {| ANTHROPIC_API_KEY := key;
     messagesCreate := λ _, outcome;
     createManyFails := storeFails;
     dateNow := 1000;
     newConversationId := "00000000-0000-4000-8000-000000000001";
     isUuid := uuidShape [4; 4; 4; 12]%nat 8 |}.

Definition sampleSession : option SessionUser.t := Some {| SessionUser.id := "u1" |}.

Definition sampleBody (text : string) : option MessageData.t :=
  Some {| MessageData.conversationId := Some sampleConversationId;
          MessageData.message := text |}.

(** * Further parts of the code *)

(** ** Notions for the keyword extractor *)

(** What [extractKeywords] keeps of the pieces of a split. *)
Definition isKeyword (word : string) : Prop :=
  (2 < String.length word)%nat ∧ word ∉ stopWords.

(** ** Notions for the route handler *)

(** A body that [messageSchema] accepts. *)
Definition validMessage (ext : Externals) (data : MessageData.t) : Prop :=
  match MessageData.conversationId data with
  | Some c => isUuid ext c = true
  | None => True
  end
  ∧ (1 ≤ String.length (MessageData.message data) ≤ 2000)%nat.

(** The key under which the handler counts the requests of a user. *)
Definition chatbotKey (sessionUser : SessionUser.t) : string :=
  "chatbot:" +:+ SessionUser.id sessionUser.

(** A world in which user [u1] has used up the 30 requests of a window
    that ends at time 2000. *)
Definition limitedWorld : World :=
  {| trainingDocument := injuryCorpus;
     chatbotConversation := chatbotConversation sampleWorld;
     chatbotMessage := elevenTurns;
     rateLimitMap := {[ "chatbot:u1" := RateRecord.mk 30 2000 ]};
     log := [] |}.

Definition firstMessage (text : string) : option MessageData.t :=
  Some {| MessageData.conversationId := None; MessageData.message := text |}.

(** ** Notions for the rate limiter *)

(** Successive calls of [rateLimit] for one identifier, one call for each
    element of [calls] (which gives the time of the call), and what they
    answer. *)
Fixpoint rateLimitCalls (calls : list Externals) (identifier : string)
    (maxRequests windowMs : Z) (w : World) : list bool * World :=
  match calls with
  | [] => ([], w)
  | ext :: calls' =>
      match rateLimit ext identifier maxRequests windowMs w with
      | (Returned canProceed, w') =>
          let (answers, w'') := rateLimitCalls calls' identifier maxRequests windowMs w' in
          (canProceed :: answers, w'')
      | (Threw _, w') => ([], w')
      end
  end.

(** An instant of the sample clock. *)
Definition atTime (now : Z) : Externals :=
  {| ANTHROPIC_API_KEY := None;
     messagesCreate := λ _, Responds [];
     createManyFails := false;
     dateNow := now;
     newConversationId := "";
     isUuid := λ _, false |}.

(** ** Validation utilities: [getPasswordStrength], [validatePassword],
    [sanitizeString], [sanitizeFilename] *)

(** [/[class]/.test(s)]: some character of [s] is in the class. *)
Fixpoint someChar (p : ascii → bool) (s : string) : bool :=
  match s with
  | EmptyString => false
  | String c s' => p c || someChar p s'
  end.

Definition isAlnum (c : ascii) : bool := isUpperAZ c || isLowerAZ c || isDigit c.

(** [passwordSchema.safeParse(password).success]: the string passes when
    each of the checks of the schema passes (at least 8 characters, an
    uppercase letter, a lowercase letter, a digit). *)
Definition validatePassword (password : string) : bool :=
  (8 <=? String.length password)%nat
  && someChar isUpperAZ password
  && someChar isLowerAZ password
  && someChar isDigit password.

Module PasswordStrength.
Record t := mk { score : Z; feedback : list string }.
End PasswordStrength.

(** One step of [getPasswordStrength]: [score++] when the test holds,
    otherwise [feedback.push(advice)] when there is an advice. *)
Definition strengthStep (test : bool) (advice : option string)
    (state : PasswordStrength.t) : PasswordStrength.t :=
  if test
  then {| PasswordStrength.score := PasswordStrength.score state + 1;
          PasswordStrength.feedback := PasswordStrength.feedback state |}
  else {| PasswordStrength.score := PasswordStrength.score state;
          PasswordStrength.feedback :=
            match advice with
            | Some text => PasswordStrength.feedback state ++ [text]
            | None => PasswordStrength.feedback state
            end |}.

Definition getPasswordStrength (password : string) : PasswordStrength.t :=
  let state := {| PasswordStrength.score := 0; PasswordStrength.feedback := [] |} in
  let state := strengthStep (8 <=? String.length password)%nat
                            (Some "Use at least 8 characters") state in
  let state := strengthStep (12 <=? String.length password)%nat None state in
  let state := strengthStep (someChar isUpperAZ password)
                            (Some "Include uppercase letters") state in
  let state := strengthStep (someChar isLowerAZ password)
                            (Some "Include lowercase letters") state in
  let state := strengthStep (someChar isDigit password)
                            (Some "Include numbers") state in
  strengthStep (someChar (λ c, negb (isAlnum c)) password)
               (Some "Include special characters") state.

(** [s.replace(/[^a-zA-Z0-9._-]/g, '_')] *)
Definition isFilenameChar (c : ascii) : bool :=
  isAlnum c || bool_decide (c = "."%char) || bool_decide (c = "_"%char)
  || bool_decide (c = "-"%char).

(** [s.replace(/_{2,}/g, '_')]: every run of two or more underscores
    becomes one underscore.  [inRun] says that the previous character was
    an underscore. *)
Fixpoint collapseUnderscores (inRun : bool) (s : string) : string :=
  match s with
  | EmptyString => EmptyString
  | String c s' =>
      if bool_decide (c = "_"%char)
      then (if inRun then collapseUnderscores true s'
            else String c (collapseUnderscores true s'))
      else String c (collapseUnderscores false s')
  end.

Definition sanitizeFilename (filename : string) : string :=
  substring0 255
    (collapseUnderscores false
       (mapChars (λ c, if isFilenameChar c then c else "_"%char) filename)).

(** No two underscores in a row. *)
Fixpoint noDoubleUnderscore (afterUnderscore : bool) (s : string) : bool :=
  match s with
  | EmptyString => true
  | String c s' =>
      if bool_decide (c = "_"%char)
      then negb afterUnderscore && noDoubleUnderscore true s'
      else noDoubleUnderscore false s'
  end.

(** [s.trim()]: white space is removed from the start and from the end. *)
Fixpoint trimStart (s : string) : string :=
  match s with
  | EmptyString => EmptyString
  | String c s' => if isWhiteSpace c then trimStart s' else s
  end.

Fixpoint trimEnd (s : string) : string :=
  match s with
  | EmptyString => EmptyString
  | String c s' =>
      match trimEnd s' with
      | EmptyString => if isWhiteSpace c then EmptyString else String c EmptyString
      | rest => String c rest
      end
  end.

Definition trim (s : string) : string := trimEnd (trimStart s).

(** [s.replace(/\s+/g, ' ')]: every run of white space becomes one space.
    [inRun] says that the previous character was white space. *)
Fixpoint collapseWhiteSpace (inRun : bool) (s : string) : string :=
  match s with
  | EmptyString => EmptyString
  | String c s' =>
      if isWhiteSpace c
      then (if inRun then collapseWhiteSpace true s'
            else String " " (collapseWhiteSpace true s'))
      else String c (collapseWhiteSpace false s')
  end.

Definition sanitizeString (str : string) : string :=
  collapseWhiteSpace false (trim str).

(** The only white space is the space character, and no two of them stand
    in a row. *)
Fixpoint singleSpaced (afterSpace : bool) (s : string) : bool :=
  match s with
  | EmptyString => true
  | String c s' =>
      if isWhiteSpace c
      then bool_decide (c = " "%char) && negb afterSpace && singleSpaced true s'
      else singleSpaced false s'
  end.

(** No white space at the start, and none at the end. *)
Definition startsClean (s : string) : bool :=
  match s with
  | EmptyString => true
  | String c _ => negb (isWhiteSpace c)
  end.

Fixpoint endsClean (s : string) : bool :=
  match s with
  | EmptyString => true
  | String c EmptyString => negb (isWhiteSpace c)
  | String _ s' => endsClean s'
  end.

(** The characters of [s] that are not white space, in their order. *)
Fixpoint visibleChars (s : string) : string :=
  match s with
  | EmptyString => EmptyString
  | String c s' => if isWhiteSpace c then visibleChars s' else String c (visibleChars s')
  end.

(** ** The error classes and [handleError] *)

(** An element of the path of a validation issue: a key or an index. *)
Inductive PathElement :=
| PathKey (key : string)
| PathIndex (index : N).

(** [String(element)], the property name an element of a path is used
    as. *)
Definition pathName (element : PathElement) : string :=
  match element with
  | PathKey key => key
  | PathIndex index => pretty index
  end.

Module ZodIssue.
Record t := mk { path : list PathElement; message : string }.
End ZodIssue.

(** The classes below [AppError]; a [ValidationError] carries its optional
    [errors]. *)
Inductive AppErrorClass :=
| AppErrorBase
| ValidationErrorClass (errors : option (gmap string string))
| AuthenticationErrorClass
| AuthorizationErrorClass
| NotFoundErrorClass
| ConflictErrorClass
| RateLimitErrorClass
| InternalServerErrorClass.

Module AppError.
Record t := mk {
  class : AppErrorClass;
  statusCode : Z;
  message : string;
  code : option string
}.
End AppError.

(** The constructors of the classes; an omitted message is the default of
    the class. *)
Definition newAppError (statusCode : Z) (message : string) (code : option string)
    : AppError.t :=
  AppError.mk AppErrorBase statusCode message code.
Definition newValidationError (message : string) (errors : option (gmap string string))
    : AppError.t :=
  AppError.mk (ValidationErrorClass errors) 400 message (Some "VALIDATION_ERROR").
Definition newAuthenticationError (message : option string) : AppError.t :=
  AppError.mk AuthenticationErrorClass 401
              (default "Authentication required" message) (Some "AUTHENTICATION_ERROR").
Definition newAuthorizationError (message : option string) : AppError.t :=
  AppError.mk AuthorizationErrorClass 403
              (default "You do not have permission to perform this action" message)
              (Some "AUTHORIZATION_ERROR").
Definition newNotFoundError (message : option string) : AppError.t :=
  AppError.mk NotFoundErrorClass 404
              (default "Resource not found" message) (Some "NOT_FOUND_ERROR").
Definition newConflictError (message : string) : AppError.t :=
  AppError.mk ConflictErrorClass 409 message (Some "CONFLICT_ERROR").
Definition newRateLimitError (message : option string) : AppError.t :=
  AppError.mk RateLimitErrorClass 429
              (default "Too many requests. Please try again later." message)
              (Some "RATE_LIMIT_ERROR").
Definition newInternalServerError (message : option string) : AppError.t :=
  AppError.mk InternalServerErrorClass 500
              (default "An internal server error occurred" message)
              (Some "INTERNAL_SERVER_ERROR").

(** A value that a [catch] receives: a [ZodError], an [AppError], another
    [Error] object with its [name], [message] and [code], or a value that
    is no [Error] object. *)
Inductive ErrorValue :=
| ZodErrorValue (issues : list ZodIssue.t)
| AppErrorValue (error : AppError.t)
| OtherError (name message : string) (code : option string)
| NoError.

(** The JSON body of an error response. *)
Module ErrorBody.
Record t := mk {
  error : string;
  code : option string;
  details : option (gmap string string)
}.
End ErrorBody.

Module ErrorResponse.
Record t := mk { status : Z; body : ErrorBody.t }.
End ErrorResponse.

(** The [forEach] that collects the messages of the issues under the first
    element of their paths.  [errors] is a plain object: an assignment to
    its name [__proto__] runs the setter that every object inherits, which
    ignores a value that is a string, so it adds no property. *)
Definition issueDetails (issues : list ZodIssue.t) : gmap string string :=
  foldl (λ errors err,
           match ZodIssue.path err with
           | [] => errors
           | first :: _ =>
               if bool_decide (pathName first = "__proto__") then errors
               else <[pathName first := ZodIssue.message err]> errors
           end)
        ∅ issues.

(** [error instanceof ValidationError && error.errors ? { details:
    error.errors } : {}] *)
Definition validationDetails (error : AppError.t) : option (gmap string string) :=
  match AppError.class error with
  | ValidationErrorClass errors => errors
  | _ => None
  end.

Definition handleError (error : ErrorValue) : ErrorResponse.t :=
  match error with
  | ZodErrorValue issues =>
      {| ErrorResponse.status := 400;
         ErrorResponse.body :=
           ErrorBody.mk "Validation failed" (Some "VALIDATION_ERROR")
                        (Some (issueDetails issues)) |}
  | AppErrorValue error =>
      {| ErrorResponse.status := AppError.statusCode error;
         ErrorResponse.body :=
           ErrorBody.mk (AppError.message error) (AppError.code error)
                        (validationDetails error) |}
  | OtherError name _ code =>
      if bool_decide (name = "PrismaClientKnownRequestError")
      then
        if bool_decide (code = Some "P2002")
        then {| ErrorResponse.status := 409;
                ErrorResponse.body :=
                  ErrorBody.mk "A record with this value already exists"
                               (Some "DUPLICATE_ERROR") None |}
        else if bool_decide (code = Some "P2025")
        then {| ErrorResponse.status := 404;
                ErrorResponse.body :=
                  ErrorBody.mk "Record not found" (Some "NOT_FOUND_ERROR") None |}
        else {| ErrorResponse.status := 500;
                ErrorResponse.body :=
                  ErrorBody.mk "Database error occurred" (Some "DATABASE_ERROR") None |}
      else {| ErrorResponse.status := 500;
              ErrorResponse.body :=
                ErrorBody.mk "An unexpected error occurred"
                             (Some "INTERNAL_SERVER_ERROR") None |}
  | NoError =>
      {| ErrorResponse.status := 500;
         ErrorResponse.body :=
           ErrorBody.mk "An unexpected error occurred" (Some "INTERNAL_SERVER_ERROR") None |}
  end.

(** [formatErrorForClient]: the fields [message], [code] and [details]. *)
Definition formatErrorForClient (error : ErrorValue) : ErrorBody.t :=
  match error with
  | AppErrorValue error =>
      ErrorBody.mk (AppError.message error) (AppError.code error) (validationDetails error)
  | ZodErrorValue issues =>
      ErrorBody.mk "Validation failed" (Some "VALIDATION_ERROR") (Some (issueDetails issues))
  | _ => ErrorBody.mk "An unexpected error occurred" (Some "UNKNOWN_ERROR") None
  end.

(** A computation that returns or throws. *)
Inductive Try (A : Type) :=
| Done (a : A)
| Raise (e : ErrorValue).
Arguments Done {A} a.
Arguments Raise {A} e.

(** [asyncHandler(handler)] *)
Definition asyncHandler {Req : Type} (handler : Req → Try ErrorResponse.t) (req : Req)
    : ErrorResponse.t :=
  match handler req with
  | Done response => response
  | Raise error => handleError error
  end.

(** The texts that [handleError] answers an error with that is neither a
    validation error nor an [AppError]. *)
Definition fixedErrorTexts : list string :=
  ["A record with this value already exists"; "Record not found";
   "Database error occurred"; "An unexpected error occurred"].

(** The message of the last issue whose path starts with the name [key]. *)
Definition lastIssueFor (key : string) (issues : list ZodIssue.t) : option string :=
  ZodIssue.message <$>
    last (List.filter (λ err, match ZodIssue.path err with
                             | [] => false
                             | first :: _ => bool_decide (pathName first = key)
                             end) issues).

(** ** CSRF protection *)

Definition CSRF_TOKEN_LENGTH : nat := 32.
Definition CSRF_COOKIE_NAME : string := "csrf-token".
Definition CSRF_HEADER_NAME : string := "x-csrf-token".

(** [buffer.toString('hex')]: two lowercase hexadecimal digits for each
    byte. *)
Definition hexDigit (n : N) : ascii :=
  Ascii.ascii_of_N (if (n <? 10)%N then 48 + n else 87 + n)%N.

Fixpoint toHex (bytes : list N) : string :=
  match bytes with
  | [] => EmptyString
  | b :: bytes' =>
      String (hexDigit (b / 16)%N) (String (hexDigit (b mod 16)%N) (toHex bytes'))
  end.

(** [generateCsrfToken], given what [crypto.randomBytes] returns. *)
Definition generateCsrfToken (randomBytes : nat → list N) : string :=
  toHex (randomBytes CSRF_TOKEN_LENGTH).

Module Cookie.
Record t := mk {
  value : string;
  httpOnly : bool;
  secure : bool;
  sameSite : string;
  maxAge : Z;
  path : string
}.
End Cookie.

(** [getCsrfToken]: the token of the cookie, or a new token that is put
    into the cookie.  [production] is [process.env.NODE_ENV ===
    'production']. *)
Definition getCsrfToken (production : bool) (randomBytes : nat → list N)
    (cookieStore : gmap string Cookie.t) : string * gmap string Cookie.t :=
  let token := Cookie.value <$> cookieStore !! CSRF_COOKIE_NAME in
  if falsy token
  then
    let token := generateCsrfToken randomBytes in
    (token,
     <[CSRF_COOKIE_NAME :=
         {| Cookie.value := token;
            Cookie.httpOnly := true;
            Cookie.secure := production;
            Cookie.sameSite := "strict";
            Cookie.maxAge := 60 * 60 * 24;
            Cookie.path := "/" |}]> cookieStore)
  else (default "" token, cookieStore).

(** [Buffer.from(s)]: the UTF-8 bytes of the code units below 256. *)
Fixpoint bufferFrom (s : string) : list N :=
  match s with
  | EmptyString => []
  | String c s' =>
      (if (code c <? 128)%N then [code c]
       else [192 + code c / 64; 128 + code c mod 64])%N ++ bufferFrom s'
  end.

(** [crypto.timingSafeEqual]: buffers of different lengths are an error. *)
Definition cryptoTimingSafeEqual (a b : list N) : Try bool :=
  if bool_decide (length a = length b)
  then Done (bool_decide (a = b))
  else Raise (OtherError "RangeError" "Input buffers must have the same byte length"
                         (Some "ERR_CRYPTO_TIMING_SAFE_EQUAL_LENGTH")).

Definition timingSafeEqual (a b : string) : Try bool :=
  if negb (bool_decide (String.length a = String.length b)) then Done false
  else cryptoTimingSafeEqual (bufferFrom a) (bufferFrom b).

Module Request.
Record t := mk { method : string; headers : gmap string string }.
End Request.

Definition verifyCsrfToken (req : Request.t) (cookieStore : gmap string Cookie.t)
    : Try unit :=
  let method := Request.method req in
  if bool_decide (method = "GET") || bool_decide (method = "HEAD")
     || bool_decide (method = "OPTIONS")
  then Done ()
  else
    let cookieToken := Cookie.value <$> cookieStore !! CSRF_COOKIE_NAME in
    let headerToken := Request.headers req !! CSRF_HEADER_NAME in
    if falsy cookieToken
    then Raise (AppErrorValue
                  (newAuthenticationError (Some "CSRF token not found in cookies")))
    else if falsy headerToken
    then Raise (AppErrorValue
                  (newAuthenticationError (Some "CSRF token not found in request header")))
    else
      match timingSafeEqual (default "" cookieToken) (default "" headerToken) with
      | Raise e => Raise e
      | Done equal =>
          if negb equal
          then Raise (AppErrorValue (newAuthenticationError (Some "Invalid CSRF token")))
          else Done ()
      end.

(** [withCsrfProtection(handler)] *)
Definition withCsrfProtection {A : Type}
    (handler : Request.t → gmap string Cookie.t → Try A)
    (req : Request.t) (cookieStore : gmap string Cookie.t) : Try A :=
  match verifyCsrfToken req cookieStore with
  | Raise e => Raise e
  | Done _ => handler req cookieStore
  end.

Definition isLowerHex (c : ascii) : bool := isDigit c || inRange 97 102 c.

Definition exemptMethod (method : string) : Prop :=
  method = "GET" ∨ method = "HEAD" ∨ method = "OPTIONS".

(** ** The route handlers [GET] and [POST /api/admin/users] *)

Inductive UserRole := MEMBER | LIAISON | LEGAL | ADMIN.

(** The values that [z.enum(['MEMBER', 'LIAISON', 'LEGAL', 'ADMIN'])]
    accepts. *)
Definition parseRole (name : string) : option UserRole :=
  if bool_decide (name = "MEMBER") then Some MEMBER
  else if bool_decide (name = "LIAISON") then Some LIAISON
  else if bool_decide (name = "LEGAL") then Some LEGAL
  else if bool_decide (name = "ADMIN") then Some ADMIN
  else None.

(** A row of the table [user]. *)
Module User.
Record t := mk {
  id : string;
  email : string;
  fullName : string;
  role : UserRole;
  department : option string;
  passwordHash : string;
  isActive : bool;
  createdAt : Z;
  lastLogin : option Z
}.
End User.

(** The columns that the handlers select: the password hash is not among
    them.  [lastLogin] is selected by [GET] only. *)
Module UserView.
Record t := mk {
  id : string;
  email : string;
  fullName : string;
  role : UserRole;
  department : option string;
  isActive : bool;
  createdAt : Z;
  lastLogin : option (option Z)
}.
End UserView.

Definition listView (u : User.t) : UserView.t :=
  UserView.mk (User.id u) (User.email u) (User.fullName u) (User.role u)
              (User.department u) (User.isActive u) (User.createdAt u)
              (Some (User.lastLogin u)).

Definition createdView (u : User.t) : UserView.t :=
  UserView.mk (User.id u) (User.email u) (User.fullName u) (User.role u)
              (User.department u) (User.isActive u) (User.createdAt u) None.

(** [session.user] of an admin route. *)
Module AdminSession.
Record t := mk { id : string; role : UserRole }.
End AdminSession.

Module CreateUserBody.
Record t := mk {
  email : string;
  fullName : string;
  role : string;
  department : option string
}.
End CreateUserBody.

(** What the validator, the hash function, the random number generator,
    the store and the clock answer during one request. *)
Record AdminExternals := {
  isEmail : string → bool;
  bcryptHash : string → string;
  mathRandomBase36 : string;
  newUserId : string;
  adminNow : Z
}.

Inductive AdminBody :=
| AdminError (error : string)
| UserList (users : list UserView.t)
| UserCreated (user : UserView.t) (tempPassword : string) (message : string).

Module AdminResponse.
Record t := mk { status : Z; body : AdminBody }.
End AdminResponse.

Definition adminError (message : string) (status : Z) : AdminResponse.t :=
  AdminResponse.mk status (AdminError message).

(** [!session?.user || session.user.role !== UserRole.ADMIN] *)
Definition notAdmin (session : option AdminSession.t) : bool :=
  match session with
  | None => true
  | Some sessionUser =>
      match AdminSession.role sessionUser with ADMIN => false | _ => true end
  end.

Definition userCreatedAtDesc (a b : User.t) : bool :=
  User.createdAt b <=? User.createdAt a.

Definition adminGET (session : option AdminSession.t) (users : list User.t)
    : AdminResponse.t :=
  if notAdmin session then adminError "Unauthorized" 401
  else AdminResponse.mk 200 (UserList (listView <$> stableSort userCreatedAtDesc users)).

(** [s.slice(-n)]: the last [n] characters, all of [s] when it is
    shorter. *)
Fixpoint dropChars (n : nat) (s : string) : string :=
  match n, s with
  | O, _ => s
  | S _, EmptyString => EmptyString
  | S n', String _ s' => dropChars n' s'
  end.

Definition sliceLast (n : nat) (s : string) : string :=
  dropChars (String.length s - n) s.

(** [createUserSchema.safeParse(body).success] *)
Definition createUserValid (ext : AdminExternals) (body : CreateUserBody.t) : bool :=
  isEmail ext (CreateUserBody.email body)
  && (1 <=? String.length (CreateUserBody.fullName body))%nat
  && bool_decide (is_Some (parseRole (CreateUserBody.role body))).

(** [prisma.user.findUnique({ where: { email } })] *)
Definition findUserByEmail (email : string) (users : list User.t) : option User.t :=
  List.find (λ u, bool_decide (User.email u = email)) users.

(** [reqJson] is what [req.json()] gives: [None] when the body is not
    JSON, which the [catch] answers with status 500. *)
Definition adminPOST (ext : AdminExternals) (session : option AdminSession.t)
    (reqJson : option CreateUserBody.t) (users : list User.t)
    : AdminResponse.t * list User.t :=
  if notAdmin session then (adminError "Unauthorized" 401, users)
  else
    match reqJson with
    | None => (adminError "Internal server error" 500, users)
    | Some body =>
        if negb (createUserValid ext body) then (adminError "Invalid input" 400, users)
        else
          match findUserByEmail (CreateUserBody.email body) users with
          | Some _ => (adminError "User with this email already exists" 400, users)
          | None =>
              let tempPassword := sliceLast 10 (mathRandomBase36 ext) in
              let passwordHash := bcryptHash ext tempPassword in
              let user :=
                {| User.id := newUserId ext;
                   User.email := CreateUserBody.email body;
                   User.fullName := CreateUserBody.fullName body;
                   User.role := default MEMBER (parseRole (CreateUserBody.role body));
                   User.department := CreateUserBody.department body;
                   User.passwordHash := passwordHash;
                   User.isActive := true;
                   User.createdAt := adminNow ext;
                   User.lastLogin := None |} in
              (AdminResponse.mk 201
                 (UserCreated (createdView user) tempPassword
                    "User created successfully. Password has been sent via email."),
               users ++ [user])
          end
    end.

(** The answers of the outside world in the examples. *)
Definition sampleAdminExternals : AdminExternals :=
  {| isEmail := λ s, includes s "@";
     bcryptHash := λ s, "$2a$12$" +:+ s;
     mathRandomBase36 := "0.k3j9x0q2m7p";
     newUserId := "u-new";
     adminNow := 1000 |}.

Definition sampleAdmin : option AdminSession.t := Some (AdminSession.mk "u0" ADMIN).

Definition sampleNewUser : CreateUserBody.t :=
  CreateUserBody.mk "new.member@example.org" "New Member" "MEMBER" None.

(** ** The rate limiter of the API wrapper: [checkRateLimit],
    [getRateLimitInfo], [resetRateLimit], the cleanup and
    [getClientIdentifier] *)

Module RateLimitConfig.
Record t := mk { maxRequests : Z; windowMs : Z }.
End RateLimitConfig.

(** [Math.ceil(x / 1000)] for an integer [x]. *)
Definition ceilSeconds (x : Z) : Z := - ((- x) / 1000).

(** [checkRateLimit(identifier, config)] at time [now]. *)
Definition checkRateLimit (now : Z) (identifier : string) (config : RateLimitConfig.t)
    (store : gmap string RateRecord.t) : Try unit * gmap string RateRecord.t :=
  let fresh := RateRecord.mk 1 (now + RateLimitConfig.windowMs config) in
  match store !! identifier with
  | None => (Done (), <[identifier := fresh]> store)
  | Some record =>
      if RateRecord.resetTime record <? now
      then (Done (), <[identifier := fresh]> store)
      else if RateLimitConfig.maxRequests config <=? RateRecord.count record
      then
        let retryAfter := ceilSeconds (RateRecord.resetTime record - now) in
        (Raise (AppErrorValue
                  (newRateLimitError
                     (Some ("Too many requests. Please try again in "
                            +:+ pretty retryAfter +:+ " seconds.")))),
         store)
      else
        (Done (),
         <[identifier := RateRecord.mk (RateRecord.count record + 1)
                                       (RateRecord.resetTime record)]> store)
  end.

Module RateLimitInfo.
Record t := mk { remaining : Z; resetTime : Z; total : Z }.
End RateLimitInfo.

Definition getRateLimitInfo (now : Z) (identifier : string) (maxRequests : Z)
    (store : gmap string RateRecord.t) : RateLimitInfo.t :=
  let unused := RateLimitInfo.mk maxRequests (now + 900000) maxRequests in
  match store !! identifier with
  | None => unused
  | Some record =>
      if RateRecord.resetTime record <? now then unused
      else RateLimitInfo.mk (Z.max 0 (maxRequests - RateRecord.count record))
                            (RateRecord.resetTime record) maxRequests
  end.

Definition resetRateLimit (identifier : string) (store : gmap string RateRecord.t)
    : gmap string RateRecord.t :=
  delete identifier store.

(** The cleanup that runs every 5 minutes: the records whose window has
    passed are deleted. *)
Definition cleanup (now : Z) (store : gmap string RateRecord.t)
    : gmap string RateRecord.t :=
  filter (λ entry, ¬ (RateRecord.resetTime entry.2 < now)) store.

Inductive LimiterName := LimitAuth | LimitApi | LimitChatbot | LimitUpload | LimitStrict.

(** The table [rateLimiters]. *)
Definition limiterConfig (name : LimiterName) : RateLimitConfig.t :=
  match name with
  | LimitAuth => RateLimitConfig.mk 5 (15 * 60 * 1000)
  | LimitApi => RateLimitConfig.mk 100 (15 * 60 * 1000)
  | LimitChatbot => RateLimitConfig.mk 20 (60 * 1000)
  | LimitUpload => RateLimitConfig.mk 10 (60 * 60 * 1000)
  | LimitStrict => RateLimitConfig.mk 10 (60 * 1000)
  end.

(** [s.split(',')[0]]: the part of [s] in front of the first comma. *)
Fixpoint beforeComma (s : string) : string :=
  match s with
  | EmptyString => EmptyString
  | String c s' => if bool_decide (c = ","%char) then EmptyString else String c (beforeComma s')
  end.

(** [a || b] on values that are strings or missing. *)
Definition orElse (a : option string) (b : option string) : option string :=
  if falsy a then b else a.

Definition getClientIdentifier (headers : gmap string string) : string :=
  let forwardedFor := headers !! "x-forwarded-for" in
  let realIp := headers !! "x-real-ip" in
  let cfConnectingIp := headers !! "cf-connecting-ip" in
  default ""
    (orElse ((λ v, trim (beforeComma v)) <$> forwardedFor)
       (orElse realIp (orElse cfConnectingIp (Some "unknown")))).

(** ** Numbers of [paginatedResponse]: binary64 arithmetic *)

(** The nearest whole number, the even one of two that are equally
    near. *)
Definition roundHalfEven (x : Q) : Z :=
  let f := Qfloor x in
  match (x - inject_Z f ?= 1 # 2)%Q with
  | Lt => f
  | Gt => f + 1
  | Eq => if Z.even f then f else f + 1
  end.

(** The binary exponent of a positive number [x]: the [e] with
    [2^e ≤ x < 2^(e+1)]. *)
Definition floorLog2 (x : Q) : Z :=
  let k := Z.log2 (Qnum x) - Z.log2 (Zpos (Qden x)) in
  if Qle_bool (2 ^ k) x then k else k - 1.

(** A positive number rounded to 53 significant bits. *)
Definition roundPositive (x : Q) : Q :=
  let ulp := (2 ^ (floorLog2 x - 52))%Q in
  (inject_Z (roundHalfEven (x / ulp)) * ulp)%Q.

(** The value of the double that a real result is rounded to (to the
    nearest, ties to even), for results in the range of the normal
    doubles: every operation below stays in that range, neither
    overflow nor a subnormal result occurs for whole numbers of
    magnitude up to [2^53] and a divisor that is not 0. *)
Definition binary64 (x : Q) : Q :=
  match (x ?= 0)%Q with
  | Eq => 0
  | Gt => roundPositive x
  | Lt => - roundPositive (- x)
  end%Q.

(** [Number.MAX_SAFE_INTEGER] *)
Definition MAX_SAFE_INTEGER : Z := 2 ^ 53 - 1.

(** [paginatedResponse(data, total, page, limit)] for arguments that are
    whole numbers of magnitude up to [2^53] (these are doubles) and a
    limit that is not 0: the data and the object [pagination].  The
    product and the quotient are rounded as binary64 rounds them;
    [Math.ceil] and the comparisons are exact. *)
Module Pagination.
Record t := mk {
  total : Z;
  page : Z;
  limit : Z;
  totalPages : Z;
  hasNext : bool;
  hasPrev : bool
}.
End Pagination.

Definition paginatedResponse {T : Type} (data : list T) (total page limit : Z)
    : list T * Pagination.t :=
  (data,
   {| Pagination.total := total;
      Pagination.page := page;
      Pagination.limit := limit;
      Pagination.totalPages := Qceiling (binary64 (inject_Z total / inject_Z limit));
      Pagination.hasNext :=
        negb (Qle_bool (inject_Z total) (binary64 (inject_Z page * inject_Z limit)));
      Pagination.hasPrev := 1 <? page |}).

(** ** The API route wrapper [createApiHandler] *)

Module ApiHandlerOptions.
Record t := mk {
  requireAuth : bool;
  requireRole : option UserRole;
  enableCsrf : bool;
  rateLimit : option LimiterName;
  enableAudit : bool;
  auditAction : option string
}.
End ApiHandlerOptions.

(** The options of [createApiHandler(handler)]. *)
Definition defaultOptions : ApiHandlerOptions.t :=
  ApiHandlerOptions.mk false None true None false None.

Definition roleHierarchy (role : UserRole) : Z :=
  match role with
  | MEMBER => 0
  | LIAISON => 1
  | LEGAL => 2
  | ADMIN => 3
  end.

(** [session] is given by the id of its user. *)
Module ApiContext.
Record t := mk {
  user : option User.t;
  session : option string;
  req : Request.t;
  routeParams : gmap string string
}.
End ApiContext.

(** What the wrapper leaves behind: the entries of the logger, the calls
    of the handler and the rows of the table [auditLog]. *)
Inductive ApiEvent :=
| LogSecurity (event : string) (ip : string)
| CallHandler (context : ApiContext.t)
| AuditLogCreate (userId action ipAddress : string)
| LogRequest (userId : option string) (statusCode : Z) (ip : string)
| LogError (ip : string).

Module ApiWorld.
Record t := mk {
  store : gmap string RateRecord.t;
  events : list ApiEvent
}.
End ApiWorld.

(** What the clock, the cookies, the session and the database answer
    during one request: [getServerSession] is [session?.user?.id], and
    [auditLogCreate] is the error that [prisma.auditLog.create] throws,
    if it throws. *)
Record ApiExternals := {
  apiNow : Z;
  cookies : gmap string Cookie.t;
  getServerSession : option string;
  userFindUnique : string → option User.t;
  auditLogCreate : option ErrorValue
}.

(** A response of the wrapper: the response of the handler, or a JSON
    error. *)
Inductive ApiResult (R : Type) :=
| HandlerResponse (response : R)
| JsonError (response : ErrorResponse.t).
Arguments HandlerResponse {R} response.
Arguments JsonError {R} response.

Definition jsonError (error : string) (status : Z) : ErrorResponse.t :=
  {| ErrorResponse.status := status;
     ErrorResponse.body := ErrorBody.mk error None None |}.

Definition record (e : ApiEvent) (w : ApiWorld.t) : ApiWorld.t :=
  ApiWorld.mk (ApiWorld.store w) (ApiWorld.events w ++ [e]).

(** Steps 3 and 4 of the wrapper: the response that ends the request, or
    the user and the session. *)
Inductive Authorized :=
| Denied (response : ErrorResponse.t)
| Granted (user : option User.t) (session : option string).

Definition authorize (options : ApiHandlerOptions.t) (ext : ApiExternals)
    (clientIp : string) (w : ApiWorld.t) : Authorized * ApiWorld.t :=
  if ApiHandlerOptions.requireAuth options
  then
    if falsy (getServerSession ext)
    then (Denied (jsonError "Authentication required" 401),
          record (LogSecurity "UNAUTHORIZED_API_ACCESS" clientIp) w)
    else
      match userFindUnique ext (default "" (getServerSession ext)) with
      | None => (Denied (jsonError "Account is inactive" 403), w)
      | Some account =>
          if negb (User.isActive account)
          then (Denied (jsonError "Account is inactive" 403), w)
          else
            match ApiHandlerOptions.requireRole options with
            | Some requireRole =>
                if roleHierarchy (User.role account) <? roleHierarchy requireRole
                then (Denied (jsonError "Insufficient permissions" 403),
                      record (LogSecurity "UNAUTHORIZED_ROLE_ACCESS" clientIp) w)
                else (Granted (Some account) (getServerSession ext), w)
            | None => (Granted (Some account) (getServerSession ext), w)
            end
      end
  else (Granted None None, w).

(** The [catch] of the wrapper. *)
Definition catchError {R : Type} (clientIp : string) (error : ErrorValue) (w : ApiWorld.t)
    : ApiResult R * ApiWorld.t :=
  (JsonError (handleError error), record (LogError clientIp) w).

(** Steps 5 to 8 of the wrapper: the handler is run, the audit row and
    the log entry are written.  [status] is the status of a response of
    the handler. *)
Definition serve {R : Type} (status : R → Z)
    (handler : Request.t → ApiContext.t → Try R) (options : ApiHandlerOptions.t)
    (ext : ApiExternals) (req : Request.t) (routeParams : option (gmap string string))
    (clientIp : string) (account : option User.t) (session : option string)
    (w : ApiWorld.t) : ApiResult R * ApiWorld.t :=
  let context := ApiContext.mk account session req (default ∅ routeParams) in
  let w := record (CallHandler context) w in
  match handler req context with
  | Raise error => catchError clientIp error w
  | Done response =>
      let logged (w : ApiWorld.t) : ApiResult R * ApiWorld.t :=
        (HandlerResponse response,
         record (LogRequest (User.id <$> account) (status response) clientIp) w) in
      match account with
      | Some account' =>
          if ApiHandlerOptions.enableAudit options
             && negb (falsy (ApiHandlerOptions.auditAction options))
          then
            match auditLogCreate ext with
            | Some error => catchError clientIp error w
            | None =>
                logged
                  (record
                     (AuditLogCreate
                        (User.id account')
                        (default "" (ApiHandlerOptions.auditAction options))
                        clientIp) w)
            end
          else logged w
      | None => logged w
      end
  end.

(** Step 1 of the wrapper: [rateLimiters[rateLimit](clientIp)], if a
    limiter is named. *)
Definition limit (options : ApiHandlerOptions.t) (ext : ApiExternals)
    (clientIp : string) (store : gmap string RateRecord.t)
    : Try unit * gmap string RateRecord.t :=
  match ApiHandlerOptions.rateLimit options with
  | Some name => checkRateLimit (apiNow ext) clientIp (limiterConfig name) store
  | None => (Done (), store)
  end.

(** [createApiHandler(handler, options)(req, routeContext)] *)
Definition createApiHandler {R : Type} (status : R → Z)
    (handler : Request.t → ApiContext.t → Try R) (options : ApiHandlerOptions.t)
    (ext : ApiExternals) (req : Request.t) (routeParams : option (gmap string string))
    (w : ApiWorld.t) : ApiResult R * ApiWorld.t :=
  let clientIp := getClientIdentifier (Request.headers req) in
  let limited := limit options ext clientIp (ApiWorld.store w) in
  let w := ApiWorld.mk (snd limited) (ApiWorld.events w) in
  match fst limited with
  | Raise error => catchError clientIp error w
  | Done _ =>
      match (if ApiHandlerOptions.enableCsrf options
                && negb (bool_decide (Request.method req = "GET"))
             then verifyCsrfToken req (cookies ext) else Done ()) with
      | Raise error => catchError clientIp error w
      | Done _ =>
          match authorize options ext clientIp w with
          | (Denied response, w) => (JsonError response, w)
          | (Granted account session, w) =>
              serve status handler options ext req routeParams clientIp account session w
          end
      end
  end.

(** *** What the wrapper is specified by *)

(** The events that [w'] has after those of [w]. *)
Definition eventsSince (w w' : ApiWorld.t) : list ApiEvent :=
  drop (length (ApiWorld.events w)) (ApiWorld.events w').

Definition isCallHandler (e : ApiEvent) : bool :=
  match e with
  | CallHandler _ => true
  | _ => false
  end.

(** The request passes the limiter, the CSRF check and the checks of the
    session, the account and the role, as far as the options ask for
    them. *)
Definition admitted (options : ApiHandlerOptions.t) (ext : ApiExternals)
    (req : Request.t) (w : ApiWorld.t) : Prop :=
  (∀ name,
     ApiHandlerOptions.rateLimit options = Some name →
     fst (checkRateLimit (apiNow ext) (getClientIdentifier (Request.headers req))
            (limiterConfig name) (ApiWorld.store w)) = Done ())
  ∧ (ApiHandlerOptions.enableCsrf options = true →
     verifyCsrfToken req (cookies ext) = Done ())
  ∧ (ApiHandlerOptions.requireAuth options = true →
     ∃ id account,
       getServerSession ext = Some id
       ∧ id ≠ ""
       ∧ userFindUnique ext id = Some account
       ∧ User.isActive account = true
       ∧ ∀ role,
           ApiHandlerOptions.requireRole options = Some role →
           roleHierarchy role ≤ roleHierarchy (User.role account)).

(** The user that the handler is given. *)
Definition contextUser (options : ApiHandlerOptions.t) (ext : ApiExternals)
    : option User.t :=
  if ApiHandlerOptions.requireAuth options
  then getServerSession ext ≫= userFindUnique ext
  else None.

(** The session that the handler is given. *)
Definition contextSession (options : ApiHandlerOptions.t) (ext : ApiExternals)
    : option string :=
  if ApiHandlerOptions.requireAuth options then getServerSession ext else None.

(** The rate-limit table after the request. *)
Definition storeAfter (options : ApiHandlerOptions.t) (ext : ApiExternals)
    (req : Request.t) (w : ApiWorld.t) : gmap string RateRecord.t :=
  snd (limit options ext (getClientIdentifier (Request.headers req)) (ApiWorld.store w)).

(** The audit row is asked for: there is a user, and the options name an
    action. *)
Definition audited (options : ApiHandlerOptions.t) : bool :=
  ApiHandlerOptions.requireAuth options
  && ApiHandlerOptions.enableAudit options
  && negb (falsy (ApiHandlerOptions.auditAction options)).

(** Two strings of the same length whose UTF-8 encodings differ in
    length. *)
Definition unevenBytes (a b : string) : Prop :=
  String.length a = String.length b ∧ length (bufferFrom a) ≠ length (bufferFrom b).

(** *** Sample requests of the wrapper *)

Definition sampleAccount : User.t :=
  {| User.id := "user-7";
     User.email := "liaison@example.org";
     User.fullName := "Sample Liaison";
     User.role := LIAISON;
     User.department := None;
     User.passwordHash := "$2a$12$hash";
     User.isActive := true;
     User.createdAt := 1700000000000;
     User.lastLogin := None |}.

(** A database that knows the sample account and cannot write audit
    rows when [auditError] is given, and a session given by the id of its
    user. *)
Definition sampleApiExternals (session : option string) (auditError : option ErrorValue)
    : ApiExternals :=
  {| apiNow := 1700000100000;
     cookies := ∅;
     getServerSession := session;
     userFindUnique := λ id, if bool_decide (id = "user-7") then Some sampleAccount else None;
     auditLogCreate := auditError |}.

Definition sampleApiRequest : Request.t :=
  Request.mk "GET" {[ "x-forwarded-for" := "203.0.113.9, 10.0.0.1" ]}.

Definition sampleApiWorld : ApiWorld.t := ApiWorld.mk ∅ [].

Definition auditedOptions : ApiHandlerOptions.t :=
  ApiHandlerOptions.mk true (Some LIAISON) true (Some LimitApi) true (Some "VIEW_CASES").

Definition connectionLost : ErrorValue :=
  OtherError "PrismaClientInitializationError" "Can't reach database server" None.

(** * Properties *)

Example split_ex1 : splitWhiteSpace " a  b " = [""; "a"; "b"; ""].
Proof. reflexivity. Qed.

Example kw_ex1 :
  extractKeywords "Can I modify an employee's schedule due to injury?"
  = ["modify"; "employee"; "schedule"; "due"; "injury"].
Proof. vm_compute. reflexivity. Qed.

Example kw_ex2 : extractKeywords "and the of" = [].
Proof. vm_compute. reflexivity. Qed.

(** The scenario of the specification: the accommodation guidelines are
    found for the schedule question, with a score above 0. *)
Example accommodation_found :
  (λ result, (SearchResult.title result, SearchResult.score result))
    <$> searchKnowledgeBase [accommodationGuidelines]
          "Can I modify an employee's schedule due to injury?"
  = [("Reasonable Accommodation Guidelines", 0.2%Q)].
Proof. vm_compute. reflexivity. Qed.

Example empty_corpus : searchKnowledgeBase [] "and the of" = [].
Proof. vm_compute. reflexivity. Qed.

Example fallback_context : buildContext [] = noDocumentsContext.
Proof. reflexivity. Qed.
(** ** Characters and strings *)

Lemma lowered_char_is_token_or_space (c : ascii) :
  let c' := charToLowerCase c in
  let c'' := if isWordChar c' || isWhiteSpace c' then c' else " "%char in
  isWhiteSpace c'' || isTokenChar c'' = true.
Proof. destruct c as [[] [] [] [] [] [] [] []]; vm_compute; reflexivity. Qed.

Lemma allChars_app (p : ascii → bool) (s t : string) :
  allChars p (s +:+ t) = allChars p s && allChars p t.
Proof.
  induction s as [|c s IH]; simpl; [reflexivity|].
  rewrite IH. apply andb_assoc.
Qed.

Lemma normalised_query_chars (query : string) :
  allChars (λ c, isWhiteSpace c || isTokenChar c)
           (replaceNonWord (toLowerCase query)) = true.
Proof.
  unfold replaceNonWord, toLowerCase.
  induction query as [|c q IH]; simpl; [reflexivity|].
  rewrite IH, andb_true_r. apply lowered_char_is_token_or_space.
Qed.

Lemma splitRuns_allChars (p : ascii → bool) (s : string) :
  ∀ inRun cur,
    allChars p cur = true →
    allChars (λ c, isWhiteSpace c || p c) s = true →
    Forall (λ piece, allChars p piece = true) (splitRuns inRun cur s).
Proof.
  induction s as [|c s IH]; intros inRun cur Hcur Hs; simpl in *.
  - by constructor.
  - apply andb_true_iff in Hs as [Hc Hs].
    destruct (isWhiteSpace c) eqn:Hws.
    + destruct inRun; [by apply IH|].
      constructor; [done|]. by apply IH.
    + apply IH; [|done]. rewrite allChars_app, Hcur. simpl in *.
      by rewrite Hc.
Qed.

Lemma startsWith_prefix (s t : string) :
  startsWith s t = true ↔ ∃ post, s = t +:+ post.
Proof.
  revert s. induction t as [|b t IH]; intros s; simpl.
  - destruct s; split; eauto.
  - destruct s as [|a s]; simpl.
    + split; [done|]. by intros [post H].
    + rewrite andb_true_iff, bool_decide_eq_true, IH. split.
      * intros [-> [post ->]]. by exists post.
      * intros [post H]. injection H as -> ->. eauto.
Qed.

(** [includes] decides the substring relation. *)
Lemma includes_substring (s t : string) :
  includes s t = true ↔ ∃ pre post, s = pre +:+ t +:+ post.
Proof.
  induction s as [|a s IH].
  - change (includes EmptyString t) with (startsWith EmptyString t || false).
    rewrite orb_false_r, startsWith_prefix. split.
    + intros [post H]. by exists EmptyString, post.
    + intros [[|c pre] [post H]]; [by exists post|discriminate].
  - change (includes (String a s) t)
      with (startsWith (String a s) t || includes s t).
    rewrite orb_true_iff, IH, startsWith_prefix. split.
    + intros [[post H]|(pre & post & ->)].
      * by exists EmptyString, post.
      * by exists (String a pre), post.
    + intros [[|c pre] [post H]].
      * left. by exists post.
      * right. injection H as -> ->. by exists pre, post.
Qed.

Lemma token_char_lowercase (c : ascii) :
  isTokenChar c = true → charToLowerCase c = c.
Proof.
  destruct c as [[] [] [] [] [] [] [] []]; vm_compute; intros H;
    first [reflexivity | discriminate H].
Qed.

Lemma token_lowercase (s : string) :
  allChars isTokenChar s = true → toLowerCase s = s.
Proof.
  unfold toLowerCase. induction s as [|c s IH]; simpl; [done|].
  rewrite andb_true_iff. intros [Hc Hs]. by rewrite token_char_lowercase, IH.
Qed.

Lemma extractKeywords_chars (query : string) :
  Forall (λ word, allChars isTokenChar word = true) (extractKeywords query).
Proof.
  apply Forall_forall. intros word Hin.
  apply list_elem_of_filter in Hin as [_ Hin].
  pose proof (splitRuns_allChars isTokenChar _ false EmptyString eq_refl
                (normalised_query_chars query)) as Hall.
  rewrite Forall_forall in Hall. by apply Hall.
Qed.

(** C8 (as amended): every keyword is made of lowercase letters, digits
    and underscores, is longer than 2 and is not a stop word. *)
Theorem extractKeywords_tokens (query : string) :
  Forall (λ word, allChars isTokenChar word = true
                  ∧ (2 < String.length word)%nat
                  ∧ word ∉ stopWords)
         (extractKeywords query).
Proof.
  pose proof (extractKeywords_chars query) as Hchars.
  rewrite Forall_forall in Hchars |- *. intros word Hin.
  split; [by apply Hchars|].
  by apply list_elem_of_filter in Hin as [[Hlen Hstop] _].
Qed.

(** C8 (as stated) fails: a repeated word is returned twice, and an
    underscore is kept inside a token. *)
Lemma extractKeywords_not_a_set :
  ¬ NoDup (extractKeywords "injury injury")
  ∧ ¬ Forall (λ word, allChars isLowerAlnum word = true) (extractKeywords "pay_rate").
Proof.
  split.
  - assert (extractKeywords "injury injury" = ["injury"; "injury"]) as -> by (vm_compute; reflexivity).
    intros H. apply NoDup_cons in H as [H _]. apply H. by left.
  - assert (extractKeywords "pay_rate" = ["pay_rate"]) as -> by (vm_compute; reflexivity).
    intros H. apply Forall_cons in H as [H _]. vm_compute in H. discriminate.
Qed.

(** ** The stable sort *)

Lemma StronglySorted_mono {A : Type} (R R' : A → A → Prop) (l : list A) :
  (∀ x y, R x y → R' x y) → StronglySorted R l → StronglySorted R' l.
Proof.
  intros Hsub. induction 1 as [|x l Hs IH Hx]; constructor; [done|].
  eapply Forall_impl; [exact Hx|]. by intros y; apply Hsub.
Qed.

Section StableSortFacts.
Context {A : Type} (before : A → A → bool).

Lemma insertStable_perm (x : A) (l : list A) : insertStable before x l ≡ₚ x :: l.
Proof.
  induction l as [|y l IH]; simpl; [done|].
  destruct (before x y); [done|].
  rewrite IH. apply Permutation_swap.
Qed.

Lemma stableSort_perm (l : list A) : stableSort before l ≡ₚ l.
Proof.
  induction l as [|x l IH]; simpl; [done|].
  rewrite insertStable_perm. by rewrite IH.
Qed.

Lemma stableSort_length (l : list A) : length (stableSort before l) = length l.
Proof. apply Permutation_length, stableSort_perm. Qed.

Lemma stableSort_elem_of (x : A) (l : list A) : x ∈ stableSort before l ↔ x ∈ l.
Proof. by rewrite stableSort_perm. Qed.

Lemma stableSort_Forall (P : A → Prop) (l : list A) :
  Forall P l → Forall P (stableSort before l).
Proof. by rewrite stableSort_perm. Qed.

(** The order of the result: [x] stands in front of [y] only if it may,
    and where [y] may stand in front of [x] as well, [x] was in front
    of [y] before ([was] holds between them). *)
Section Stability.
Context (was : A → A → Prop).
Hypothesis before_total : ∀ x y, before x y = true ∨ before y x = true.
Hypothesis before_trans :
  ∀ x y z, before x y = true → before y z = true → before x z = true.

Lemma insertStable_keeps (x : A) (l : list A) :
  StronglySorted (keeps before was) l → Forall (was x) l →
  StronglySorted (keeps before was) (insertStable before x l).
Proof.
  induction l as [|y l IH]; intros Hs Hx; simpl.
  - repeat constructor.
  - apply StronglySorted_inv in Hs as [Hs Hy].
    apply Forall_cons in Hx as [Hxy Hx].
    destruct (before x y) eqn:Hb.
    + constructor; [by constructor|].
      constructor; [by split|].
      rewrite Forall_forall in Hy, Hx |- *. intros z Hz. split.
      * eapply before_trans; [exact Hb|]. by apply Hy.
      * intros _. by apply Hx.
    + constructor; [by apply IH|].
      rewrite insertStable_perm. constructor; [|done].
      split; [|by rewrite Hb].
      by destruct (before_total x y) as [Hc|Hc]; [rewrite Hb in Hc|].
Qed.

Lemma stableSort_keeps (l : list A) :
  StronglySorted was l → StronglySorted (keeps before was) (stableSort before l).
Proof.
  induction l as [|x l IH]; intros Hs; simpl; [constructor|].
  apply StronglySorted_inv in Hs as [Hs Hx].
  apply insertStable_keeps; [by apply IH|].
  by rewrite stableSort_perm.
Qed.
End Stability.

Lemma stableSort_sorted (l : list A) :
  (∀ x y, before x y = true ∨ before y x = true) →
  (∀ x y z, before x y = true → before y z = true → before x z = true) →
  StronglySorted (λ x y, before x y = true) (stableSort before l).
Proof.
  intros Htot Htrans.
  assert (StronglySorted (λ _ _ : A, True) l) as Hany.
  { induction l; constructor; [done|]. by apply Forall_forall. }
  pose proof (stableSort_keeps (λ _ _, True) Htot Htrans l Hany) as H.
  eapply StronglySorted_mono; [|exact H].
  by intros x y [? _].
Qed.
End StableSortFacts.

Lemma insertStable_fmap {A B : Type} (f : A → B) (before : A → A → bool)
    (before' : B → B → bool) (x : A) (l : list A) :
  (∀ x y, before' (f x) (f y) = before x y) →
  insertStable before' (f x) (f <$> l) = f <$> insertStable before x l.
Proof.
  intros Hf. induction l as [|y l IH]; [done|].
  rewrite fmap_cons. simpl. rewrite Hf.
  destruct (before x y); rewrite !fmap_cons; [done|]. by rewrite IH.
Qed.

Lemma stableSort_fmap {A B : Type} (f : A → B) (before : A → A → bool)
    (before' : B → B → bool) (l : list A) :
  (∀ x y, before' (f x) (f y) = before x y) →
  stableSort before' (f <$> l) = f <$> stableSort before l.
Proof.
  intros Hf. induction l as [|x l IH]; [done|].
  rewrite fmap_cons. unfold stableSort in *. simpl. rewrite IH.
  by apply insertStable_fmap.
Qed.

(** ** RelevanceScorer *)

Lemma foldl_points (titleLower contentLower : string) (keywords : list string) (acc : Z) :
  foldl (λ matchCount keyword,
           let matchCount :=
             if includes titleLower keyword then matchCount + 2 else matchCount in
           if includes contentLower keyword then matchCount + 1 else matchCount)
        acc keywords
  = acc + foldr Z.add 0 (termPoints titleLower contentLower <$> keywords).
Proof.
  revert acc. induction keywords as [|k ks IH]; intros acc; simpl; [lia|].
  rewrite IH. unfold termPoints, fmap.
  destruct (includes titleLower k), (includes contentLower k); lia.
Qed.

Lemma countMatches_totalPoints (keywords : list string) (doc : TrainingDocument.t) :
  countMatches keywords (toLowerCase (TrainingDocument.title doc))
                        (toLowerCase (TrainingDocument.content doc))
  = totalPoints keywords doc.
Proof. unfold countMatches, totalPoints. by rewrite foldl_points. Qed.

Lemma totalPoints_nonneg (keywords : list string) (doc : TrainingDocument.t) :
  0 ≤ totalPoints keywords doc.
Proof.
  unfold totalPoints, fmap. induction keywords as [|k ks IH]; simpl; [lia|].
  unfold termPoints at 1.
  destruct (includes _ k), (includes _ k); lia.
Qed.

Lemma totalPoints_title (keywords : list string) (doc : TrainingDocument.t) :
  (∀ term, term ∈ keywords →
           includes (toLowerCase (TrainingDocument.title doc)) term = true) →
  Z.of_nat (length keywords) * 2 ≤ totalPoints keywords doc.
Proof.
  unfold totalPoints, fmap.
  induction keywords as [|k ks IH]; intros Hall; simpl; [lia|].
  unfold termPoints at 1. rewrite (Hall k) by (by left).
  assert (∀ term, term ∈ ks →
            includes (toLowerCase (TrainingDocument.title doc)) term = true) as Hks.
  { intros term Hterm. apply Hall. by right. }
  specialize (IH Hks). destruct (includes _ k); lia.
Qed.

Lemma inject_Z_pos (z : Z) : 0 < z → (0 < inject_Z z)%Q.
Proof. intros Hz. unfold Qlt. simpl. lia. Qed.

(** C5: the score is [min(totalPoints / (|T| * 2), 1)], lies in [0, 1],
    and is 1 when the lowercased title contains every term. *)
Theorem relevanceScore_formula (doc : TrainingDocument.t) (keywords : list string) :
  keywords ≠ [] →
  relevanceScore keywords doc
  = Qmin (inject_Z (totalPoints keywords doc)
          / inject_Z (Z.of_nat (length keywords) * 2)) 1
  ∧ (0 <= relevanceScore keywords doc)%Q
  ∧ (relevanceScore keywords doc <= 1)%Q
  ∧ ((∀ term, term ∈ keywords →
              includes (toLowerCase (TrainingDocument.title doc)) term = true) →
     (relevanceScore keywords doc == 1)%Q).
Proof.
  intros Hne.
  assert (0 < Z.of_nat (length keywords) * 2) as Hpos.
  { destruct keywords; [done|]. simpl length. lia. }
  unfold relevanceScore. cbv zeta. rewrite countMatches_totalPoints.
  split; [done|]. split; [|split].
  - apply Q.min_glb; [|done].
    apply Qle_shift_div_l; [by apply inject_Z_pos|].
    rewrite Qmult_0_l. rewrite <- (Zle_Qle 0). apply totalPoints_nonneg.
  - apply Q.le_min_r.
  - intros Hall. apply Q.min_r.
    apply Qle_shift_div_l; [by apply inject_Z_pos|].
    rewrite Qmult_1_l. rewrite <- Zle_Qle. by apply totalPoints_title.
Qed.

(** ** KnowledgeRetriever *)

Lemma substring0_length (n : nat) (s : string) :
  (String.length (substring0 n s) ≤ n)%nat.
Proof.
  revert s. induction n as [|n IH]; intros [|c s]; simpl; try lia.
  specialize (IH s). lia.
Qed.

Lemma createdAtDesc_total (a b : TrainingDocument.t) :
  createdAtDesc a b = true ∨ createdAtDesc b a = true.
Proof. unfold createdAtDesc. rewrite !Z.leb_le. lia. Qed.

Lemma createdAtDesc_trans (a b c : TrainingDocument.t) :
  createdAtDesc a b = true → createdAtDesc b c = true → createdAtDesc a c = true.
Proof. unfold createdAtDesc. rewrite !Z.leb_le. lia. Qed.

Lemma byScore_before (x y : Q) : Qle_bool (y - x) 0 = true ↔ (y <= x)%Q.
Proof. rewrite Qle_bool_iff. split; intros H; lra. Qed.

(** What [findManyDocuments] returns: the [n] most recent rows that
    satisfy the condition (all of them when there are fewer), the most
    recent first. *)
Lemma findManyDocuments_recent (where_ : TrainingDocument.t → bool) (n : nat)
    (table : list TrainingDocument.t) :
  ∃ rest,
    List.filter where_ table ≡ₚ findManyDocuments where_ n table ++ rest
    ∧ length (findManyDocuments where_ n table)
      = (n `min` length (List.filter where_ table))%nat
    ∧ StronglySorted moreRecent (findManyDocuments where_ n table)
    ∧ (∀ d r, d ∈ findManyDocuments where_ n table → r ∈ rest → moreRecent d r).
Proof.
  unfold findManyDocuments.
  set (sorted := stableSort createdAtDesc (List.filter where_ table)).
  assert (StronglySorted moreRecent (take n sorted ++ drop n sorted)) as Hs.
  { rewrite take_drop.
    eapply StronglySorted_mono;
      [|apply (stableSort_sorted createdAtDesc);
        [apply createdAtDesc_total|apply createdAtDesc_trans]].
    intros x y H. unfold createdAtDesc in H. by apply Z.leb_le in H. }
  exists (drop n sorted). split; [|split; [|split]].
  - rewrite take_drop. unfold sorted. by rewrite stableSort_perm.
  - rewrite length_take. unfold sorted. by rewrite stableSort_length.
  - by eapply StronglySorted_app_1_l.
  - intros d r Hd Hr. by eapply StronglySorted_app_1_elem_of.
Qed.

(** C9: on both paths at most 5 results, and no excerpt longer than 1500
    characters. *)
Theorem searchKnowledgeBase_bounded (table : list TrainingDocument.t) (query : string) :
  (length (searchKnowledgeBase table query) ≤ 5)%nat
  ∧ Forall (λ result, (String.length (SearchResult.content result) ≤ 1500)%nat)
           (searchKnowledgeBase table query).
Proof.
  unfold searchKnowledgeBase. cbv zeta. case_bool_decide as Hk.
  - split.
    + rewrite length_fmap. unfold findManyDocuments. rewrite length_take. lia.
    + apply Forall_fmap, Forall_forall. intros doc _.
      unfold generalResult, compose, SearchResult.content.
      pose proof (substring0_length 1000 (TrainingDocument.content doc)). lia.
  - unfold sortWith. split.
    + rewrite stableSort_length, length_fmap. unfold findManyDocuments.
      rewrite length_take. lia.
    + apply stableSort_Forall, Forall_fmap, Forall_forall. intros doc _.
      unfold scoredResult, compose, SearchResult.content.
      apply substring0_length.
Qed.

Lemma substring0_prefix (n : nat) :
  ∀ s, ∃ tail,
    s = substring0 n s +:+ tail
    ∧ String.length (substring0 n s) = (n `min` String.length s)%nat.
Proof.
  induction n as [|n IH]; intros [|c s]; simpl.
  - by exists EmptyString.
  - by exists (String c s).
  - by exists EmptyString.
  - destruct (IH s) as (tail & Hs & Hlen). exists tail.
    split; [|by rewrite Hlen].
    change (String c s = String c (substring0 n s +:+ tail)). by rewrite <- Hs.
Qed.

(** C6: a query without usable terms gets the 3 most recently created
    active documents (all of them when there are fewer), the most recent
    first: each result has the title and the type of its document, the
    first 1000 characters of its content and the score 0.5; the result is
    not empty when an active document exists. *)
Theorem searchKnowledgeBase_fallback (table : list TrainingDocument.t) (query : string) :
  extractKeywords query = [] →
  ∃ documents rest,
    List.filter TrainingDocument.isActive table ≡ₚ documents ++ rest
    ∧ length documents
      = (3 `min` length (List.filter TrainingDocument.isActive table))%nat
    ∧ StronglySorted moreRecent documents
    ∧ (∀ d r, d ∈ documents → r ∈ rest → moreRecent d r)
    ∧ Forall2 (λ result doc,
                 SearchResult.title result = TrainingDocument.title doc
                 ∧ SearchResult.type result
                   = documentTypeName (TrainingDocument.documentType doc)
                 ∧ (∃ tail,
                      TrainingDocument.content doc = SearchResult.content result +:+ tail)
                 ∧ String.length (SearchResult.content result)
                   = (1000 `min` String.length (TrainingDocument.content doc))%nat
                 ∧ (SearchResult.score result == 0.5)%Q)
              (searchKnowledgeBase table query) documents
    ∧ ((∃ doc, doc ∈ table ∧ TrainingDocument.isActive doc = true) →
       searchKnowledgeBase table query ≠ []).
Proof.
  intros Hk. unfold searchKnowledgeBase. rewrite Hk. cbv zeta.
  rewrite bool_decide_eq_true_2 by done.
  destruct (findManyDocuments_recent TrainingDocument.isActive 3 table)
    as (rest & Hperm & Hlen & Hsorted & Hrecent).
  exists (findManyDocuments TrainingDocument.isActive 3 table), rest.
  split; [done|]. split; [done|]. split; [done|]. split; [done|]. split.
  - apply Forall2_fmap_l, Forall_Forall2_diag, Forall_forall. intros doc _.
    unfold generalResult. cbn [SearchResult.title SearchResult.type SearchResult.content
                               SearchResult.score].
    destruct (substring0_prefix 1000 (TrainingDocument.content doc)) as (tail & Htail & Hlen').
    split; [done|]. split; [done|]. split; [by exists tail|]. split; [done|reflexivity].
  - intros (doc & Hin & Hactive) Hnil.
    apply (f_equal length) in Hnil. rewrite length_fmap, Hlen in Hnil.
    assert (doc ∈ List.filter TrainingDocument.isActive table) as Hf.
    { apply list_elem_of_In, filter_In. split; [by apply list_elem_of_In|done]. }
    destruct (List.filter TrainingDocument.isActive table); [by apply elem_of_nil in Hf|].
    simpl in Hnil. lia.
Qed.

(** The condition of the keyword query, for keywords as [extractKeywords]
    gives them: some keyword is a substring of the lowercased title or of
    the lowercased content. *)
Lemma matchesAny_terms (keywords : list string) (doc : TrainingDocument.t) :
  Forall (λ word, allChars isTokenChar word = true) keywords →
  matchesAny keywords doc = true
  ↔ ∃ term, term ∈ keywords
            ∧ (includes (toLowerCase (TrainingDocument.title doc)) term = true
               ∨ includes (toLowerCase (TrainingDocument.content doc)) term = true).
Proof.
  intros Hchars. rewrite Forall_forall in Hchars.
  unfold matchesAny, containsInsensitive. rewrite existsb_exists. split.
  - intros (term & Hin & Hterm). apply list_elem_of_In in Hin.
    exists term. split; [done|].
    rewrite (token_lowercase term) in Hterm by (by apply Hchars).
    apply orb_true_iff in Hterm. tauto.
  - intros (term & Hin & Hterm). exists term.
    split; [by apply list_elem_of_In|].
    rewrite (token_lowercase term) by (by apply Hchars).
    apply orb_true_iff. tauto.
Qed.

(** What the keyword query does: with at least one usable term, the
    result is made of the 5 most recently created active documents that
    contain a term in title or body (all of them when there are fewer),
    each scored, ordered by score descending and, among equal scores, by
    recency descending.  The cut to 5 comes before the scores. *)
Theorem searchKnowledgeBase_ranked (table : list TrainingDocument.t) (query : string) :
  extractKeywords query ≠ [] →
  let keywords := extractKeywords query in
  let matching :=
    List.filter (λ doc, TrainingDocument.isActive doc && matchesAny keywords doc) table in
  (∀ doc, doc ∈ matching
          ↔ doc ∈ table ∧ TrainingDocument.isActive doc = true
            ∧ ∃ term, term ∈ keywords
                ∧ (includes (toLowerCase (TrainingDocument.title doc)) term = true
                   ∨ includes (toLowerCase (TrainingDocument.content doc)) term = true))
  ∧ ∃ documents rest,
      searchKnowledgeBase table query = scoredResult keywords <$> documents
      ∧ matching ≡ₚ documents ++ rest
      ∧ length documents = (5 `min` length matching)%nat
      ∧ (∀ d r, d ∈ documents → r ∈ rest → moreRecent d r)
      ∧ StronglySorted (rankedBefore keywords) documents.
Proof.
  intros Hk keywords matching. split.
  { intros doc. unfold matching.
    rewrite list_elem_of_In, filter_In, <- list_elem_of_In, andb_true_iff.
    rewrite (matchesAny_terms keywords doc (extractKeywords_chars query)).
    tauto. }
  unfold searchKnowledgeBase. cbv zeta. fold keywords.
  rewrite bool_decide_eq_false_2
    by (intros Hl; apply Hk; by apply length_zero_iff_nil).
  set (where_ := λ doc, TrainingDocument.isActive doc && matchesAny keywords doc).
  destruct (findManyDocuments_recent where_ 5 table)
    as (rest & Hperm & Hlen & Hsorted & Hrecent).
  set (fetched := findManyDocuments where_ 5 table) in *.
  set (before := λ a b : TrainingDocument.t,
         Qle_bool (relevanceScore keywords b - relevanceScore keywords a) 0).
  exists (stableSort before fetched), rest.
  split; [|split; [|split; [|split]]].
  - unfold sortWith. by apply stableSort_fmap.
  - by rewrite stableSort_perm.
  - by rewrite stableSort_length.
  - intros d r Hd Hr. apply Hrecent; [|done]. by apply stableSort_elem_of in Hd.
  - eapply StronglySorted_mono; [|apply (stableSort_keeps before moreRecent)]; try done.
    + intros x y [Hxy Hyx]. unfold before in *. apply byScore_before in Hxy.
      destruct (Qlt_le_dec (relevanceScore keywords y) (relevanceScore keywords x))
        as [Hlt|Hle]; [by left|right].
      split; [lra|]. apply Hyx. by apply byScore_before.
    + intros x y. unfold before. rewrite !byScore_before.
      destruct (Qlt_le_dec (relevanceScore keywords y) (relevanceScore keywords x));
        [left|right]; lra.
    + intros x y z. unfold before. rewrite !byScore_before. lra.
Qed.

Lemma relevanceScore_formula_witness :
  ["accommodation"; "guidelines"] ≠ []
  ∧ (0 <= relevanceScore ["accommodation"; "guidelines"] accommodationGuidelines)%Q
  ∧ (relevanceScore ["accommodation"; "guidelines"] accommodationGuidelines == 1)%Q.
Proof.
  destruct (relevanceScore_formula accommodationGuidelines
              ["accommodation"; "guidelines"]) as (_ & Hlow & _ & Hone).
  - discriminate.
  - split; [discriminate|]. split; [exact Hlow|].
    apply Hone. intros term Hterm.
    apply elem_of_cons in Hterm as [->|Hterm]; [vm_compute; reflexivity|].
    apply elem_of_cons in Hterm as [->|Hterm]; [vm_compute; reflexivity|].
    by apply elem_of_nil in Hterm.
Defined.

Lemma searchKnowledgeBase_fallback_witness :
  extractKeywords "and the of" = []
  ∧ ∃ documents,
      length documents = 3%nat
      ∧ SearchResult.title <$> searchKnowledgeBase injuryCorpus "and the of"
        = TrainingDocument.title <$> documents
      ∧ TrainingDocument.title <$> documents = ["Contacts"; "Forms"; "Restrictions"].
Proof.
  assert (extractKeywords "and the of" = []) as Hk by (vm_compute; reflexivity).
  split; [exact Hk|].
  destruct (searchKnowledgeBase_fallback injuryCorpus "and the of" Hk)
    as (documents & rest & _ & Hlen & _ & _ & Hfields & _).
  exists documents. split; [exact Hlen|].
  assert (SearchResult.title <$> searchKnowledgeBase injuryCorpus "and the of"
          = TrainingDocument.title <$> documents) as Htitles.
  { clear Hlen. induction Hfields as [|result doc results docs [Htitle _] _ IH];
      [reflexivity|].
    rewrite !fmap_cons, Htitle, IH. reflexivity. }
  split; [exact Htitles|]. rewrite <- Htitles. vm_compute. reflexivity.
Defined.

Lemma searchKnowledgeBase_ranked_witness :
  extractKeywords "injury" ≠ []
  ∧ ∃ documents,
      searchKnowledgeBase injuryCorpus "injury"
      = scoredResult (extractKeywords "injury") <$> documents
      ∧ length documents = 5%nat
      ∧ StronglySorted (rankedBefore (extractKeywords "injury")) documents.
Proof.
  assert (extractKeywords "injury" ≠ []) as Hk by (vm_compute; discriminate).
  split; [exact Hk|].
  destruct (searchKnowledgeBase_ranked injuryCorpus "injury" Hk)
    as (_ & documents & rest & Hres & _ & Hlen & _ & Hsorted).
  exists documents. split; [exact Hres|]. split; [exact Hlen|]. exact Hsorted.
Defined.

(** C1: the ranking misses the best match.  Of the six active documents
    of the sample table that contain the term [injury], the oldest is the
    only one that has it in its title too: its score is 1, it heads the
    ranking of all matches, and it is not among the five results, which
    are the five most recent matches, each with score 1/2. *)
Theorem searchKnowledgeBase_misses_best_match :
  extractKeywords "injury" = ["injury"]
  ∧ SearchResult.title <$> searchKnowledgeBase injuryCorpus "injury"
    = ["Contacts"; "Forms"; "Restrictions"; "Schedules"; "Bridge assignments"]
  ∧ Forall (λ result, (SearchResult.score result == 1 # 2)%Q)
           (searchKnowledgeBase injuryCorpus "injury")
  ∧ (∃ doc,
       doc ∈ injuryCorpus
       ∧ TrainingDocument.isActive doc = true
       ∧ TrainingDocument.title doc = "Injury leave"
       ∧ includes (toLowerCase (TrainingDocument.title doc)) "injury" = true
       ∧ includes (toLowerCase (TrainingDocument.content doc)) "injury" = true
       ∧ totalPoints ["injury"] doc = 3
       ∧ (Qmin (inject_Z (totalPoints ["injury"] doc) / inject_Z (1 * 2)) 1 == 1)%Q)
  ∧ head (SearchResult.title <$> specTopFive injuryCorpus (extractKeywords "injury"))
    = Some "Injury leave"
  ∧ searchKnowledgeBase injuryCorpus "injury"
    ≠ specTopFive injuryCorpus (extractKeywords "injury").
Proof.
  split; [vm_compute; reflexivity|].
  split; [vm_compute; reflexivity|].
  split.
  { apply Forall_forall. intros result Hresult.
    assert (SearchResult.score result
            ∈ SearchResult.score <$> searchKnowledgeBase injuryCorpus "injury") as Hscore
      by (by apply list_elem_of_fmap_2).
    assert (SearchResult.score <$> searchKnowledgeBase injuryCorpus "injury"
            = [1 # 2; 1 # 2; 1 # 2; 1 # 2; 1 # 2]%Q) as Hscores
      by (vm_compute; reflexivity).
    rewrite Hscores in Hscore.
    repeat (apply elem_of_cons in Hscore as [->|Hscore]; [reflexivity|]).
    by apply elem_of_nil in Hscore. }
  split.
  { exists (sampleDocument "d1" "Injury leave" "Leave after an injury at work." 1).
    split; [by left|]. repeat split; vm_compute; reflexivity. }
  split; [vm_compute; reflexivity|].
  intros H. apply (f_equal (fmap SearchResult.title)) in H.
  vm_compute in H. discriminate.
Qed.

(** ** Runs of [generateChatbotResponse] *)

Lemma newEvents_refl (w : World) : newEvents w w = [].
Proof. unfold newEvents. apply drop_all. Qed.

Lemma newEvents_app (w w' : World) (events : list Event) :
  log w' = log w ++ events → newEvents w w' = events.
Proof. intros H. unfold newEvents. rewrite H. apply drop_app_length. Qed.

(** The run, case by case: the credential check, the lookup of the
    conversation, the search, and the one call of the provider. *)
Lemma generateChatbotResponse_run (ext : Externals)
    (userId conversationId userMessage : string) (w : World) :
  generateChatbotResponse ext userId conversationId userMessage w
  = if falsy (ANTHROPIC_API_KEY ext) then (Threw (Error notConfiguredMessage), w)
    else
      let w1 := logEvent (FindConversation conversationId) w in
      match chatbotConversation w !! conversationId with
      | None => (Threw (Error notFoundMessage), w1)
      | Some conversation =>
          if negb (bool_decide (ChatbotConversation.userId conversation = userId))
          then (Threw (Error notFoundMessage), w1)
          else
            let searchResults := searchKnowledgeBase (trainingDocument w) userMessage in
            let request :=
              buildRequest searchResults
                           (messagesOf conversationId 10 (chatbotMessage w)) userMessage in
            (match messagesCreate ext request with
             | Responds [] => Threw (Error failedMessage)
             | Responds (TextBlock text :: _) =>
                 Returned {| GenerateResult.response := text;
                             GenerateResult.sources := searchResults |}
             | Responds (OtherBlock _ :: _) =>
                 Returned {| GenerateResult.response := "";
                             GenerateResult.sources := searchResults |}
             | Rejects error => Threw (classifyProviderError error)
             end,
             logEvent (CallProvider request) (logEvent FindDocuments w1))
      end.
Proof.
  unfold generateChatbotResponse.
  destruct (falsy (ANTHROPIC_API_KEY ext)); [reflexivity|].
  unfold bind at 1, findConversation. cbv zeta.
  destruct (chatbotConversation w !! conversationId) as [conversation|];
    [|reflexivity].
  rewrite fmap_Some_2 with (x := conversation) by reflexivity. cbv beta iota.
  destruct (negb (bool_decide (ChatbotConversation.userId conversation = userId)));
    [reflexivity|].
  unfold bind, tryCatch, searchKnowledgeBaseM, callProvider, throw, ret.
  cbn [trainingDocument chatbotMessage logEvent].
  destruct (messagesCreate ext _) as [[|[text|type] rest]|error]; reflexivity.
Qed.

Lemma logged_three (w : World) (a b c : Event) :
  newEvents w (logEvent c (logEvent b (logEvent a w))) = [a; b; c].
Proof. apply newEvents_app. simpl. by rewrite <- !app_assoc. Qed.

Lemma logged_one (w : World) (a : Event) : newEvents w (logEvent a w) = [a].
Proof. by apply newEvents_app. Qed.

(** A run that calls the provider calls it once, after the lookup and the
    search, with the request built from the first stored messages; what
    it returns is decided by the provider's answer. *)
Lemma generateChatbotResponse_called (ext : Externals)
    (userId conversationId userMessage : string) (w : World)
    (request : MessagesRequest.t) :
  let run := generateChatbotResponse ext userId conversationId userMessage w in
  let searchResults := searchKnowledgeBase (trainingDocument w) userMessage in
  CallProvider request ∈ newEvents w (snd run) →
  request = buildRequest searchResults
                         (messagesOf conversationId 10 (chatbotMessage w)) userMessage
  ∧ newEvents w (snd run) = [FindConversation conversationId; FindDocuments; CallProvider request]
  ∧ chatbotMessage (snd run) = chatbotMessage w
  ∧ fst run = match messagesCreate ext request with
            | Responds [] => Threw (Error failedMessage)
            | Responds (TextBlock text :: _) =>
                Returned {| GenerateResult.response := text;
                            GenerateResult.sources := searchResults |}
            | Responds (OtherBlock _ :: _) =>
                Returned {| GenerateResult.response := "";
                            GenerateResult.sources := searchResults |}
            | Rejects error => Threw (classifyProviderError error)
            end.
Proof.
  intros run searchResults. subst run.
  rewrite generateChatbotResponse_run. cbv zeta.
  destruct (falsy (ANTHROPIC_API_KEY ext)).
  { simpl. rewrite newEvents_refl. intros H. by apply elem_of_nil in H. }
  assert (∀ out : Outcome GenerateResult.t,
            CallProvider request
              ∈ newEvents w (snd (out, logEvent (FindConversation conversationId) w)) → False)
    as Hnot.
  { intros out. simpl. rewrite logged_one. intros H.
    apply list_elem_of_singleton in H. discriminate. }
  destruct (chatbotConversation w !! conversationId) as [conversation|];
    [|intros H; by destruct (Hnot _ H)].
  destruct (negb (bool_decide (ChatbotConversation.userId conversation = userId)));
    [intros H; by destruct (Hnot _ H)|].
  cbn [fst snd]. rewrite logged_three. intros H.
  repeat (apply elem_of_cons in H as [H|H]; [try discriminate|]);
    [|by apply elem_of_nil in H].
  injection H as ->. done.
Qed.

(** C10 (as amended): a missing conversation and a conversation of another
    owner fail alike, with 'Conversation not found' when the credential is
    configured and with the configuration error when it is not; the
    document store is not searched and the provider is not called. *)
Theorem conversation_not_found_uniform (ext : Externals)
    (userId conversationId userMessage : string) (w : World) :
  (chatbotConversation w !! conversationId = None
   ∨ ∃ conversation,
       chatbotConversation w !! conversationId = Some conversation
       ∧ ChatbotConversation.userId conversation ≠ userId) →
  let run := generateChatbotResponse ext userId conversationId userMessage w in
  fst run = Threw (Error (if falsy (ANTHROPIC_API_KEY ext)
                        then notConfiguredMessage else notFoundMessage))
  ∧ newEvents w (snd run)
    = (if falsy (ANTHROPIC_API_KEY ext) then [] else [FindConversation conversationId])
  ∧ (FindDocuments ∉ newEvents w (snd run))
  ∧ (∀ request, CallProvider request ∉ newEvents w (snd run)).
Proof.
  intros Hcase run. subst run. rewrite generateChatbotResponse_run. cbv zeta.
  destruct (falsy (ANTHROPIC_API_KEY ext)).
  { simpl. rewrite newEvents_refl. repeat split; try done.
    - intros H. by apply elem_of_nil in H.
    - intros request H. by apply elem_of_nil in H. }
  assert (∀ out : Outcome GenerateResult.t,
            out = Threw (Error notFoundMessage) →
            let run := (out, logEvent (FindConversation conversationId) w) in
            fst run = Threw (Error notFoundMessage)
            ∧ newEvents w (snd run) = [FindConversation conversationId]
            ∧ (FindDocuments ∉ newEvents w (snd run))
            ∧ (∀ request, CallProvider request ∉ newEvents w (snd run))) as Hrun.
  { intros out -> run. subst run. simpl. rewrite logged_one. repeat split.
    - intros H. apply list_elem_of_singleton in H. discriminate.
    - intros request H. apply list_elem_of_singleton in H. discriminate. }
  destruct Hcase as [->|(conversation & -> & Howner)]; [by apply Hrun|].
  rewrite bool_decide_eq_false_2 by done. by apply Hrun.
Qed.

Lemma conversation_not_found_uniform_witness :
  chatbotConversation sampleWorld !! "no-such-conversation" = None
  ∧ fst (generateChatbotResponse
           (sampleExternals (Some "sk-key") (Responds [TextBlock "hello"]) false)
           "u1" "no-such-conversation" "What about injury?" sampleWorld)
    = Threw (Error notFoundMessage).
Proof.
  assert (chatbotConversation sampleWorld !! "no-such-conversation" = None) as Hnone
    by (vm_compute; reflexivity).
  split; [exact Hnone|].
  apply (conversation_not_found_uniform
           (sampleExternals (Some "sk-key") (Responds [TextBlock "hello"]) false)
           "u1" "no-such-conversation" "What about injury?" sampleWorld).
  left. exact Hnone.
Defined.

(** C10 (as stated) fails: without the credential the error of a call for
    a missing conversation is the configuration error. *)
Lemma conversation_not_found_needs_credential :
  chatbotConversation sampleWorld !! "no-such-conversation" = None
  ∧ fst (generateChatbotResponse
           (sampleExternals None (Responds [TextBlock "hello"]) false)
           "u1" "no-such-conversation" "What about injury?" sampleWorld)
    = Threw (Error notConfiguredMessage)
  ∧ Error notConfiguredMessage ≠ Error notFoundMessage.
Proof. split; [|split]; [vm_compute; reflexivity..|discriminate]. Qed.

(** ** Runs of the route handler *)

Lemma providerCalls_app (l k : list Event) :
  providerCalls (l ++ k) = (providerCalls l + providerCalls k)%nat.
Proof. unfold providerCalls. by rewrite List.filter_app, length_app. Qed.

Lemma providerCalls_0 (l : list Event) (request : MessagesRequest.t) :
  providerCalls l = 0%nat → CallProvider request ∉ l.
Proof.
  unfold providerCalls. intros Hl Hin.
  assert (CallProvider request ∈ List.filter isCallProvider l) as Hf.
  { apply list_elem_of_In, filter_In. split; [by apply list_elem_of_In|done]. }
  destruct (List.filter isCallProvider l); [by apply elem_of_nil in Hf|done].
Qed.

Lemma rateLimit_quiet (ext : Externals) (identifier : string) (maxRequests windowMs : Z)
    (w : World) :
  ∃ canProceed w',
    rateLimit ext identifier maxRequests windowMs w = (Returned canProceed, w')
    ∧ log w' = log w
    ∧ chatbotMessage w' = chatbotMessage w.
Proof.
  unfold rateLimit. cbv zeta.
  destruct (rateLimitMap w !! identifier) as [r|]; [|by eexists _, _].
  destruct (RateRecord.resetTime r <? dateNow ext); [by eexists _, _|].
  destruct (maxRequests <=? RateRecord.count r); by eexists _, _.
Qed.

Lemma messageSchemaParse_cases (ext : Externals) (data : MessageData.t) (w : World) :
  messageSchemaParse ext data w = (Returned data, w)
  ∨ ∃ first rest, messageSchemaParse ext data w = (Threw (ZodError first rest), w).
Proof.
  unfold messageSchemaParse. cbv zeta.
  destruct (_ ++ _) as [|first rest]; [by left|right; by eexists _, _].
Qed.

(** What a run of [generateChatbotResponse] adds to the log and how it
    ends: without a call of the provider it throws; with the call it
    throws when the provider rejects or answers without a block, and
    returns when the answer has a block.  The stored messages are not
    touched. *)
Lemma generateChatbotResponse_shape (ext : Externals)
    (userId conversationId userMessage : string) (w : World) :
  ∃ out w',
    generateChatbotResponse ext userId conversationId userMessage w = (out, w')
    ∧ chatbotMessage w' = chatbotMessage w
    ∧ ((∃ events message,
          log w' = log w ++ events ∧ providerCalls events = 0%nat
          ∧ out = Threw (Error message))
       ∨ (∃ request,
            log w' = log w ++ [FindConversation conversationId; FindDocuments;
                               CallProvider request]
            ∧ (((messagesCreate ext request = Responds []
                 ∨ ∃ error, messagesCreate ext request = Rejects error)
                ∧ ∃ message, out = Threw (Error message))
               ∨ (∃ block rest result,
                    messagesCreate ext request = Responds (block :: rest)
                    ∧ out = Returned result)))).
Proof.
  rewrite generateChatbotResponse_run. cbv zeta.
  destruct (falsy (ANTHROPIC_API_KEY ext)).
  { eexists _, _. split; [done|]. split; [done|]. left.
    exists [], notConfiguredMessage. by rewrite app_nil_r. }
  assert (∃ out w',
            (Threw (Error notFoundMessage) : Outcome GenerateResult.t,
             logEvent (FindConversation conversationId) w) = (out, w')
            ∧ chatbotMessage w' = chatbotMessage w
            ∧ ((∃ events message,
                  log w' = log w ++ events ∧ providerCalls events = 0%nat
                  ∧ out = Threw (Error message))
               ∨ (∃ request,
                    log w' = log w ++ [FindConversation conversationId; FindDocuments;
                                       CallProvider request]
                    ∧ (((messagesCreate ext request = Responds []
                         ∨ ∃ error, messagesCreate ext request = Rejects error)
                        ∧ ∃ message, out = Threw (Error message))
                       ∨ (∃ block rest result,
                            messagesCreate ext request = Responds (block :: rest)
                            ∧ out = Returned result))))) as Hnot.
  { eexists _, _. split; [done|]. split; [done|]. left.
    by exists [FindConversation conversationId], notFoundMessage. }
  destruct (chatbotConversation w !! conversationId) as [conversation|]; [|done].
  destruct (negb (bool_decide (ChatbotConversation.userId conversation = userId)));
    [done|].
  clear Hnot. eexists _, _. split; [done|]. split; [done|]. right.
  eexists. split; [simpl; by rewrite <- !app_assoc|].
  destruct (messagesCreate ext _) as [[|[text|type] rest]|error].
  - left. split; [by left|by eexists].
  - right. by eexists _, _, _.
  - right. by eexists _, _, _.
  - left. split; [right; by eexists|].
    unfold classifyProviderError. destruct (statusOf error) as [status|]; [|by eexists].
    destruct (status =? 401); [by eexists|].
    destruct (status =? 429); [by eexists|].
    destruct (500 <=? status); by eexists.
Qed.

Lemma POST_run (ext : Externals) (session : option SessionUser.t)
    (reqJson : option MessageData.t) (w : World) :
  ∃ response w',
    POST ext session reqJson w = (Returned response, w')
    ∧ HandlerRun ext w w' response.
Proof.
  unfold POST, tryCatch.
  destruct session as [sessionUser|].
  2:{ eexists _, _. split; [done|]. apply NotGenerated; [|done].
      by rewrite newEvents_refl. }
  unfold bind at 1.
  destruct (rateLimit_quiet ext ("chatbot:" +:+ SessionUser.id sessionUser) 30 60000 w)
    as (canProceed & w1 & -> & Hlog1 & Hmsg1).
  assert (∀ events w', log w' = log w1 ++ events → newEvents w w' = events) as Hnew.
  { intros events w' H. apply newEvents_app. by rewrite <- Hlog1. }
  destruct canProceed; cbv beta iota delta [negb].
  2:{ eexists _, _. split; [done|]. apply NotGenerated; [|done].
      by rewrite (Hnew [] w1) by (by rewrite app_nil_r). }
  unfold bind at 1.
  destruct reqJson as [data|].
  2:{ eexists _, _. split; [done|]. apply NotGenerated; [|done].
      by rewrite (Hnew [] w1) by (by rewrite app_nil_r). }
  unfold ret at 1. cbv beta iota. unfold bind at 1.
  destruct (messageSchemaParse_cases ext data w1) as [->|(first & rest & ->)].
  2:{ eexists _, _. split; [done|]. apply NotGenerated; [|done].
      by rewrite (Hnew [] w1) by (by rewrite app_nil_r). }
  unfold bind at 1.
  assert (∃ conversationId w2 events,
            (if falsy (MessageData.conversationId data)
             then createConversation ext (SessionUser.id sessionUser) None
             else ret (default "" (MessageData.conversationId data))) w1
            = (Returned conversationId, w2)
            ∧ log w2 = log w1 ++ events
            ∧ providerCalls events = 0%nat
            ∧ chatbotMessage w2 = chatbotMessage w1)
    as (conversationId & w2 & events & -> & Hlog2 & Hcalls2 & Hmsg2).
  { destruct (falsy (MessageData.conversationId data)).
    - eexists _, _, [CreateConversation (SessionUser.id sessionUser)]. by split.
    - eexists _, _, []. split; [done|]. by rewrite app_nil_r. }
  unfold bind at 1.
  destruct (generateChatbotResponse_shape ext (SessionUser.id sessionUser)
              conversationId (MessageData.message data) w2)
    as (out & w3 & -> & Hmsg3 & Hshape).
  destruct Hshape as [(events3 & message & Hlog3 & Hcalls3 & ->)
                     |(request & Hlog3 & [[Hfail [message ->]]
                                         |(block & rest & result & Hok & ->)])].
  - eexists _, _. split; [done|]. apply NotGenerated; [|congruence].
    rewrite (Hnew (events ++ events3) w3) by (by rewrite Hlog3, Hlog2, app_assoc).
    rewrite providerCalls_app. lia.
  - eexists _, _. split; [done|].
    apply (GenerationFailed ext w w3 _
             (events ++ [FindConversation conversationId; FindDocuments]) request);
      [|by rewrite providerCalls_app, Hcalls2|done|congruence|done].
    apply Hnew. rewrite Hlog3, Hlog2. by rewrite <- !app_assoc.
  - unfold bind at 1, saveMessages.
    destruct (createManyFails ext) eqn:Hstore.
    + eexists _, _. split; [done|].
      apply (AppendFailed ext w _ _
               (events ++ [FindConversation conversationId; FindDocuments])
               request conversationId block rest);
        [|by rewrite providerCalls_app, Hcalls2|done|done|simpl; congruence|done].
      apply Hnew. simpl. rewrite Hlog3, Hlog2. by rewrite <- !app_assoc.
    + eexists _, _. split; [done|].
      eapply (Replied ext w _ _
               (events ++ [FindConversation conversationId; FindDocuments])
               request conversationId block rest);
        [|by rewrite providerCalls_app, Hcalls2|done|done| |done].
      * apply Hnew. simpl. rewrite Hlog3, Hlog2. by rewrite <- !app_assoc.
      * simpl. by rewrite Hmsg3, Hmsg2, Hmsg1.
Qed.

(** ** ResponseGenerator: failures and replies *)

(** C3 (as amended): a rejected call of the provider is classified where
    it happens, by the status of the rejection: 401 as invalid
    credentials, 429 as the rate limit of the provider, 500 and above as
    an unavailable provider, and everything else as the unknown
    generation failure, a rejection without a status (a timeout, a failed
    connection) included. *)
Theorem provider_failure_classified
    (ext : Externals) (userId conversationId userMessage : string) (w : World)
    (request : MessagesRequest.t) (error : Thrown) :
  messagesCreate ext request = Rejects error →
  let generated := generateChatbotResponse ext userId conversationId userMessage w in
  (CallProvider request ∈ newEvents w (snd generated) →
   fst generated = Threw (classifyProviderError error))
  ∧ (statusOf error = Some 401 →
     classifyProviderError error = Error invalidKeyMessage
     ∧ kindOf (classifyProviderError error) = Some InvalidCredentials)
  ∧ (statusOf error = Some 429 →
     classifyProviderError error = Error rateLimitedMessage
     ∧ kindOf (classifyProviderError error) = Some ProviderRateLimited)
  ∧ (∀ status, statusOf error = Some status → 500 ≤ status →
     classifyProviderError error = Error unavailableMessage
     ∧ kindOf (classifyProviderError error) = Some ProviderUnavailable)
  ∧ ((statusOf error = None
      ∨ ∃ status, statusOf error = Some status
                  ∧ status < 500 ∧ status ≠ 401 ∧ status ≠ 429) →
     classifyProviderError error = Error failedMessage
     ∧ kindOf (classifyProviderError error) = Some UnknownGenerationFailure).
Proof.
  intros Hrejects generated.
  split; [|split; [|split; [|split]]].
  - intros Hcalled.
    destruct (generateChatbotResponse_called ext userId conversationId userMessage
                w request Hcalled) as (_ & _ & _ & Hout).
    subst generated. rewrite Hout. by rewrite Hrejects.
  - unfold classifyProviderError. by intros ->.
  - unfold classifyProviderError. by intros ->.
  - unfold classifyProviderError. intros status -> Hstatus.
    destruct (status =? 401) eqn:H401; [lia|].
    destruct (status =? 429) eqn:H429; [lia|].
    destruct (500 <=? status) eqn:H500; [done|lia].
  - unfold classifyProviderError.
    intros [->|(status & -> & Hlow & H401 & H429)]; [done|].
    destruct (status =? 401) eqn:E401; [lia|].
    destruct (status =? 429) eqn:E429; [lia|].
    destruct (500 <=? status) eqn:E500; [lia|done].
Qed.

Lemma provider_failure_classified_witness :
  let ext := sampleExternals (Some "sk-key") (Rejects (APIError (Some 429))) false in
  let request :=
    buildRequest (searchKnowledgeBase injuryCorpus "What about injury?")
                 (messagesOf sampleConversationId 10 elevenTurns) "What about injury?" in
  messagesCreate ext request = Rejects (APIError (Some 429))
  ∧ fst (generateChatbotResponse ext "u1" sampleConversationId "What about injury?"
                                 sampleWorld)
    = Threw (Error rateLimitedMessage)
  ∧ kindOf (classifyProviderError (APIError (Some 429))) = Some ProviderRateLimited.
Proof.
  intros ext request.
  assert (messagesCreate ext request = Rejects (APIError (Some 429))) as Hrejects
    by reflexivity.
  destruct (provider_failure_classified
              ext "u1" sampleConversationId "What about injury?" sampleWorld
              request (APIError (Some 429)) Hrejects)
    as (Hgenerated & _ & Hlimited & _).
  split; [exact Hrejects|]. split.
  - apply Hgenerated. vm_compute. right. right. left.
  - apply Hlimited. reflexivity.
Defined.

(** C3 (as stated) fails: a call that times out is rejected without a
    status; it is classified as the unknown generation failure, not as an
    unavailable provider. *)
Lemma provider_timeout_not_unavailable :
  let ext := sampleExternals (Some "sk-key") (Rejects (APIError None)) false in
  statusOf (APIError None) = None
  ∧ fst (generateChatbotResponse ext "u1" sampleConversationId "What about injury?"
                                 sampleWorld)
    = Threw (Error failedMessage)
  ∧ kindOf (Error failedMessage) = Some UnknownGenerationFailure
  ∧ kindOf (Error failedMessage) ≠ Some ProviderUnavailable.
Proof. repeat split; try (vm_compute; reflexivity). vm_compute. discriminate. Qed.

(** The route handler does not pass the classification on: whatever the
    kind of the failure, its one [catch] answers with status 500 and the
    text [Failed to process message], so neither the status of the kind
    nor the message that [generateChatbotResponse] has made for the user
    reaches the caller. *)
Lemma provider_failure_status_collapsed :
  let ext := sampleExternals (Some "sk-key") (Rejects (APIError (Some 401))) false in
  fst (generateChatbotResponse ext "u1" sampleConversationId "What about injury?"
                               sampleWorld)
  = Threw (Error invalidKeyMessage)
  ∧ kindOf (Error invalidKeyMessage) = Some InvalidCredentials
  ∧ fst (POST ext sampleSession (sampleBody "What about injury?") sampleWorld)
    = Returned genericFailure
  ∧ HttpResponse.status genericFailure ≠ specStatus InvalidCredentials.
Proof. repeat split; try (vm_compute; reflexivity). vm_compute. discriminate. Qed.

(** C4 (as amended): when the provider answers, an answer without any
    block makes generation fail with the generic failure; otherwise the
    reply is the text of the first block when that block is textual and
    the empty string when it is not. *)
Theorem first_block_decides_reply (ext : Externals)
    (userId conversationId userMessage : string) (w : World)
    (request : MessagesRequest.t) (content : list ContentBlock) :
  let run := generateChatbotResponse ext userId conversationId userMessage w in
  CallProvider request ∈ newEvents w (snd run) →
  messagesCreate ext request = Responds content →
  match content with
  | [] => fst run = Threw (Error failedMessage)
          ∧ kindOf (Error failedMessage) = Some UnknownGenerationFailure
  | TextBlock text :: _ =>
      ∃ sources, fst run = Returned {| GenerateResult.response := text;
                                       GenerateResult.sources := sources |}
  | OtherBlock _ :: _ =>
      ∃ sources, fst run = Returned {| GenerateResult.response := "";
                                       GenerateResult.sources := sources |}
  end.
Proof.
  intros run Hcalled Hresponds.
  destruct (generateChatbotResponse_called ext userId conversationId userMessage
              w request Hcalled) as (_ & _ & _ & Hout).
  fold run in Hout. rewrite Hout, Hresponds.
  destruct content as [|[text|type] rest]; [by split|by eexists..].
Qed.

Lemma first_block_decides_reply_witness :
  let ext := sampleExternals (Some "sk-key") (Responds []) false in
  fst (generateChatbotResponse ext "u1" sampleConversationId "What about injury?"
                               sampleWorld)
  = Threw (Error failedMessage).
Proof.
  intros ext.
  apply (first_block_decides_reply ext "u1" sampleConversationId "What about injury?"
           sampleWorld
           (buildRequest (searchKnowledgeBase injuryCorpus "What about injury?")
                         (messagesOf sampleConversationId 10 elevenTurns)
                         "What about injury?")
           []).
  - vm_compute. right. right. left.
  - reflexivity.
Defined.

(** C4 (as stated) fails: an answer whose only block is not textual gives
    the empty string as the reply. *)
Lemma silent_empty_reply :
  let ext := sampleExternals (Some "sk-key") (Responds [OtherBlock "tool_use"]) false in
  ∃ sources,
    fst (generateChatbotResponse ext "u1" sampleConversationId "What about injury?"
                                 sampleWorld)
    = Returned {| GenerateResult.response := ""; GenerateResult.sources := sources |}.
Proof. eexists. vm_compute. reflexivity. Qed.

(** ** The history window *)

(** The request of a run carries the first ten stored messages of the
    conversation, oldest first, and then the new user message. *)
Lemma history_window (ext : Externals) (userId conversationId userMessage : string)
    (w : World) (request : MessagesRequest.t) :
  CallProvider request
    ∈ newEvents w (snd (generateChatbotResponse ext userId conversationId userMessage w)) →
  MessagesRequest.messages request
  = (toChatMessage <$> messagesOf conversationId 10 (chatbotMessage w))
    ++ [ {| ChatMessage.role := user; ChatMessage.content := userMessage |} ]
  ∧ (length (messagesOf conversationId 10 (chatbotMessage w)) ≤ 10)%nat.
Proof.
  intros Hcalled.
  destruct (generateChatbotResponse_called ext userId conversationId userMessage
              w request Hcalled) as (-> & _).
  split; [reflexivity|]. unfold messagesOf. rewrite length_take. lia.
Qed.

(** C2 at a conversation of eleven turns: the request carries the turns 1
    to 10 and the new message; the most recent stored turn, which the
    window of the last ten turns contains, is left out. *)
Lemma history_keeps_oldest_turns :
  let ext := sampleExternals (Some "sk-key") (Responds [TextBlock "hello"]) false in
  let run := generateChatbotResponse ext "u1" sampleConversationId "What about injury?"
                                     sampleWorld in
  ∃ request,
    newEvents sampleWorld (snd run)
    = [FindConversation sampleConversationId; FindDocuments; CallProvider request]
    ∧ ChatMessage.content <$> MessagesRequest.messages request
      = ["m1"; "m2"; "m3"; "m4"; "m5"; "m6"; "m7"; "m8"; "m9"; "m10";
         "What about injury?"]
    ∧ ChatMessage.content <$> specHistory sampleConversationId (chatbotMessage sampleWorld)
      = ["m2"; "m3"; "m4"; "m5"; "m6"; "m7"; "m8"; "m9"; "m10"; "m11"].
Proof.
  intros ext run.
  exists (buildRequest (searchKnowledgeBase injuryCorpus "What about injury?")
                       (messagesOf sampleConversationId 10 elevenTurns)
                       "What about injury?").
  repeat split; vm_compute; reflexivity.
Qed.

(** * Properties of further parts of the code *)

(** ** KeywordExtractor *)

Lemma mapChars_app (f : ascii → ascii) (s t : string) :
  mapChars f (s +:+ t) = mapChars f s +:+ mapChars f t.
Proof. induction s as [|c s IH]; simpl; [done|]. by rewrite IH. Qed.

Lemma charToLowerCase_idemp (c : ascii) :
  charToLowerCase (charToLowerCase c) = charToLowerCase c.
Proof. destruct c as [[] [] [] [] [] [] [] []]; vm_compute; reflexivity. Qed.

Lemma toLowerCase_idemp (s : string) : toLowerCase (toLowerCase s) = toLowerCase s.
Proof.
  unfold toLowerCase. induction s as [|c s IH]; simpl; [done|].
  by rewrite charToLowerCase_idemp, IH.
Qed.

Section SplitPieces.
Context (P : string → Prop) `{!∀ word, Decision (P word)}.
Hypothesis P_empty : ¬ P EmptyString.

Lemma splitRuns_after_run (s : string) :
  filter P (splitRuns true EmptyString s) = filter P (splitRuns false EmptyString s).
Proof.
  destruct s as [|c s]; simpl; [done|].
  destruct (isWhiteSpace c); [|done].
  by rewrite filter_cons_False.
Qed.

Lemma splitRuns_app (a b : string) :
  ∀ inRun cur,
    (inRun = true → cur = EmptyString) →
    filter P (splitRuns inRun cur (a +:+ " " +:+ b))
    = filter P (splitRuns inRun cur a) ++ filter P (splitRuns false EmptyString b).
Proof.
  induction a as [|c a IH]; intros inRun cur Hcur.
  - change (EmptyString +:+ " " +:+ b) with (String " " b).
    change (splitRuns inRun cur (String " " b))
      with (if inRun then splitRuns true cur b
            else cur :: splitRuns true EmptyString b).
    change (splitRuns inRun cur EmptyString) with [cur].
    destruct inRun.
    + rewrite (Hcur eq_refl), filter_cons_False, app_nil_l by done.
      apply splitRuns_after_run.
    + rewrite (filter_app _ [cur] (splitRuns true EmptyString b)).
      by rewrite splitRuns_after_run.
  - change (String c a +:+ " " +:+ b) with (String c (a +:+ " " +:+ b)).
    simpl. destruct (isWhiteSpace c).
    + destruct inRun.
      * by apply IH.
      * rewrite (filter_app _ [cur] (splitRuns true EmptyString (a +:+ " " +:+ b))).
        rewrite (filter_app _ [cur] (splitRuns true EmptyString a)).
        rewrite <- app_assoc. f_equal. by apply IH.
    + by apply IH.
Qed.
End SplitPieces.

Lemma isKeyword_empty : ¬ isKeyword EmptyString.
Proof. intros [H _]. simpl in H. lia. Qed.

(** The keywords of two queries joined by a space are the keywords of the
    first followed by the keywords of the second: the order of occurrence
    is kept, and so is every repetition. *)
Theorem extractKeywords_app (a b : string) :
  extractKeywords (a +:+ " " +:+ b) = extractKeywords a ++ extractKeywords b.
Proof.
  unfold extractKeywords, splitWhiteSpace, replaceNonWord, toLowerCase.
  rewrite !mapChars_app.
  change (mapChars _ (mapChars charToLowerCase " ")) with " ".
  apply (splitRuns_app isKeyword isKeyword_empty); discriminate.
Qed.

(** The keywords do not depend on the case of the query. *)
Lemma extractKeywords_case (query : string) :
  extractKeywords (toLowerCase query) = extractKeywords query.
Proof. unfold extractKeywords. by rewrite toLowerCase_idemp. Qed.

Lemma token_char_kept (c : ascii) :
  isTokenChar c = true →
  isWhiteSpace c = false
  ∧ (if isWordChar c || isWhiteSpace c then c else " "%char) = c.
Proof.
  destruct c as [[] [] [] [] [] [] [] []]; vm_compute; intros H;
    first [done | discriminate H].
Qed.

Lemma token_replaceNonWord (s : string) :
  allChars isTokenChar s = true → replaceNonWord s = s.
Proof.
  unfold replaceNonWord. induction s as [|c s IH]; simpl; [done|].
  rewrite andb_true_iff. intros [Hc Hs].
  destruct (token_char_kept c Hc) as [_ ->]. by rewrite IH.
Qed.

Lemma append_cons_assoc (cur : string) (c : ascii) (s : string) :
  (cur +:+ String c EmptyString) +:+ s = cur +:+ String c s.
Proof.
  induction cur as [|d cur IH]; [done|].
  change (String d ((cur +:+ String c EmptyString) +:+ s) = String d (cur +:+ String c s)).
  by f_equal.
Qed.

Lemma token_splitRuns (s : string) :
  ∀ cur, allChars isTokenChar s = true → splitRuns false cur s = [cur +:+ s].
Proof.
  induction s as [|c s IH]; intros cur; simpl.
  - intros _. f_equal. induction cur as [|d cur IHc]; [done|].
    change (String d cur = String d (cur +:+ EmptyString)). by f_equal.
  - rewrite andb_true_iff. intros [Hc Hs].
    destruct (token_char_kept c Hc) as [-> _].
    rewrite IH by done. f_equal. apply append_cons_assoc.
Qed.

Lemma extractKeywords_keyword (word : string) :
  allChars isTokenChar word = true → isKeyword word →
  extractKeywords word = [word].
Proof.
  intros Hchars Hkey. unfold extractKeywords, splitWhiteSpace.
  rewrite token_lowercase, token_replaceNonWord, token_splitRuns by done.
  simpl. by rewrite filter_cons_True, filter_nil.
Qed.

Lemma extractKeywords_join (words : list string) :
  Forall (λ word, allChars isTokenChar word = true ∧ isKeyword word) words →
  extractKeywords (join " " words) = words.
Proof.
  induction words as [|word words IH]; intros Hall; [by vm_compute|].
  apply Forall_cons in Hall as [[Hchars Hkey] Hall].
  destruct words as [|word' words].
  - by apply extractKeywords_keyword.
  - change (join " " (word :: word' :: words))
      with (word +:+ " " +:+ join " " (word' :: words)).
    assert (extractKeywords (word +:+ " " +:+ join " " (word' :: words))
            = extractKeywords word ++ extractKeywords (join " " (word' :: words))) as ->.
    { unfold extractKeywords, splitWhiteSpace, replaceNonWord, toLowerCase.
      rewrite !mapChars_app.
      change (mapChars _ (mapChars charToLowerCase " ")) with " ".
      apply (splitRuns_app isKeyword isKeyword_empty); discriminate. }
    rewrite IH by done. by rewrite extractKeywords_keyword.
Qed.

(** Extraction is stable: the keywords of a query, written out with
    spaces between them, give back exactly these keywords. *)
Theorem extractKeywords_stable (query : string) :
  extractKeywords (join " " (extractKeywords query)) = extractKeywords query.
Proof.
  apply extractKeywords_join.
  pose proof (extractKeywords_chars query) as Hchars.
  rewrite Forall_forall in Hchars |- *. intros word Hin.
  split; [by apply Hchars|].
  by apply list_elem_of_filter in Hin as [Hkey _].
Qed.

(** ** KnowledgeRetriever *)

Lemma findManyDocuments_elem_of (where_ : TrainingDocument.t → bool) (n : nat)
    (table : list TrainingDocument.t) (doc : TrainingDocument.t) :
  doc ∈ findManyDocuments where_ n table → doc ∈ table ∧ where_ doc = true.
Proof.
  unfold findManyDocuments. intros Hin.
  apply elem_of_take in Hin as (i & Hi & _).
  apply list_elem_of_lookup_2 in Hi.
  rewrite stableSort_elem_of, list_elem_of_In, filter_In in Hi.
  destruct Hi as [Hi Hwhere].
  by apply list_elem_of_In in Hi.
Qed.

(** Every result comes from an active document of the table: its title
    and type are the document's, and its excerpt is the start of the
    document's content.  An inactive document is never returned. *)
Theorem searchKnowledgeBase_active_only (table : list TrainingDocument.t)
    (query : string) (result : SearchResult.t) :
  result ∈ searchKnowledgeBase table query →
  ∃ doc, doc ∈ table
         ∧ TrainingDocument.isActive doc = true
         ∧ SearchResult.title result = TrainingDocument.title doc
         ∧ SearchResult.type result = documentTypeName (TrainingDocument.documentType doc)
         ∧ ∃ n, SearchResult.content result = substring0 n (TrainingDocument.content doc).
Proof.
  unfold searchKnowledgeBase. cbv zeta. case_bool_decide as Hk; intros Hin.
  - apply list_elem_of_fmap in Hin as (doc & -> & Hdoc).
    apply findManyDocuments_elem_of in Hdoc as [Hdoc Hactive].
    exists doc. repeat split; try done. by exists 1000%nat.
  - unfold sortWith in Hin. apply stableSort_elem_of in Hin.
    apply list_elem_of_fmap in Hin as (doc & -> & Hdoc).
    apply findManyDocuments_elem_of in Hdoc as [Hdoc Hwhere].
    apply andb_true_iff in Hwhere as [Hactive _].
    exists doc. repeat split; try done. by exists 1500%nat.
Qed.

Lemma searchKnowledgeBase_active_only_witness :
  ∃ result doc,
    result ∈ searchKnowledgeBase injuryCorpus "injury"
    ∧ doc ∈ injuryCorpus
    ∧ SearchResult.title result = TrainingDocument.title doc.
Proof.
  pose (result := scoredResult (extractKeywords "injury")
                    (sampleDocument "d6" "Contacts" "Whom to call after an injury." 6)).
  assert (result ∈ searchKnowledgeBase injuryCorpus "injury") as Hin.
  { vm_compute. left. }
  destruct (searchKnowledgeBase_active_only injuryCorpus "injury" result Hin)
    as (doc & Hdoc & _ & Htitle & _).
  exists result, doc. split; [exact Hin|]. split; [exact Hdoc|exact Htitle].
Defined.

Lemma totalPoints_cons (k : string) (ks : list string) (doc : TrainingDocument.t) :
  totalPoints (k :: ks) doc
  = termPoints (toLowerCase (TrainingDocument.title doc))
               (toLowerCase (TrainingDocument.content doc)) k
    + totalPoints ks doc.
Proof. reflexivity. Qed.

Lemma totalPoints_match (keywords : list string) (doc : TrainingDocument.t) (term : string) :
  term ∈ keywords →
  includes (toLowerCase (TrainingDocument.title doc)) term = true
  ∨ includes (toLowerCase (TrainingDocument.content doc)) term = true →
  1 ≤ totalPoints keywords doc.
Proof.
  induction keywords as [|k ks IH]; intros Hin Hterm; [by apply elem_of_nil in Hin|].
  rewrite totalPoints_cons.
  pose proof (totalPoints_nonneg ks doc) as Hks.
  assert (0 ≤ termPoints (toLowerCase (TrainingDocument.title doc))
                         (toLowerCase (TrainingDocument.content doc)) k) as Hk.
  { unfold termPoints. destruct (includes _ k), (includes _ k); lia. }
  apply elem_of_cons in Hin as [->|Hin].
  - assert (1 ≤ termPoints (toLowerCase (TrainingDocument.title doc))
                           (toLowerCase (TrainingDocument.content doc)) k); [|lia].
    unfold termPoints. destruct Hterm as [->| ->].
    + destruct (includes (toLowerCase (TrainingDocument.content doc)) k); lia.
    + destruct (includes (toLowerCase (TrainingDocument.title doc)) k); lia.
  - specialize (IH Hin Hterm). lia.
Qed.

(** With at least one usable term every result has a score above 0 and at
    most 1, and the results are in the order of their scores, highest
    first. *)
Theorem searchKnowledgeBase_scores (table : list TrainingDocument.t) (query : string) :
  extractKeywords query ≠ [] →
  Forall (λ result, (0 < SearchResult.score result)%Q
                    ∧ (SearchResult.score result <= 1)%Q)
         (searchKnowledgeBase table query)
  ∧ StronglySorted (λ a b, (SearchResult.score b <= SearchResult.score a)%Q)
                   (searchKnowledgeBase table query).
Proof.
  intros Hk. unfold searchKnowledgeBase. cbv zeta.
  rewrite bool_decide_eq_false_2
    by (intros Hl; apply Hk; by apply length_zero_iff_nil).
  set (keywords := extractKeywords query) in *.
  assert (0 < Z.of_nat (length keywords) * 2) as Hpos.
  { destruct keywords; [done|]. simpl length. lia. }
  unfold sortWith. split.
  - apply stableSort_Forall, Forall_fmap, Forall_forall. intros doc Hdoc.
    apply findManyDocuments_elem_of in Hdoc as [_ Hwhere].
    apply andb_true_iff in Hwhere as [_ Hmatch].
    apply (matchesAny_terms keywords doc (extractKeywords_chars query)) in Hmatch
      as (term & Hterm & Hincl).
    pose proof (totalPoints_match keywords doc term Hterm Hincl) as Hpoints.
    unfold compose, scoredResult, SearchResult.score, relevanceScore. cbv zeta.
    rewrite countMatches_totalPoints. split; [|apply Q.le_min_r].
    apply Q.min_glb_lt; [|done].
    apply Qlt_shift_div_l; [by apply inject_Z_pos|].
    rewrite Qmult_0_l. rewrite <- (Zlt_Qlt 0). lia.
  - eapply StronglySorted_mono; [|apply stableSort_sorted].
    + intros a b Hab. cbv beta in Hab. unfold byScoreDesc in Hab.
      by apply byScore_before in Hab.
    + intros a b. unfold byScoreDesc. rewrite !byScore_before.
      destruct (Qlt_le_dec (SearchResult.score a) (SearchResult.score b));
        [right|left]; lra.
    + intros a b c. unfold byScoreDesc. rewrite !byScore_before. lra.
Qed.

Lemma searchKnowledgeBase_scores_witness :
  extractKeywords "injury" ≠ []
  ∧ Forall (λ result, (0 < SearchResult.score result)%Q
                      ∧ (SearchResult.score result <= 1)%Q)
           (searchKnowledgeBase injuryCorpus "injury").
Proof.
  assert (extractKeywords "injury" ≠ []) as Hk by (vm_compute; discriminate).
  split; [exact Hk|].
  exact (proj1 (searchKnowledgeBase_scores injuryCorpus "injury" Hk)).
Defined.

(** ** ContextAssembler and ResponseGenerator *)

Lemma createdAtAsc_total (a b : ChatbotMessage.t) :
  createdAtAsc a b = true ∨ createdAtAsc b a = true.
Proof. unfold createdAtAsc. rewrite !Z.leb_le. lia. Qed.

Lemma createdAtAsc_trans (a b c : ChatbotMessage.t) :
  createdAtAsc a b = true → createdAtAsc b c = true → createdAtAsc a c = true.
Proof. unfold createdAtAsc. rewrite !Z.leb_le. lia. Qed.

Lemma messagesOf_elem_of (conversationId : string) (n : nat)
    (table : list ChatbotMessage.t) (m : ChatbotMessage.t) :
  m ∈ messagesOf conversationId n table →
  m ∈ table ∧ ChatbotMessage.conversationId m = conversationId.
Proof.
  unfold messagesOf. intros Hin.
  apply elem_of_take in Hin as (i & Hi & _).
  apply list_elem_of_lookup_2 in Hi.
  rewrite stableSort_elem_of, list_elem_of_In, filter_In in Hi.
  destruct Hi as [Hi Hid]. apply bool_decide_eq_true in Hid.
  by apply list_elem_of_In in Hi.
Qed.

Lemma messagesOf_sorted (conversationId : string) (n : nat)
    (table : list ChatbotMessage.t) :
  StronglySorted (λ a b, ChatbotMessage.createdAt a ≤ ChatbotMessage.createdAt b)
                 (messagesOf conversationId n table).
Proof.
  unfold messagesOf.
  set (sorted := stableSort createdAtAsc _).
  assert (StronglySorted (λ a b, ChatbotMessage.createdAt a ≤ ChatbotMessage.createdAt b)
                         (take n sorted ++ drop n sorted)) as Hs.
  { rewrite take_drop.
    eapply StronglySorted_mono;
      [|apply (stableSort_sorted createdAtAsc);
        [apply createdAtAsc_total|apply createdAtAsc_trans]].
    intros x y H. unfold createdAtAsc in H. by apply Z.leb_le in H. }
  by eapply StronglySorted_app_1_l.
Qed.

(** The request of a run that calls the provider: the fixed model and an
    output bound of 2048 tokens; as history at most ten stored messages,
    all of them of this conversation and none of another, in the order of
    their creation, each sent with its stored content and with the role
    [user] when it was stored as [USER] and [assistant] when it was stored
    as [ASSISTANT]; and the new message last, as a user message. *)
Theorem provider_request_shape (ext : Externals)
    (userId conversationId userMessage : string) (w : World)
    (request : MessagesRequest.t) :
  CallProvider request
    ∈ newEvents w (snd (generateChatbotResponse ext userId conversationId userMessage w)) →
  MessagesRequest.model request = "claude-3-5-sonnet-20241022"
  ∧ MessagesRequest.max_tokens request = 2048
  ∧ ∃ history stored,
      MessagesRequest.messages request
      = history ++ [ {| ChatMessage.role := user; ChatMessage.content := userMessage |} ]
      ∧ (length stored ≤ 10)%nat
      ∧ Forall (λ m, m ∈ chatbotMessage w
                     ∧ ChatbotMessage.conversationId m = conversationId) stored
      ∧ StronglySorted (λ a b, ChatbotMessage.createdAt a ≤ ChatbotMessage.createdAt b)
                       stored
      ∧ Forall2 (λ sent row,
                   ChatMessage.content sent = ChatbotMessage.content row
                   ∧ (ChatMessage.role sent = user ↔ ChatbotMessage.role row = USER)
                   ∧ (ChatMessage.role sent = assistant
                      ↔ ChatbotMessage.role row = ASSISTANT))
                history stored.
Proof.
  intros Hcalled.
  destruct (generateChatbotResponse_called ext userId conversationId userMessage
              w request Hcalled) as (-> & _).
  split; [done|]. split; [done|].
  exists (toChatMessage <$> messagesOf conversationId 10 (chatbotMessage w)),
         (messagesOf conversationId 10 (chatbotMessage w)).
  split; [done|]. split; [|split; [|split]].
  - unfold messagesOf. rewrite length_take. lia.
  - apply Forall_forall. intros m. apply messagesOf_elem_of.
  - apply messagesOf_sorted.
  - apply Forall2_fmap_l, Forall_Forall2_diag, Forall_forall. intros row _.
    unfold toChatMessage. cbn [ChatMessage.role ChatMessage.content].
    split; [done|]. by destruct (ChatbotMessage.role row).
Qed.

Lemma provider_request_shape_witness :
  let ext := sampleExternals (Some "sk-key") (Responds [TextBlock "hello"]) false in
  let request :=
    buildRequest (searchKnowledgeBase injuryCorpus "What about injury?")
                 (messagesOf sampleConversationId 10 elevenTurns) "What about injury?" in
  CallProvider request
    ∈ newEvents sampleWorld
        (snd (generateChatbotResponse ext "u1" sampleConversationId "What about injury?"
                                      sampleWorld))
  ∧ MessagesRequest.max_tokens request = 2048
  ∧ ChatMessage.role <$> MessagesRequest.messages request
    = [user; assistant; user; assistant; user; assistant; user; assistant; user;
       assistant; user].
Proof.
  intros ext request.
  assert (CallProvider request
            ∈ newEvents sampleWorld
                (snd (generateChatbotResponse ext "u1" sampleConversationId
                                              "What about injury?" sampleWorld))) as Hin.
  { vm_compute. right. right. left. }
  split; [exact Hin|].
  split; [|vm_compute; reflexivity].
  exact (proj1 (proj2 (provider_request_shape ext "u1" sampleConversationId
                         "What about injury?" sampleWorld request Hin))).
Defined.

(** [generateChatbotResponse] only reads: whatever the outcome, the
    documents, the conversations, the stored messages and the rate limiter
    are as before.  The calls that it makes to its clients are, in this
    order, the lookup of the conversation, the search of the documents and
    one call of [anthropic.messages.create], or a beginning of that
    sequence. *)
Theorem generateChatbotResponse_reads_only (ext : Externals)
    (userId conversationId userMessage : string) (w : World) :
  let run := generateChatbotResponse ext userId conversationId userMessage w in
  trainingDocument (snd run) = trainingDocument w
  ∧ chatbotConversation (snd run) = chatbotConversation w
  ∧ chatbotMessage (snd run) = chatbotMessage w
  ∧ rateLimitMap (snd run) = rateLimitMap w
  ∧ (newEvents w (snd run) = []
     ∨ newEvents w (snd run) = [FindConversation conversationId]
     ∨ ∃ request,
         newEvents w (snd run)
         = [FindConversation conversationId; FindDocuments; CallProvider request]).
Proof.
  intros run. subst run. rewrite generateChatbotResponse_run. cbv zeta.
  destruct (falsy (ANTHROPIC_API_KEY ext)).
  { repeat split. left. apply newEvents_refl. }
  destruct (chatbotConversation w !! conversationId) as [conversation|].
  2:{ repeat split. right. left. apply logged_one. }
  destruct (negb (bool_decide (ChatbotConversation.userId conversation = userId))).
  { repeat split. right. left. apply logged_one. }
  repeat split. right. right. eexists. apply logged_three.
Qed.

(** ** The route handler *)

Lemma messageSchemaParse_valid (ext : Externals) (data : MessageData.t) (w : World) :
  validMessage ext data → messageSchemaParse ext data w = (Returned data, w).
Proof.
  intros [Huuid [Hmin Hmax]]. unfold messageSchemaParse. cbv zeta.
  assert ((String.length (MessageData.message data) <? 1)%nat = false) as ->
    by (apply Nat.ltb_ge; lia).
  assert ((2000 <? String.length (MessageData.message data))%nat = false) as ->
    by (apply Nat.ltb_ge; lia).
  destruct (MessageData.conversationId data) as [c|]; [|done].
  by rewrite Huuid.
Qed.

Lemma messageSchemaParse_invalid (ext : Externals) (data : MessageData.t) (w : World) :
  ¬ validMessage ext data →
  ∃ first rest, messageSchemaParse ext data w = (Threw (ZodError first rest), w).
Proof.
  intros Hinvalid.
  destruct (messageSchemaParse_cases ext data w) as [Hok|Hbad]; [|done].
  exfalso. apply Hinvalid. unfold messageSchemaParse in Hok. cbv zeta in Hok.
  unfold validMessage.
  destruct (MessageData.conversationId data) as [c|].
  - destruct (isUuid ext c); [|done]. split; [done|].
    destruct (String.length (MessageData.message data) <? 1)%nat eqn:Hmin; [done|].
    destruct (2000 <? String.length (MessageData.message data))%nat eqn:Hmax; [done|].
    apply Nat.ltb_ge in Hmin, Hmax. lia.
  - split; [done|].
    destruct (String.length (MessageData.message data) <? 1)%nat eqn:Hmin; [done|].
    destruct (2000 <? String.length (MessageData.message data))%nat eqn:Hmax; [done|].
    apply Nat.ltb_ge in Hmin, Hmax. lia.
Qed.

(** The handler past the session check, the rate limiter and the
    validation. *)
Lemma POST_accepted (ext : Externals) (sessionUser : SessionUser.t)
    (data : MessageData.t) (w w1 : World) :
  rateLimit ext (chatbotKey sessionUser) 30 60000 w = (Returned true, w1) →
  messageSchemaParse ext data w1 = (Returned data, w1) →
  POST ext (Some sessionUser) (Some data) w
  = let caught (e : Thrown) (w' : World) :=
      match e with
      | ZodError first _ => (Returned (apiError first 400), w')
      | _ => (Returned genericFailure, w')
      end in
    match (if falsy (MessageData.conversationId data)
           then createConversation ext (SessionUser.id sessionUser) None
           else ret (default "" (MessageData.conversationId data))) w1 with
    | (Returned conversationId, w2) =>
        match generateChatbotResponse ext (SessionUser.id sessionUser) conversationId
                                      (MessageData.message data) w2 with
        | (Returned generated, w3) =>
            match saveMessages ext conversationId (MessageData.message data)
                               (GenerateResult.response generated)
                               (Some (GenerateResult.sources generated)) w3 with
            | (Returned _, w4) =>
                (Returned (apiResponse (ReplyBody conversationId
                                          (GenerateResult.response generated)
                                          (GenerateResult.sources generated))), w4)
            | (Threw e, w4) => caught e w4
            end
        | (Threw e, w3) => caught e w3
        end
    | (Threw e, w2) => caught e w2
    end.
Proof.
  intros Hlimit Hvalid. unfold POST, tryCatch, chatbotKey in *. cbv zeta.
  unfold bind at 1. rewrite Hlimit. cbv beta iota delta [negb].
  unfold bind at 1. unfold ret at 1. cbv beta iota.
  unfold bind at 1. rewrite Hvalid.
  cbv beta iota. unfold bind at 1.
  destruct ((if falsy (MessageData.conversationId data)
             then createConversation ext (SessionUser.id sessionUser) None
             else ret (default "" (MessageData.conversationId data))) w1)
    as [[conversationId|e] w2]; [|by destruct e].
  unfold bind at 1.
  destruct (generateChatbotResponse ext (SessionUser.id sessionUser) conversationId
              (MessageData.message data) w2) as [[generated|e] w3]; [|by destruct e].
  unfold bind at 1.
  destruct (saveMessages ext conversationId (MessageData.message data)
              (GenerateResult.response generated)
              (Some (GenerateResult.sources generated)) w3) as [[[]|e] w4];
    [done|by destruct e].
Qed.

(** ** The rate limiter *)

Lemma rateLimit_refuses (ext : Externals) (identifier : string) (maxRequests windowMs : Z)
    (w : World) (r : RateRecord.t) :
  rateLimitMap w !! identifier = Some r →
  dateNow ext ≤ RateRecord.resetTime r →
  maxRequests ≤ RateRecord.count r →
  rateLimit ext identifier maxRequests windowMs w = (Returned false, w).
Proof.
  intros Hr Hnow Hcount. unfold rateLimit. cbv zeta. rewrite Hr.
  assert ((RateRecord.resetTime r <? dateNow ext) = false) as -> by (apply Z.ltb_ge; lia).
  by assert ((maxRequests <=? RateRecord.count r) = true) as -> by (apply Z.leb_le; lia).
Qed.

Lemma rateLimit_counts (ext : Externals) (identifier : string) (maxRequests windowMs : Z)
    (w : World) (r : RateRecord.t) :
  rateLimitMap w !! identifier = Some r →
  dateNow ext ≤ RateRecord.resetTime r →
  RateRecord.count r < maxRequests →
  ∃ w', rateLimit ext identifier maxRequests windowMs w = (Returned true, w')
        ∧ rateLimitMap w' !! identifier
          = Some (RateRecord.mk (RateRecord.count r + 1) (RateRecord.resetTime r)).
Proof.
  intros Hr Hnow Hcount. unfold rateLimit. cbv zeta. rewrite Hr.
  assert ((RateRecord.resetTime r <? dateNow ext) = false) as -> by (apply Z.ltb_ge; lia).
  assert ((maxRequests <=? RateRecord.count r) = false) as -> by (apply Z.leb_gt; lia).
  eexists. split; [done|]. simpl. apply lookup_insert_eq.
Qed.

Lemma rateLimit_opens (ext : Externals) (identifier : string) (maxRequests windowMs : Z)
    (w : World) :
  (rateLimitMap w !! identifier = None
   ∨ ∃ r, rateLimitMap w !! identifier = Some r ∧ RateRecord.resetTime r < dateNow ext) →
  ∃ w', rateLimit ext identifier maxRequests windowMs w = (Returned true, w')
        ∧ rateLimitMap w' !! identifier
          = Some (RateRecord.mk 1 (dateNow ext + windowMs)).
Proof.
  unfold rateLimit. cbv zeta. intros [->|(r & -> & Hexp)].
  - eexists. split; [done|]. simpl. apply lookup_insert_eq.
  - assert ((RateRecord.resetTime r <? dateNow ext) = true) as -> by (apply Z.ltb_lt; lia).
    eexists. split; [done|]. simpl. apply lookup_insert_eq.
Qed.

(** Calls inside a running window: with [count] requests counted, the
    call number [i] from now is admitted exactly when [count + i] is still
    below the limit. *)
Lemma rateLimitCalls_in_window (calls : list Externals) (identifier : string)
    (maxRequests windowMs : Z) :
  ∀ (w : World) (r : RateRecord.t),
    rateLimitMap w !! identifier = Some r →
    Forall (λ ext, dateNow ext ≤ RateRecord.resetTime r) calls →
    fst (rateLimitCalls calls identifier maxRequests windowMs w)
    = (λ i : nat, bool_decide (RateRecord.count r + Z.of_nat i < maxRequests))
        <$> seq 0 (length calls).
Proof.
  induction calls as [|ext calls IH]; intros w r Hr Hcalls; [done|].
  apply Forall_cons in Hcalls as [Hnow Hcalls].
  cbn [rateLimitCalls length seq]. rewrite fmap_cons, <- fmap_S_seq, <- list_fmap_compose.
  destruct (Z_lt_le_dec (RateRecord.count r) maxRequests) as [Hlt|Hge].
  - destruct (rateLimit_counts ext identifier maxRequests windowMs w r Hr Hnow Hlt)
      as (w' & -> & Hr').
    specialize (IH w' _ Hr' Hcalls).
    destruct (rateLimitCalls calls identifier maxRequests windowMs w') as [answers w''].
    cbn [fst] in *. rewrite IH. f_equal.
    + rewrite bool_decide_eq_true_2; [done|lia].
    + apply list_fmap_ext. intros _ i _. simpl.
      apply bool_decide_ext. lia.
  - rewrite (rateLimit_refuses ext identifier maxRequests windowMs w r Hr Hnow Hge).
    specialize (IH w r Hr Hcalls).
    destruct (rateLimitCalls calls identifier maxRequests windowMs w) as [answers w''].
    cbn [fst] in *. rewrite IH. f_equal.
    + rewrite bool_decide_eq_false_2; [done|lia].
    + apply list_fmap_ext. intros _ i _. simpl.
      apply bool_decide_ext. lia.
Qed.

(** The record after calls inside a running window: the end of the window
    is as it was, and the count has grown by the calls that were admitted. *)
Lemma rateLimitCalls_record (calls : list Externals) (identifier : string)
    (maxRequests windowMs : Z) :
  ∀ (w : World) (r : RateRecord.t),
    rateLimitMap w !! identifier = Some r →
    Forall (λ ext, dateNow ext ≤ RateRecord.resetTime r) calls →
    rateLimitMap (snd (rateLimitCalls calls identifier maxRequests windowMs w)) !! identifier
    = Some (RateRecord.mk
              (RateRecord.count r
                 `max` ((RateRecord.count r + Z.of_nat (length calls)) `min` maxRequests))
              (RateRecord.resetTime r)).
Proof.
  induction calls as [|ext calls IH]; intros w r Hr Hcalls.
  - cbn [rateLimitCalls snd length]. rewrite Hr. f_equal. destruct r as [c t].
    cbn [RateRecord.count RateRecord.resetTime]. f_equal. lia.
  - apply Forall_cons in Hcalls as [Hext Hcalls]. cbn [rateLimitCalls].
    destruct (Z.lt_ge_cases (RateRecord.count r) maxRequests) as [Hfree|Hfull].
    + destruct (rateLimit_counts ext identifier maxRequests windowMs w r Hr Hext Hfree)
        as (w' & -> & Hr').
      specialize (IH w' _ Hr' Hcalls).
      destruct (rateLimitCalls calls identifier maxRequests windowMs w') as [answers w''].
      cbn [snd] in *. rewrite IH. cbn [RateRecord.count RateRecord.resetTime length].
      f_equal. f_equal. lia.
    + rewrite (rateLimit_refuses ext identifier maxRequests windowMs w r Hr Hext Hfull).
      specialize (IH w r Hr Hcalls).
      destruct (rateLimitCalls calls identifier maxRequests windowMs w) as [answers w''].
      cbn [snd] in *. rewrite IH. cbn [length]. f_equal. f_equal. lia.
Qed.

(** A window: when an identifier has no record, or its window has passed,
    the first call is admitted whatever the limit is and opens a window of
    [windowMs]; of the calls that follow inside this window, the call
    number [i] is admitted exactly when [i + 1] is below the limit.  After
    these calls the window still ends [windowMs] after the first call, so
    a refused call has not prolonged it, and the count is the number of
    the calls that were admitted; a call after that end is admitted
    again. *)
Theorem rateLimit_window (first : Externals) (calls : list Externals)
    (identifier : string) (maxRequests windowMs : Z) (w : World) :
  (rateLimitMap w !! identifier = None
   ∨ ∃ r, rateLimitMap w !! identifier = Some r
          ∧ RateRecord.resetTime r < dateNow first) →
  Forall (λ ext, dateNow ext ≤ dateNow first + windowMs) calls →
  let run := rateLimitCalls (first :: calls) identifier maxRequests windowMs w in
  fst run
  = true :: ((λ i : nat, bool_decide (Z.of_nat i + 1 < maxRequests))
               <$> seq 0 (length calls))
  ∧ rateLimitMap (snd run) !! identifier
    = Some (RateRecord.mk (1 `max` ((1 + Z.of_nat (length calls)) `min` maxRequests))
                          (dateNow first + windowMs))
  ∧ ∀ later,
      dateNow first + windowMs < dateNow later →
      fst (rateLimit later identifier maxRequests windowMs (snd run)) = Returned true.
Proof.
  intros Hopen Hcalls run. subst run. cbn [rateLimitCalls].
  destruct (rateLimit_opens first identifier maxRequests windowMs w Hopen)
    as (w' & -> & Hr').
  pose proof (rateLimitCalls_in_window calls identifier maxRequests windowMs w' _
                Hr' Hcalls) as Hrest.
  pose proof (rateLimitCalls_record calls identifier maxRequests windowMs w' _
                Hr' Hcalls) as Hrecord.
  destruct (rateLimitCalls calls identifier maxRequests windowMs w') as [answers w''].
  cbn [fst snd RateRecord.count RateRecord.resetTime] in *. split; [|split].
  - rewrite Hrest. f_equal.
    apply list_fmap_ext. intros _ i _. simpl. apply bool_decide_ext. lia.
  - exact Hrecord.
  - intros later Hlater.
    destruct (rateLimit_opens later identifier maxRequests windowMs w'') as (w3 & -> & _);
      [|done].
    right. eexists. split; [exact Hrecord|]. done.
Qed.

Lemma rateLimit_window_witness :
  let run :=
    rateLimitCalls [atTime 100; atTime 100; atTime 150; atTime 1100] "chatbot:u1"
                   3 1000 sampleWorld in
  fst run = [true; true; true; false]
  ∧ rateLimitMap (snd run) !! "chatbot:u1" = Some (RateRecord.mk 3 1100)
  ∧ fst (rateLimit (atTime 1101) "chatbot:u1" 3 1000 (snd run)) = Returned true.
Proof.
  intros run.
  destruct (rateLimit_window (atTime 100) [atTime 100; atTime 150; atTime 1100]
              "chatbot:u1" 3 1000 sampleWorld) as (Hanswers & Hrecord & Hlater).
  - left. vm_compute. reflexivity.
  - repeat constructor; vm_compute; discriminate.
  - split; [exact Hanswers|]. split; [exact Hrecord|].
    apply Hlater. vm_compute. reflexivity.
Defined.

(** The limiter touches nothing but the record of the identifier it is
    asked about: the records of all other identifiers, the tables and the
    log are as before. *)
Theorem rateLimit_isolated (ext : Externals) (identifier other : string)
    (maxRequests windowMs : Z) (w : World) :
  other ≠ identifier →
  let w' := snd (rateLimit ext identifier maxRequests windowMs w) in
  rateLimitMap w' !! other = rateLimitMap w !! other
  ∧ trainingDocument w' = trainingDocument w
  ∧ chatbotConversation w' = chatbotConversation w
  ∧ chatbotMessage w' = chatbotMessage w
  ∧ log w' = log w.
Proof.
  intros Hother. unfold rateLimit. cbv zeta.
  destruct (rateLimitMap w !! identifier) as [r|].
  - destruct (RateRecord.resetTime r <? dateNow ext).
    + simpl. by rewrite lookup_insert_ne.
    + destruct (maxRequests <=? RateRecord.count r); simpl; [done|].
      by rewrite lookup_insert_ne.
  - simpl. by rewrite lookup_insert_ne.
Qed.

Lemma rateLimit_isolated_witness :
  rateLimitMap (snd (rateLimit (atTime 100) "chatbot:u2" 30 60000 limitedWorld))
    !! "chatbot:u1"
  = Some (RateRecord.mk 30 2000).
Proof.
  assert ("chatbot:u1" ≠ "chatbot:u2") as Hne by discriminate.
  rewrite (proj1 (rateLimit_isolated (atTime 100) "chatbot:u2" "chatbot:u1"
                    30 60000 limitedWorld Hne)).
  vm_compute. reflexivity.
Defined.

Lemma rateLimit_tables (ext : Externals) (identifier : string) (maxRequests windowMs : Z)
    (w : World) :
  ∃ canProceed w',
    rateLimit ext identifier maxRequests windowMs w = (Returned canProceed, w')
    ∧ log w' = log w
    ∧ chatbotMessage w' = chatbotMessage w
    ∧ trainingDocument w' = trainingDocument w
    ∧ chatbotConversation w' = chatbotConversation w.
Proof.
  unfold rateLimit. cbv zeta.
  destruct (rateLimitMap w !! identifier) as [r|]; [|by eexists _, _].
  destruct (RateRecord.resetTime r <? dateNow ext); [by eexists _, _|].
  destruct (maxRequests <=? RateRecord.count r); by eexists _, _.
Qed.



(** A body that the schema rejects is answered 400 before any table is
    read and before the provider is called; the request has been counted
    by the limiter all the same. *)
Theorem POST_invalid_body (ext : Externals) (sessionUser : SessionUser.t)
    (data : MessageData.t) (w : World) :
  fst (rateLimit ext (chatbotKey sessionUser) 30 60000 w) = Returned true →
  ¬ validMessage ext data →
  let run := POST ext (Some sessionUser) (Some data) w in
  (∃ first, fst run = Returned (apiError first 400))
  ∧ snd run = snd (rateLimit ext (chatbotKey sessionUser) 30 60000 w)
  ∧ newEvents w (snd run) = []
  ∧ is_Some (rateLimitMap (snd run) !! chatbotKey sessionUser).
Proof.
  intros Hlimit Hinvalid run. subst run.
  destruct (rateLimit_tables ext (chatbotKey sessionUser) 30 60000 w)
    as (canProceed & w1 & Hrun & Hlog & _).
  rewrite Hrun in Hlimit |- *. cbn [fst snd] in *. injection Hlimit as ->.
  destruct (messageSchemaParse_invalid ext data w1 Hinvalid) as (first & rest & Hparse).
  assert (POST ext (Some sessionUser) (Some data) w
          = (Returned (apiError first 400), w1)) as ->.
  { unfold POST, tryCatch. unfold bind at 1. fold (chatbotKey sessionUser).
    rewrite Hrun. cbv beta iota delta [negb].
    unfold bind at 1. unfold ret at 1. cbv beta iota.
    unfold bind at 1. by rewrite Hparse. }
  cbn [fst snd]. split; [by exists first|]. split; [done|].
  split; [apply newEvents_app; by rewrite app_nil_r|].
  unfold rateLimit in Hrun. cbv zeta in Hrun.
  destruct (rateLimitMap w !! chatbotKey sessionUser) as [r|].
  - destruct (RateRecord.resetTime r <? dateNow ext).
    + injection Hrun as <-. simpl. rewrite lookup_insert_eq. by eexists.
    + destruct (30 <=? RateRecord.count r); [done|].
      injection Hrun as <-. simpl. rewrite lookup_insert_eq. by eexists.
  - injection Hrun as <-. simpl. rewrite lookup_insert_eq. by eexists.
Qed.

Lemma POST_invalid_body_witness :
  let ext := sampleExternals (Some "sk-key") (Responds [TextBlock "hello"]) false in
  ∃ first,
    fst (POST ext sampleSession (sampleBody "") sampleWorld)
    = Returned (apiError first 400).
Proof.
  intros ext.
  apply (POST_invalid_body ext (SessionUser.mk "u1")
           {| MessageData.conversationId := Some sampleConversationId;
              MessageData.message := "" |} sampleWorld).
  - vm_compute. reflexivity.
  - intros [_ [Hmin _]]. vm_compute in Hmin. lia.
Defined.

Lemma classifyProviderError_message (error : Thrown) :
  ∃ message, classifyProviderError error = Error message.
Proof.
  unfold classifyProviderError. destruct (statusOf error) as [status|]; [|by eexists].
  destruct (status =? 401); [by eexists|].
  destruct (status =? 429); [by eexists|].
  destruct (500 <=? status); by eexists.
Qed.

(** Status 200 and the stored turn pair go together.  Either the answer
    has another status and no message has been stored; or the answer is
    200 and exactly two rows have been appended for the conversation that
    the answer names: the user's message, and the reply with its sources,
    which are the text and the sources of the answer. *)
Theorem POST_ok_iff_persisted (ext : Externals) (session : option SessionUser.t)
    (reqJson : option MessageData.t) (w : World) :
  let run := POST ext session reqJson w in
  ∃ response,
    fst run = Returned response
    ∧ ((HttpResponse.status response ≠ 200
        ∧ chatbotMessage (snd run) = chatbotMessage w)
       ∨ ∃ data conversationId text sources,
           reqJson = Some data
           ∧ response = apiResponse (ReplyBody conversationId text sources)
           ∧ sources = searchKnowledgeBase (trainingDocument w) (MessageData.message data)
           ∧ chatbotMessage (snd run)
             = chatbotMessage w ++
               [ {| ChatbotMessage.conversationId := conversationId;
                    ChatbotMessage.role := USER;
                    ChatbotMessage.content := MessageData.message data;
                    ChatbotMessage.sources := None;
                    ChatbotMessage.createdAt := dateNow ext |};
                 {| ChatbotMessage.conversationId := conversationId;
                    ChatbotMessage.role := ASSISTANT;
                    ChatbotMessage.content := text;
                    ChatbotMessage.sources := Some sources;
                    ChatbotMessage.createdAt := dateNow ext |} ]).
Proof.
  intros run. subst run.
  destruct session as [sessionUser|].
  2:{ eexists. split; [done|]. left. by split. }
  destruct (rateLimit_tables ext (chatbotKey sessionUser) 30 60000 w)
    as (canProceed & w1 & Hlimit & _ & Hmsg & Hdocs & _).
  destruct canProceed.
  2:{ assert (POST ext (Some sessionUser) reqJson w
              = (Returned (apiError "Too many requests. Please wait a moment." 429), w1))
        as ->.
      { unfold POST, tryCatch. unfold bind at 1. fold (chatbotKey sessionUser).
        by rewrite Hlimit. }
      eexists. split; [done|]. left. by split. }
  destruct reqJson as [data|].
  2:{ assert (POST ext (Some sessionUser) None w = (Returned genericFailure, w1)) as ->.
      { unfold POST, tryCatch. unfold bind at 1. fold (chatbotKey sessionUser).
        by rewrite Hlimit. }
      eexists. split; [done|]. left. by split. }
  destruct (messageSchemaParse_cases ext data w1) as [Hparse|(first & rest & Hparse)].
  2:{ assert (POST ext (Some sessionUser) (Some data) w
              = (Returned (apiError first 400), w1)) as ->.
      { unfold POST, tryCatch. unfold bind at 1. fold (chatbotKey sessionUser).
        rewrite Hlimit. cbv beta iota delta [negb].
        unfold bind at 1. unfold ret at 1. cbv beta iota.
        unfold bind at 1. by rewrite Hparse. }
      eexists. split; [done|]. left. by split. }
  rewrite (POST_accepted ext sessionUser data w w1 Hlimit Hparse). cbv zeta.
  assert (∃ conversationId w2,
            (if falsy (MessageData.conversationId data)
             then createConversation ext (SessionUser.id sessionUser) None
             else ret (default "" (MessageData.conversationId data))) w1
            = (Returned conversationId, w2)
            ∧ chatbotMessage w2 = chatbotMessage w
            ∧ trainingDocument w2 = trainingDocument w)
    as (conversationId & w2 & -> & Hmsg2 & Hdocs2).
  { destruct (falsy (MessageData.conversationId data)); by eexists _, _. }
  rewrite generateChatbotResponse_run. cbv zeta.
  destruct (falsy (ANTHROPIC_API_KEY ext)).
  { eexists. split; [done|]. left. by split. }
  destruct (chatbotConversation w2 !! conversationId) as [conversation|].
  2:{ eexists. split; [done|]. left. by split. }
  destruct (negb (bool_decide (ChatbotConversation.userId conversation
                               = SessionUser.id sessionUser))).
  { eexists. split; [done|]. left. by split. }
  rewrite Hdocs2.
  destruct (messagesCreate ext _) as [[|[text|type] rest]|error].
  - eexists. split; [done|]. left. by split.
  - unfold saveMessages. destruct (createManyFails ext).
    + eexists. split; [done|]. left. by split.
    + eexists. split; [done|]. right.
      eexists data, conversationId, text, _. repeat split. simpl. by rewrite Hmsg2.
  - unfold saveMessages. destruct (createManyFails ext).
    + eexists. split; [done|]. left. by split.
    + eexists. split; [done|]. right.
      eexists data, conversationId, "", _. repeat split. simpl. by rewrite Hmsg2.
  - destruct (classifyProviderError_message error) as [message ->].
    eexists. split; [done|]. left. by split.
Qed.

(** A first message, one without a conversation id: the handler creates a
    conversation owned by the sender, and this conversation stays in the
    store whatever happens afterwards.  Without the provider credential
    the answer is the generic failure and nothing else has happened; with
    it the calls that follow are the lookup of the new conversation, the
    search of the documents and one call of [anthropic.messages.create],
    and after them at most the append of the turn pair. *)
Theorem POST_first_message (ext : Externals) (sessionUser : SessionUser.t)
    (data : MessageData.t) (w : World) :
  fst (rateLimit ext (chatbotKey sessionUser) 30 60000 w) = Returned true →
  validMessage ext data →
  MessageData.conversationId data = None →
  let run := POST ext (Some sessionUser) (Some data) w in
  chatbotConversation (snd run)
  = <[newConversationId ext :=
        {| ChatbotConversation.userId := SessionUser.id sessionUser;
           ChatbotConversation.title := "New Conversation" |}]> (chatbotConversation w)
  ∧ if falsy (ANTHROPIC_API_KEY ext)
    then fst run = Returned genericFailure
         ∧ newEvents w (snd run) = [CreateConversation (SessionUser.id sessionUser)]
    else ∃ request rest,
           newEvents w (snd run)
           = [CreateConversation (SessionUser.id sessionUser);
              FindConversation (newConversationId ext);
              FindDocuments;
              CallProvider request] ++ rest
           ∧ (rest = [] ∨ rest = [CreateMessages (newConversationId ext)]).
Proof.
  intros Hlimit Hvalid Hnone run. subst run.
  destruct (rateLimit_tables ext (chatbotKey sessionUser) 30 60000 w)
    as (canProceed & w1 & Hrun & Hlog & _ & _ & Hconv).
  rewrite Hrun in Hlimit. cbn [fst] in Hlimit. injection Hlimit as ->.
  rewrite (POST_accepted ext sessionUser data w w1 Hrun
             (messageSchemaParse_valid ext data w1 Hvalid)).
  cbv zeta. rewrite Hnone. cbn [falsy]. unfold createConversation. cbv zeta. cbn [falsy].
  rewrite generateChatbotResponse_run. cbv zeta.
  destruct (falsy (ANTHROPIC_API_KEY ext)).
  { cbn [fst snd]. split; [simpl; by rewrite Hconv|].
    split; [done|]. apply newEvents_app. simpl. by rewrite Hlog. }
  cbn [chatbotConversation logEvent]. rewrite lookup_insert_eq.
  cbn [ChatbotConversation.userId]. rewrite bool_decide_eq_true_2 by done.
  cbn [negb].
  destruct (messagesCreate ext _) as [[|[text|type] rest]|error].
  - cbn [fst snd]. split; [simpl; by rewrite Hconv|].
    eexists _, []. split; [|by left].
    apply newEvents_app. simpl. rewrite Hlog. by rewrite <- !app_assoc.
  - unfold saveMessages.
    destruct (createManyFails ext); cbn [fst snd];
      (split; [simpl; by rewrite Hconv|]);
      (eexists _, [CreateMessages (newConversationId ext)]; split; [|by right]);
      apply newEvents_app; simpl; rewrite Hlog; by rewrite <- !app_assoc.
  - unfold saveMessages.
    destruct (createManyFails ext); cbn [fst snd];
      (split; [simpl; by rewrite Hconv|]);
      (eexists _, [CreateMessages (newConversationId ext)]; split; [|by right]);
      apply newEvents_app; simpl; rewrite Hlog; by rewrite <- !app_assoc.
  - destruct (classifyProviderError_message error) as [message ->].
    cbn [fst snd]. split; [simpl; by rewrite Hconv|].
    eexists _, []. split; [|by left].
    apply newEvents_app. simpl. rewrite Hlog. by rewrite <- !app_assoc.
Qed.

Lemma POST_first_message_witness :
  let ext := sampleExternals None (Responds [TextBlock "hello"]) false in
  let run := POST ext sampleSession (firstMessage "What about injury?") sampleWorld in
  fst run = Returned genericFailure
  ∧ is_Some (chatbotConversation (snd run) !! newConversationId ext).
Proof.
  intros ext run.
  destruct (POST_first_message ext (SessionUser.mk "u1")
              {| MessageData.conversationId := None;
                 MessageData.message := "What about injury?" |} sampleWorld)
    as (Hconv & Hfail & _).
  - vm_compute. reflexivity.
  - split; [exact I|]. vm_compute. split.
    + apply le_n_S, Nat.le_0_l.
    + repeat constructor.
  - reflexivity.
  - split; [exact Hfail|]. subst run. unfold sampleSession, firstMessage.
    rewrite Hconv. rewrite lookup_insert_eq. by eexists.
Defined.

(** ** The turn pair and the provider *)

Lemma generateChatbotResponse_stores (ext : Externals)
    (userId conversationId userMessage : string) (w : World) :
  let run := generateChatbotResponse ext userId conversationId userMessage w in
  trainingDocument (snd run) = trainingDocument w
  ∧ chatbotConversation (snd run) = chatbotConversation w.
Proof.
  intros run. subst run. rewrite generateChatbotResponse_run. cbv zeta.
  destruct (falsy (ANTHROPIC_API_KEY ext)); [done|].
  destruct (chatbotConversation w !! conversationId) as [conversation|]; [|done].
  by destruct (negb (bool_decide (ChatbotConversation.userId conversation = userId))).
Qed.

(** The documents and the conversations after a run of the route handler:
    the documents are as before, and so are the conversations, but for
    the one row that is created for a message without a conversation
    id. *)
Lemma POST_stores (ext : Externals) (session : option SessionUser.t)
    (reqJson : option MessageData.t) (w : World) :
  let run := POST ext session reqJson w in
  trainingDocument (snd run) = trainingDocument w
  ∧ (chatbotConversation (snd run) = chatbotConversation w
     ∨ ∃ sessionUser data,
      session = Some sessionUser
      ∧ reqJson = Some data
      ∧ falsy (MessageData.conversationId data) = true
      ∧ chatbotConversation (snd run)
        = <[newConversationId ext :=
              {| ChatbotConversation.userId := SessionUser.id sessionUser;
                 ChatbotConversation.title := "New Conversation" |}]> (chatbotConversation w)).
Proof.
  intros run. subst run.
  destruct session as [sessionUser|]; [|by split; [|left]].
  destruct (rateLimit_tables ext ("chatbot:" +:+ SessionUser.id sessionUser) 30 60000 w)
    as (canProceed & w1 & Hrun & _ & _ & Hdocs & Hconv).
  destruct canProceed.
  2:{ assert (snd (POST ext (Some sessionUser) reqJson w) = w1) as ->.
      { unfold POST, tryCatch. unfold bind at 1. by rewrite Hrun. }
      split; [exact Hdocs|left; exact Hconv]. }
  destruct reqJson as [data|].
  2:{ assert (snd (POST ext (Some sessionUser) None w) = w1) as ->.
      { unfold POST, tryCatch. unfold bind at 1. by rewrite Hrun. }
      split; [exact Hdocs|left; exact Hconv]. }
  destruct (messageSchemaParse_cases ext data w1) as [Hvalid|(first & rest & Hinvalid)].
  2:{ assert (snd (POST ext (Some sessionUser) (Some data) w) = w1) as ->.
      { unfold POST, tryCatch. unfold bind at 1. rewrite Hrun.
        cbv beta iota delta [negb]. unfold bind at 1. unfold ret at 1. cbv beta iota.
        unfold bind at 1. by rewrite Hinvalid. }
      split; [exact Hdocs|left; exact Hconv]. }
  rewrite (POST_accepted ext sessionUser data w w1 Hrun Hvalid). cbv zeta.
  assert (∀ conversationId w2,
            let w' :=
              snd match generateChatbotResponse ext (SessionUser.id sessionUser)
                          conversationId (MessageData.message data) w2 with
                  | (Returned generated, w3) =>
                      match saveMessages ext conversationId (MessageData.message data)
                              (GenerateResult.response generated)
                              (Some (GenerateResult.sources generated)) w3 with
                      | (Returned _, w4) =>
                          (Returned (apiResponse (ReplyBody conversationId
                                                    (GenerateResult.response generated)
                                                    (GenerateResult.sources generated))),
                           w4)
                      | (Threw e, w4) =>
                          match e with
                          | ZodError first _ => (Returned (apiError first 400), w4)
                          | _ => (Returned genericFailure, w4)
                          end
                      end
                  | (Threw e, w3) =>
                      match e with
                      | ZodError first _ => (Returned (apiError first 400), w3)
                      | _ => (Returned genericFailure, w3)
                      end
                  end in
            trainingDocument w' = trainingDocument w2
            ∧ chatbotConversation w' = chatbotConversation w2) as Hrest.
  { intros conversationId w2.
    pose proof (generateChatbotResponse_stores ext (SessionUser.id sessionUser)
                  conversationId (MessageData.message data) w2) as Hgen.
    cbv zeta in Hgen.
    destruct (generateChatbotResponse ext (SessionUser.id sessionUser) conversationId
                (MessageData.message data) w2) as [[generated|e] w3]; cbn [snd] in Hgen.
    - unfold saveMessages. destruct (createManyFails ext); cbn [snd]; simpl; done.
    - by destruct e. }
  destruct (falsy (MessageData.conversationId data)) eqn:Hfirst.
  - unfold createConversation. cbv zeta.
    match goal with
    | |- context [generateChatbotResponse _ _ ?c _ ?w2] =>
        destruct (Hrest c w2) as [Hd Hc]
    end.
    split; [by rewrite Hd|]. right. exists sessionUser, data.
    split; [done|]. split; [done|]. split; [done|]. rewrite Hc. simpl. by rewrite Hconv.
  - unfold ret.
    match goal with
    | |- context [generateChatbotResponse _ _ ?c _ ?w2] =>
        destruct (Hrest c w2) as [Hd Hc]
    end.
    split; [by rewrite Hd|]. left. by rewrite Hc.
Qed.

(** C7 (as amended): when generation succeeds and the append of the turn
    pair fails, the handler has called [anthropic.messages.create] exactly
    once, and not again after the append; no message is stored, the
    documents are as before, and so are the conversations but for the row
    that a message without a conversation id has created; the answer is
    the generic failure with status 500.  In every run the handler calls
    [anthropic.messages.create] at most once, and the stored messages
    change only by the turn pair that is appended after the provider has
    answered. *)
Theorem append_failure_after_generation (ext : Externals)
    (session : option SessionUser.t) (reqJson : option MessageData.t) (w : World) :
  let run := POST ext session reqJson w in
  (∀ request block rest,
     CallProvider request ∈ newEvents w (snd run) →
     messagesCreate ext request = Responds (block :: rest) →
     createManyFails ext = true →
     providerCalls (newEvents w (snd run)) = 1%nat
     ∧ (∃ before conversationId,
          newEvents w (snd run)
          = before ++ [CallProvider request; CreateMessages conversationId]
          ∧ providerCalls before = 0%nat)
     ∧ fst run = Returned (apiError "Failed to process message" 500)
     ∧ chatbotMessage (snd run) = chatbotMessage w
     ∧ trainingDocument (snd run) = trainingDocument w
     ∧ (chatbotConversation (snd run) = chatbotConversation w
        ∨ ∃ sessionUser data,
            session = Some sessionUser
            ∧ reqJson = Some data
            ∧ falsy (MessageData.conversationId data) = true
            ∧ chatbotConversation (snd run)
              = <[newConversationId ext :=
                    {| ChatbotConversation.userId := SessionUser.id sessionUser;
                       ChatbotConversation.title := "New Conversation" |}]>
                  (chatbotConversation w)))
  ∧ (providerCalls (newEvents w (snd run)) ≤ 1)%nat
  ∧ (chatbotMessage (snd run) = chatbotMessage w
     ∨ ∃ before request conversationId block rest userRow assistantRow,
         newEvents w (snd run)
         = before ++ [CallProvider request; CreateMessages conversationId]
         ∧ providerCalls before = 0%nat
         ∧ messagesCreate ext request = Responds (block :: rest)
         ∧ chatbotMessage (snd run) = chatbotMessage w ++ [userRow; assistantRow]).
Proof.
  intros run. subst run.
  pose proof (POST_stores ext session reqJson w) as [Hdocs Hconv]. cbv zeta in Hdocs, Hconv.
  destruct (POST_run ext session reqJson w) as (response & w' & Hrun & Hshape).
  rewrite Hrun in *. cbn [fst snd] in *.
  destruct Hshape as [Hcalls Hmsg
                     |before request' Hnew Hcalls Hfail Hmsg ->
                     |before request' cid block' rest' Hnew Hcalls Hok Hstore Hmsg ->
                     |before request' cid block' rest' userRow assistantRow
                        Hnew Hcalls Hok Hstore Hmsg Hstatus].
  - split; [|split; [lia|by left]].
    intros request block rest Hin. by apply providerCalls_0 in Hin.
  - assert (providerCalls (newEvents w w') = 1%nat) as Hone.
    { rewrite Hnew, providerCalls_app, Hcalls. reflexivity. }
    split; [|split; [lia|by left]].
    intros request block rest Hin Hresponds _. exfalso.
    rewrite Hnew in Hin. apply elem_of_app in Hin as [Hin|Hin].
    { by apply providerCalls_0 with (request := request) in Hcalls. }
    apply list_elem_of_singleton in Hin. injection Hin as ->.
    destruct Hfail as [Hfail|[error Hfail]]; congruence.
  - assert (providerCalls (newEvents w w') = 1%nat) as Hone.
    { rewrite Hnew, providerCalls_app, Hcalls. reflexivity. }
    split; [|split; [lia|by left]].
    intros request block rest Hin _ _.
    assert (request = request') as ->.
    { rewrite Hnew in Hin. apply elem_of_app in Hin as [Hin|Hin].
      { by apply providerCalls_0 with (request := request) in Hcalls. }
      apply elem_of_cons in Hin as [Hin|Hin]; [by injection Hin|].
      apply list_elem_of_singleton in Hin. discriminate. }
    split; [done|]. split; [by exists before, cid|]. done.
  - assert (providerCalls (newEvents w w') = 1%nat) as Hone.
    { rewrite Hnew, providerCalls_app, Hcalls. reflexivity. }
    split; [|split; [lia|]].
    + intros request block rest _ _ Hfails. congruence.
    + right. by exists before, request', cid, block', rest', userRow, assistantRow.
Qed.

Lemma append_failure_after_generation_witness :
  let ext := sampleExternals (Some "sk-key") (Responds [TextBlock "hello"]) true in
  let run := POST ext sampleSession (sampleBody "What about injury?") sampleWorld in
  createManyFails ext = true
  ∧ providerCalls (newEvents sampleWorld (snd run)) = 1%nat
  ∧ fst run = Returned (apiError "Failed to process message" 500)
  ∧ chatbotMessage (snd run) = chatbotMessage sampleWorld.
Proof.
  intros ext run. split; [reflexivity|].
  destruct (append_failure_after_generation ext sampleSession
              (sampleBody "What about injury?") sampleWorld) as (Hscenario & _).
  destruct (Hscenario
              (buildRequest (searchKnowledgeBase injuryCorpus "What about injury?")
                            (messagesOf sampleConversationId 10 elevenTurns)
                            "What about injury?")
              (TextBlock "hello") []) as (Hone & _ & Hanswer & Hmessages & _).
  - vm_compute. right. right. left.
  - reflexivity.
  - reflexivity.
  - split; [exact Hone|]. split; [exact Hanswer|]. exact Hmessages.
Defined.

(** C7 (as stated) fails: the answer to a failed append is the answer to a
    failed generation; nothing in it tells a persistence error apart. *)
Lemma append_failure_not_distinct :
  let body := sampleBody "What about injury?" in
  let appendFails := sampleExternals (Some "sk-key") (Responds [TextBlock "hello"]) true in
  let providerFails := sampleExternals (Some "sk-key") (Rejects (APIError None)) false in
  providerCalls (newEvents sampleWorld (snd (POST appendFails sampleSession body sampleWorld)))
  = 1%nat
  ∧ fst (POST appendFails sampleSession body sampleWorld) = Returned genericFailure
  ∧ fst (POST appendFails sampleSession body sampleWorld)
    = fst (POST providerFails sampleSession body sampleWorld).
Proof. repeat split; vm_compute; reflexivity. Qed.

(** ** Validation utilities *)

Example password_strength_ex :
  getPasswordStrength "abc"
  = {| PasswordStrength.score := 1;
       PasswordStrength.feedback :=
         ["Use at least 8 characters"; "Include uppercase letters";
          "Include numbers"; "Include special characters"] |}.
Proof. reflexivity. Qed.

Example sanitizeFilename_ex : sanitizeFilename "../my  file__(1).txt" = ".._my_file_1_.txt".
Proof. vm_compute. reflexivity. Qed.

(** The score counts the tests that hold and the feedback lists the tests
    that fail: the score lies between 0 and 6, and score and number of
    advices add up to 5, or to 6 for a password of 12 characters or more
    (the test of that length has no advice).  The password passes
    [validatePassword] exactly when the feedback holds at most the advice
    about special characters, and then the score is at least 4. *)
Theorem getPasswordStrength_score (password : string) :
  let strength := getPasswordStrength password in
  0 ≤ PasswordStrength.score strength ≤ 6
  ∧ PasswordStrength.score strength
    + Z.of_nat (length (PasswordStrength.feedback strength))
    = (if (12 <=? String.length password)%nat then 6 else 5)
  ∧ (validatePassword password = true
     ↔ PasswordStrength.feedback strength = []
       ∨ PasswordStrength.feedback strength = ["Include special characters"])
  ∧ (validatePassword password = true → 4 ≤ PasswordStrength.score strength).
Proof.
  unfold getPasswordStrength, validatePassword, strengthStep. cbv zeta.
  destruct (12 <=? String.length password)%nat eqn:H12.
  - assert ((8 <=? String.length password)%nat = true) as ->.
    { apply Nat.leb_le. apply Nat.leb_le in H12. lia. }
    destruct (someChar isUpperAZ password), (someChar isLowerAZ password),
      (someChar isDigit password), (someChar (λ c, negb (isAlnum c)) password);
      simpl; repeat split; try lia; try discriminate; try tauto;
      try (intros [H|H]; discriminate H).
  - destruct (8 <=? String.length password)%nat,
      (someChar isUpperAZ password), (someChar isLowerAZ password),
      (someChar isDigit password), (someChar (λ c, negb (isAlnum c)) password);
      simpl; repeat split; try lia; try discriminate; try tauto;
      try (intros [H|H]; discriminate H).
Qed.

Lemma filename_char_kept (c : ascii) :
  isFilenameChar (if isFilenameChar c then c else "_"%char) = true.
Proof. destruct (isFilenameChar c) eqn:H; [done|reflexivity]. Qed.

Lemma collapseUnderscores_chars (p : ascii → bool) (s : string) :
  ∀ inRun, allChars p s = true → allChars p (collapseUnderscores inRun s) = true.
Proof.
  induction s as [|c s IH]; intros inRun; simpl; [done|].
  rewrite andb_true_iff. intros [Hc Hs].
  case_bool_decide; [destruct inRun|]; simpl; rewrite ?Hc; by apply IH.
Qed.

Lemma collapseUnderscores_single (s : string) :
  ∀ inRun, noDoubleUnderscore inRun (collapseUnderscores inRun s) = true.
Proof.
  induction s as [|c s IH]; intros inRun; simpl; [done|].
  case_bool_decide as Hc.
  - destruct inRun; [apply IH|]. simpl. rewrite bool_decide_eq_true_2 by done. apply IH.
  - simpl. rewrite bool_decide_eq_false_2 by done. apply IH.
Qed.

Lemma substring0_chars (p : ascii → bool) (n : nat) :
  ∀ s, allChars p s = true → allChars p (substring0 n s) = true.
Proof.
  induction n as [|n IH]; intros [|c s]; simpl; try done.
  rewrite !andb_true_iff. intros [Hc Hs]. split; [done|by apply IH].
Qed.

Lemma substring0_single (n : nat) :
  ∀ s inRun, noDoubleUnderscore inRun s = true →
             noDoubleUnderscore inRun (substring0 n s) = true.
Proof.
  induction n as [|n IH]; intros [|c s] inRun; simpl; try done.
  case_bool_decide; [|by apply IH].
  rewrite !andb_true_iff. intros [Hrun Hs]. split; [done|by apply IH].
Qed.

Lemma substring0_all (n : nat) :
  ∀ s, (String.length s ≤ n)%nat → substring0 n s = s.
Proof.
  induction n as [|n IH]; intros [|c s]; simpl; try done; [lia|].
  intros Hlen. rewrite IH; [done|lia].
Qed.

Lemma filename_chars_fixed (s : string) :
  allChars isFilenameChar s = true →
  mapChars (λ c, if isFilenameChar c then c else "_"%char) s = s.
Proof.
  induction s as [|c s IH]; simpl; [done|].
  rewrite andb_true_iff. intros [-> Hs]. by rewrite IH.
Qed.

Lemma collapseUnderscores_fixed (s : string) :
  ∀ inRun, noDoubleUnderscore inRun s = true → collapseUnderscores inRun s = s.
Proof.
  induction s as [|c s IH]; intros inRun; simpl; [done|].
  case_bool_decide.
  - rewrite andb_true_iff. intros [Hrun Hs]. destruct inRun; [done|]. by rewrite IH.
  - intros Hs. by rewrite IH.
Qed.

(** A sanitized file name is made of letters, digits, dots, underscores
    and hyphens only (so it holds no path separator), has no two
    underscores in a row and at most 255 characters; a name that is
    already of this form is returned as it is, so sanitizing twice is
    sanitizing once. *)
Theorem sanitizeFilename_normal (filename : string) :
  allChars isFilenameChar (sanitizeFilename filename) = true
  ∧ noDoubleUnderscore false (sanitizeFilename filename) = true
  ∧ (String.length (sanitizeFilename filename) ≤ 255)%nat
  ∧ sanitizeFilename (sanitizeFilename filename) = sanitizeFilename filename
  ∧ (allChars isFilenameChar filename = true →
     noDoubleUnderscore false filename = true →
     (String.length filename ≤ 255)%nat →
     sanitizeFilename filename = filename).
Proof.
  assert (∀ name, allChars isFilenameChar name = true →
                  noDoubleUnderscore false name = true →
                  (String.length name ≤ 255)%nat →
                  sanitizeFilename name = name) as Hfixed.
  { intros name Hchars Hsingle Hlen. unfold sanitizeFilename.
    rewrite filename_chars_fixed, collapseUnderscores_fixed by done.
    by apply substring0_all. }
  assert (allChars isFilenameChar (sanitizeFilename filename) = true) as Hchars.
  { unfold sanitizeFilename.
    apply substring0_chars, collapseUnderscores_chars.
    induction filename as [|c s IH]; simpl; [done|].
    by rewrite filename_char_kept, IH. }
  assert (noDoubleUnderscore false (sanitizeFilename filename) = true) as Hsingle.
  { unfold sanitizeFilename. apply substring0_single, collapseUnderscores_single. }
  assert (String.length (sanitizeFilename filename) ≤ 255)%nat as Hlen.
  { unfold sanitizeFilename. apply substring0_length. }
  split; [done|]. split; [done|]. split; [done|].
  split; [by apply Hfixed|exact (Hfixed filename)].
Qed.

Lemma sanitizeFilename_normal_witness :
  sanitizeFilename "report_2024-final.pdf" = "report_2024-final.pdf".
Proof.
  apply (sanitizeFilename_normal "report_2024-final.pdf"); vm_compute;
    first [reflexivity | repeat constructor].
Defined.

Example sanitizeString_ex : sanitizeString "  a
   b  c " = "a b c".
Proof. reflexivity. Qed.

Arguments isWhiteSpace : simpl never.

Lemma trimStart_clean (s : string) : startsClean (trimStart s) = true.
Proof.
  induction s as [|c s IH]; simpl; [done|].
  destruct (isWhiteSpace c) eqn:Hc; [done|]. simpl. by rewrite Hc.
Qed.

Lemma trimEnd_starts (s : string) : startsClean s = true → startsClean (trimEnd s) = true.
Proof.
  destruct s as [|c s]; simpl; [done|].
  destruct (isWhiteSpace c) eqn:Hc; [done|]. intros _.
  destruct (trimEnd s); simpl; by rewrite Hc.
Qed.

Lemma trimEnd_clean (s : string) : endsClean (trimEnd s) = true.
Proof.
  induction s as [|c s IH]; simpl; [done|].
  destruct (trimEnd s) as [|d t]; [|done].
  destruct (isWhiteSpace c) eqn:Hc; simpl; [done|by rewrite Hc].
Qed.

Lemma collapseWhiteSpace_nonempty (s : string) :
  ∀ inRun, s ≠ EmptyString → endsClean s = true →
           collapseWhiteSpace inRun s ≠ EmptyString.
Proof.
  induction s as [|c s IH]; intros inRun Hne Hs; [done|].
  destruct s as [|d s].
  - simpl in *. destruct (isWhiteSpace c); done.
  - change (endsClean (String c (String d s))) with (endsClean (String d s)) in Hs.
    change (collapseWhiteSpace inRun (String c (String d s)))
      with (if isWhiteSpace c
            then (if inRun then collapseWhiteSpace true (String d s)
                  else String " " (collapseWhiteSpace true (String d s)))
            else String c (collapseWhiteSpace false (String d s))).
    destruct (isWhiteSpace c); [destruct inRun|]; try done.
    by apply IH.
Qed.

Lemma endsClean_cons (c : ascii) (s : string) :
  s ≠ EmptyString → endsClean (String c s) = endsClean s.
Proof. by destruct s. Qed.

Lemma collapseWhiteSpace_ends (s : string) :
  ∀ inRun, endsClean s = true → endsClean (collapseWhiteSpace inRun s) = true.
Proof.
  induction s as [|c s IH]; intros inRun Hs; [done|].
  destruct s as [|d s].
  - simpl in *. destruct (isWhiteSpace c) eqn:Hc; [done|]. simpl. by rewrite Hc.
  - change (endsClean (String c (String d s))) with (endsClean (String d s)) in Hs.
    change (collapseWhiteSpace inRun (String c (String d s)))
      with (if isWhiteSpace c
            then (if inRun then collapseWhiteSpace true (String d s)
                  else String " " (collapseWhiteSpace true (String d s)))
            else String c (collapseWhiteSpace false (String d s))).
    destruct (isWhiteSpace c); [destruct inRun|];
      rewrite ?endsClean_cons by (by apply collapseWhiteSpace_nonempty);
      by apply IH.
Qed.

Lemma collapseWhiteSpace_starts (s : string) :
  startsClean s = true → startsClean (collapseWhiteSpace false s) = true.
Proof.
  destruct s as [|c s]; simpl; [done|].
  destruct (isWhiteSpace c) eqn:Hc; [done|]. simpl. by rewrite Hc.
Qed.

Lemma collapseWhiteSpace_single (s : string) :
  ∀ inRun, singleSpaced inRun (collapseWhiteSpace inRun s) = true.
Proof.
  induction s as [|c s IH]; intros inRun; simpl; [done|].
  destruct (isWhiteSpace c) eqn:Hc.
  - destruct inRun; [apply IH|]. simpl. apply IH.
  - simpl. rewrite Hc. apply IH.
Qed.

Lemma trimStart_fixed (s : string) : startsClean s = true → trimStart s = s.
Proof. destruct s as [|c s]; simpl; [done|]. by destruct (isWhiteSpace c). Qed.

Lemma trimEnd_fixed (s : string) : endsClean s = true → trimEnd s = s.
Proof.
  induction s as [|c s IH]; intros Hs; [done|].
  destruct s as [|d s].
  - simpl in *. by destruct (isWhiteSpace c).
  - change (endsClean (String c (String d s))) with (endsClean (String d s)) in Hs.
    change (trimEnd (String c (String d s)))
      with (match trimEnd (String d s) with
            | EmptyString => if isWhiteSpace c then EmptyString else String c EmptyString
            | rest => String c rest
            end).
    by rewrite IH.
Qed.

Lemma collapseWhiteSpace_fixed (s : string) :
  ∀ inRun, singleSpaced inRun s = true → collapseWhiteSpace inRun s = s.
Proof.
  induction s as [|c s IH]; intros inRun; simpl; [done|].
  destruct (isWhiteSpace c).
  - rewrite !andb_true_iff, bool_decide_eq_true. intros [[-> Hrun] Hs].
    destruct inRun; [done|]. by rewrite IH.
  - intros Hs. by rewrite IH.
Qed.

Lemma visibleChars_trimStart (s : string) : visibleChars (trimStart s) = visibleChars s.
Proof.
  induction s as [|c s IH]; simpl; [done|].
  destruct (isWhiteSpace c) eqn:Hc; [done|]. simpl. by rewrite Hc.
Qed.

Lemma visibleChars_trimEnd (s : string) : visibleChars (trimEnd s) = visibleChars s.
Proof.
  induction s as [|c s IH]; simpl; [done|].
  destruct (trimEnd s) as [|d t].
  - simpl in IH. rewrite <- IH.
    destruct (isWhiteSpace c) eqn:Hc; [done|]. simpl. by rewrite Hc.
  - rewrite <- IH. reflexivity.
Qed.

Lemma visibleChars_collapse (s : string) :
  ∀ inRun, visibleChars (collapseWhiteSpace inRun s) = visibleChars s.
Proof.
  induction s as [|c s IH]; intros inRun; simpl; [done|].
  destruct (isWhiteSpace c) eqn:Hc.
  - destruct inRun; [apply IH|]. simpl. apply IH.
  - simpl. by rewrite Hc, IH.
Qed.

(** A sanitized string has no white space at its start or its end, no
    white space other than the space character and no two spaces in a
    row; its characters that are not white space are those of the input,
    in the same order; and a string of this form is left as it is, so
    sanitizing twice is sanitizing once. *)
Theorem sanitizeString_normal (str : string) :
  startsClean (sanitizeString str) = true
  ∧ endsClean (sanitizeString str) = true
  ∧ singleSpaced false (sanitizeString str) = true
  ∧ visibleChars (sanitizeString str) = visibleChars str
  ∧ sanitizeString (sanitizeString str) = sanitizeString str.
Proof.
  assert (startsClean (sanitizeString str) = true) as Hstart.
  { apply collapseWhiteSpace_starts, trimEnd_starts, trimStart_clean. }
  assert (endsClean (sanitizeString str) = true) as Hend.
  { apply collapseWhiteSpace_ends, trimEnd_clean. }
  assert (singleSpaced false (sanitizeString str) = true) as Hsingle.
  { apply collapseWhiteSpace_single. }
  split; [done|]. split; [done|]. split; [done|]. split.
  - unfold sanitizeString, trim.
    by rewrite visibleChars_collapse, visibleChars_trimEnd, visibleChars_trimStart.
  - unfold sanitizeString at 1. unfold trim.
    rewrite trimStart_fixed, trimEnd_fixed by done.
    by apply collapseWhiteSpace_fixed.
Qed.

(** ** The error classes and [handleError] *)

Lemma issueDetails_snoc (issues : list ZodIssue.t) (err : ZodIssue.t) :
  issueDetails (issues ++ [err])
  = match ZodIssue.path err with
    | [] => issueDetails issues
    | first :: _ =>
        if bool_decide (pathName first = "__proto__") then issueDetails issues
        else <[pathName first := ZodIssue.message err]> (issueDetails issues)
    end.
Proof. unfold issueDetails. by rewrite foldl_snoc. Qed.

(** The details of a validation response: under each name other than
    [__proto__] stands the message of the last issue whose path starts
    with that name; issues with an empty path leave no trace, and neither
    do issues under the name [__proto__], which a plain object does not
    take as a property. *)
Theorem issueDetails_last (issues : list ZodIssue.t) (key : string) :
  issueDetails issues !! key
  = if bool_decide (key = "__proto__") then None else lastIssueFor key issues.
Proof.
  unfold lastIssueFor.
  induction issues as [|err issues IH] using rev_ind; [by case_bool_decide|].
  rewrite issueDetails_snoc, List.filter_app. simpl.
  destruct (ZodIssue.path err) as [|first rest].
  - by rewrite app_nil_r.
  - destruct (bool_decide (pathName first = "__proto__")) eqn:Hproto.
    + apply bool_decide_eq_true in Hproto. rewrite IH.
      case_bool_decide as Hkey; [done|].
      rewrite (bool_decide_eq_false_2 (pathName first = key)) by congruence.
      by rewrite app_nil_r.
    + apply bool_decide_eq_false in Hproto.
      destruct (bool_decide (pathName first = key)) eqn:Hkey.
      * apply bool_decide_eq_true in Hkey. subst key.
        rewrite last_snoc, lookup_insert_eq. simpl.
        by rewrite bool_decide_eq_false_2.
      * apply bool_decide_eq_false in Hkey.
        rewrite app_nil_r, lookup_insert_ne by done. exact IH.
Qed.

Example issueDetails_proto :
  issueDetails [ZodIssue.mk [PathKey "__proto__"] "Required";
                ZodIssue.mk [PathKey "email"; PathIndex 0] "Invalid email address"]
  = {[ "email" := "Invalid email address" ]}.
Proof. reflexivity. Qed.

(** An error that is neither a validation error nor an [AppError] is
    answered with one of four fixed texts and without details, whatever
    its own message is.  A known request error of Prisma with code P2002
    is answered 409, one with code P2025 is answered 404 and one with
    another code 500; every other error is answered 500. *)
Theorem handleError_hides_message (name message : string) (code : option string) :
  let response := handleError (OtherError name message code) in
  let known := name = "PrismaClientKnownRequestError" in
  response = handleError (OtherError name "" code)
  ∧ ErrorBody.error (ErrorResponse.body response) ∈ fixedErrorTexts
  ∧ ErrorBody.details (ErrorResponse.body response) = None
  ∧ (known ∧ code = Some "P2002" →
     ErrorResponse.status response = 409
     ∧ ErrorBody.error (ErrorResponse.body response)
       = "A record with this value already exists")
  ∧ (known ∧ code = Some "P2025" →
     ErrorResponse.status response = 404
     ∧ ErrorBody.error (ErrorResponse.body response) = "Record not found")
  ∧ (known ∧ code ≠ Some "P2002" ∧ code ≠ Some "P2025" →
     ErrorResponse.status response = 500
     ∧ ErrorBody.error (ErrorResponse.body response) = "Database error occurred")
  ∧ (¬ known →
     ErrorResponse.status response = 500
     ∧ ErrorBody.error (ErrorResponse.body response) = "An unexpected error occurred").
Proof.
  intros response known. subst response known.
  unfold handleError, fixedErrorTexts.
  repeat case_bool_decide; simpl; repeat split; try done;
    try (rewrite !elem_of_cons; tauto); try tauto; try congruence;
    intros; exfalso; intuition congruence.
Qed.

(** For validation errors and [AppError]s the two renderings agree:
    [formatErrorForClient] gives the body of the response of
    [handleError]; the response of an [AppError] made by one of the
    classes has the status of its class. *)
Theorem handleError_formatErrorForClient (error : ErrorValue) :
  (∀ name message code, error ≠ OtherError name message code) →
  error ≠ NoError →
  ErrorResponse.body (handleError error) = formatErrorForClient error
  ∧ ∀ message,
      ErrorResponse.status (handleError (AppErrorValue (newValidationError message None)))
      = 400
      ∧ ErrorResponse.status (handleError (AppErrorValue (newAuthenticationError None)))
        = 401
      ∧ ErrorResponse.status (handleError (AppErrorValue (newAuthorizationError None)))
        = 403
      ∧ ErrorResponse.status (handleError (AppErrorValue (newNotFoundError None))) = 404
      ∧ ErrorResponse.status (handleError (AppErrorValue (newConflictError message)))
        = 409
      ∧ ErrorResponse.status (handleError (AppErrorValue (newRateLimitError None))) = 429
      ∧ ErrorResponse.status (handleError (AppErrorValue (newInternalServerError None)))
        = 500.
Proof.
  intros Hother Hno. split; [|by intros message].
  destruct error as [issues|error|name message code|]; try done.
  by destruct (Hother name message code).
Qed.

Lemma handleError_formatErrorForClient_witness :
  ErrorResponse.body (handleError (AppErrorValue (newNotFoundError None)))
  = formatErrorForClient (AppErrorValue (newNotFoundError None)).
Proof.
  apply (handleError_formatErrorForClient (AppErrorValue (newNotFoundError None)));
    discriminate.
Defined.

(** ** CSRF protection *)

Lemma bufferFrom_inj (a b : string) :
  bufferFrom a = bufferFrom b → a = b.
Proof.
  revert b. induction a as [|c a IH]; intros [|d b]; cbn [bufferFrom].
  - done.
  - destruct (code d <? 128)%N; discriminate.
  - destruct (code c <? 128)%N; discriminate.
  - assert (c = d → bufferFrom a = bufferFrom b → String c a = String d b) as Hstep.
    { intros -> Hrest. by rewrite (IH b Hrest). }
    assert (code c = code d → c = d) as Hcode.
    { intros H. rewrite <- (Ascii.ascii_N_embedding c), <- (Ascii.ascii_N_embedding d).
      unfold code in H. by rewrite H. }
    destruct (code c <? 128)%N eqn:Hc, (code d <? 128)%N eqn:Hd; cbn [app]; intros H.
    + injection H as H Hrest. by apply Hstep; [apply Hcode|].
    + injection H as H _. apply N.ltb_lt in Hc. exfalso.
      generalize dependent (code d / 64)%N. intros q Hq. lia.
    + injection H as H _. apply N.ltb_lt in Hd. exfalso.
      generalize dependent (code c / 64)%N. intros q Hq. lia.
    + injection H as Hhigh Hlow Hrest. apply Hstep; [|done]. apply Hcode.
      rewrite (N.div_mod' (code c) 64), (N.div_mod' (code d) 64). lia.
Qed.

Lemma timingSafeEqual_iff (a b : string) : timingSafeEqual a b = Done true ↔ a = b.
Proof.
  unfold timingSafeEqual, cryptoTimingSafeEqual. split.
  - case_bool_decide as Hlen; simpl; [|discriminate].
    case_bool_decide as Hbytes; [|discriminate].
    case_bool_decide as Heq; [|discriminate].
    intros _. by apply bufferFrom_inj.
  - intros ->. rewrite bool_decide_eq_true_2 by done. simpl.
    by rewrite !bool_decide_eq_true_2.
Qed.

(** A request passes the check exactly when its method is GET, HEAD or
    OPTIONS, or when cookie and header carry the same token and this
    token is not empty. *)
Theorem verifyCsrfToken_passes (req : Request.t) (cookieStore : gmap string Cookie.t) :
  verifyCsrfToken req cookieStore = Done ()
  ↔ exemptMethod (Request.method req)
    ∨ ∃ token,
        token ≠ ""
        ∧ Cookie.value <$> cookieStore !! CSRF_COOKIE_NAME = Some token
        ∧ Request.headers req !! CSRF_HEADER_NAME = Some token.
Proof.
  unfold verifyCsrfToken, exemptMethod. cbv zeta.
  destruct (bool_decide (Request.method req = "GET")) eqn:Hget.
  { apply bool_decide_eq_true in Hget. simpl. split; [|done]. intros _. left. by left. }
  destruct (bool_decide (Request.method req = "HEAD")) eqn:Hhead.
  { apply bool_decide_eq_true in Hhead. simpl. split; [|done]. intros _. left. tauto. }
  destruct (bool_decide (Request.method req = "OPTIONS")) eqn:Hoptions.
  { apply bool_decide_eq_true in Hoptions. simpl. split; [|done]. intros _. left. tauto. }
  apply bool_decide_eq_false in Hget, Hhead, Hoptions. simpl.
  destruct (Cookie.value <$> cookieStore !! CSRF_COOKIE_NAME) as [cookieToken|]; simpl.
  2:{ split; [done|]. intros [H|(token & _ & H & _)]; [tauto|done]. }
  case_bool_decide as Hcookie.
  { split; [done|]. intros [H|(token & Hne & H & _)]; [tauto|]. congruence. }
  destruct (Request.headers req !! CSRF_HEADER_NAME) as [headerToken|]; simpl.
  2:{ split; [done|]. intros [H|(token & _ & _ & H)]; [tauto|done]. }
  case_bool_decide as Hheader.
  { split; [done|]. intros [H|(token & Hne & _ & H)]; [tauto|]. congruence. }
  pose proof (timingSafeEqual_iff cookieToken headerToken) as Hequal.
  destruct (timingSafeEqual cookieToken headerToken) as [[]|e]; simpl.
  - split; [|done]. intros _. right. exists cookieToken.
    split; [done|]. split; [done|]. f_equal. symmetry. by apply Hequal.
  - split; [done|]. intros [H|(token & _ & H1 & H2)]; [tauto|].
    injection H1 as ->. injection H2 as ->.
    by assert (Done false = Done true) by (by apply Hequal).
  - split; [done|]. intros [H|(token & _ & H1 & H2)]; [tauto|].
    injection H1 as ->. injection H2 as ->.
    by assert (@Raise bool e = Done true) by (by apply Hequal).
Qed.

Lemma hexDigit_lower (n : N) : (n < 16)%N → isLowerHex (hexDigit n) = true.
Proof.
  intros Hn.
  assert (n ∈ (N.of_nat <$> seq 0 16)) as Hin.
  { apply list_elem_of_fmap. exists (N.to_nat n). split; [lia|].
    apply list_elem_of_In, in_seq. lia. }
  simpl in Hin. repeat (apply elem_of_cons in Hin as [->|Hin]; [reflexivity|]).
  by apply elem_of_nil in Hin.
Qed.

Lemma toHex_chars (bytes : list N) :
  Forall (λ b, (b < 256)%N) bytes →
  allChars isLowerHex (toHex bytes) = true
  ∧ String.length (toHex bytes) = (2 * length bytes)%nat.
Proof.
  induction 1 as [|b bytes Hb Hbytes [IHchars IHlen]]; simpl; [done|].
  rewrite !hexDigit_lower, IHchars, IHlen; [split; [done|lia]| |].
  - apply N.mod_lt. lia.
  - apply N.Div0.div_lt_upper_bound. lia.
Qed.

Lemma verifyCsrfToken_same (req : Request.t) (cookieStore : gmap string Cookie.t)
    (token : string) :
  token ≠ "" →
  Cookie.value <$> cookieStore !! CSRF_COOKIE_NAME = Some token →
  Request.headers req !! CSRF_HEADER_NAME = Some token →
  verifyCsrfToken req cookieStore = Done ().
Proof.
  intros Hne Hcookie Hheader. unfold verifyCsrfToken. cbv zeta.
  destruct (_ || _); [done|]. rewrite Hcookie, Hheader. simpl.
  rewrite bool_decide_eq_false_2 by done.
  by rewrite (proj2 (timingSafeEqual_iff token token) eq_refl).
Qed.

(** The round trip of a token: whatever the cookie store holds, the token
    that [getCsrfToken] gives is afterwards in the cookie, is not empty,
    and a request that sends it in the header passes the check, with any
    method; a second call gives the same token and changes nothing.  A
    token that had to be made is made of 64 lowercase hexadecimal digits
    and sits in a cookie that scripts cannot read. *)
Theorem getCsrfToken_round_trip (production : bool) (randomBytes : nat → list N)
    (cookieStore : gmap string Cookie.t) (method : string)
    (headers : gmap string string) :
  length (randomBytes 32%nat) = 32%nat →
  Forall (λ b, (b < 256)%N) (randomBytes 32%nat) →
  let (token, cookieStore') := getCsrfToken production randomBytes cookieStore in
  token ≠ ""
  ∧ Cookie.value <$> cookieStore' !! CSRF_COOKIE_NAME = Some token
  ∧ verifyCsrfToken (Request.mk method (<[CSRF_HEADER_NAME := token]> headers))
                    cookieStore' = Done ()
  ∧ getCsrfToken production randomBytes cookieStore' = (token, cookieStore')
  ∧ (cookieStore' = cookieStore
     ∨ (allChars isLowerHex token = true
        ∧ String.length token = 64%nat
        ∧ Cookie.httpOnly <$> cookieStore' !! CSRF_COOKIE_NAME = Some true)).
Proof.
  intros Hlen Hbytes.
  destruct (getCsrfToken production randomBytes cookieStore) as [token cookieStore']
    eqn:Hget.
  assert (token ≠ ""
          ∧ Cookie.value <$> cookieStore' !! CSRF_COOKIE_NAME = Some token
          ∧ (cookieStore' = cookieStore
             ∨ (allChars isLowerHex token = true
                ∧ String.length token = 64%nat
                ∧ Cookie.httpOnly <$> cookieStore' !! CSRF_COOKIE_NAME = Some true)))
    as (Hne & Hcookie & Hnew).
  { unfold getCsrfToken in Hget. cbv zeta in Hget.
    destruct (Cookie.value <$> cookieStore !! CSRF_COOKIE_NAME) as [old|] eqn:Hold;
      simpl in Hget.
    - case_bool_decide as Hempty; injection Hget as <- <-.
      + destruct (toHex_chars _ Hbytes) as [Hchars Hhex].
        fold CSRF_TOKEN_LENGTH in Hhex, Hchars.
        change (toHex (randomBytes CSRF_TOKEN_LENGTH))
          with (generateCsrfToken randomBytes) in *.
        unfold CSRF_TOKEN_LENGTH in Hhex. rewrite Hlen in Hhex.
        rewrite lookup_insert_eq. split; [|split; [done|]].
        * intros H. by rewrite H in Hhex.
        * right. by split.
      + split; [done|]. split; [done|by left].
    - injection Hget as <- <-.
      destruct (toHex_chars _ Hbytes) as [Hchars Hhex].
      fold CSRF_TOKEN_LENGTH in Hhex, Hchars.
      change (toHex (randomBytes CSRF_TOKEN_LENGTH))
        with (generateCsrfToken randomBytes) in *.
      unfold CSRF_TOKEN_LENGTH in Hhex. rewrite Hlen in Hhex.
      rewrite lookup_insert_eq. split; [|split; [done|]].
      * intros H. by rewrite H in Hhex.
      * right. by split. }
  split; [done|]. split; [done|]. split; [|split; [|done]].
  - apply (verifyCsrfToken_same _ _ token); [done|done|]. simpl. apply lookup_insert_eq.
  - unfold getCsrfToken. cbv zeta. rewrite Hcookie. simpl.
    by rewrite bool_decide_eq_false_2.
Qed.

Lemma getCsrfToken_round_trip_witness :
  let randomBytes := λ n : nat, replicate n 171%N in
  let (token, cookieStore') := getCsrfToken true randomBytes ∅ in
  token ≠ ""
  ∧ Cookie.value <$> cookieStore' !! CSRF_COOKIE_NAME = Some token
  ∧ verifyCsrfToken (Request.mk "POST" (<[CSRF_HEADER_NAME := token]> ∅))
                    cookieStore' = Done ()
  ∧ getCsrfToken true randomBytes cookieStore' = (token, cookieStore')
  ∧ (cookieStore' = ∅
     ∨ (allChars isLowerHex token = true
        ∧ String.length token = 64%nat
        ∧ Cookie.httpOnly <$> cookieStore' !! CSRF_COOKIE_NAME = Some true)).
Proof.
  apply (getCsrfToken_round_trip true (λ n : nat, replicate n 171%N) ∅ "POST" ∅).
  - reflexivity.
  - simpl. repeat constructor.
Defined.

(** ** The admin route for users *)

Lemma findUserByEmail_None (email : string) (users : list User.t) :
  findUserByEmail email users = None → email ∉ User.email <$> users.
Proof.
  unfold findUserByEmail. intros Hfind Hin.
  apply list_elem_of_fmap in Hin as (u & -> & Hu).
  apply list_elem_of_In in Hu.
  pose proof (find_none _ _ Hfind u Hu) as H. simpl in H.
  by rewrite bool_decide_eq_true_2 in H.
Qed.

Lemma dropChars_length (n : nat) (s : string) :
  String.length (dropChars n s) = (String.length s - n)%nat.
Proof.
  revert s. induction n as [|n IH]; intros [|c s]; simpl; done.
Qed.

(** Users are created by administrators only and never twice for one
    email.  A request without a session of role ADMIN is answered 401;
    whenever the answer is not 201 the table is as before; and when no two
    users had the same email before the request, no two have it after. *)
Theorem adminPOST_guards (ext : AdminExternals) (session : option AdminSession.t)
    (reqJson : option CreateUserBody.t) (users : list User.t) :
  let run := adminPOST ext session reqJson users in
  (notAdmin session = true → fst run = adminError "Unauthorized" 401)
  ∧ (AdminResponse.status (fst run) ≠ 201 → snd run = users)
  ∧ (NoDup (User.email <$> users) → NoDup (User.email <$> snd run)).
Proof.
  intros run. subst run. unfold adminPOST.
  destruct (notAdmin session); [by repeat split|].
  destruct reqJson as [body|]; [|by repeat split].
  destruct (negb (createUserValid ext body)); [by repeat split|].
  destruct (findUserByEmail (CreateUserBody.email body) users) as [existing|] eqn:Hfind;
    [by repeat split|].
  cbv zeta. cbn [fst snd]. split; [done|]. split; [done|].
  intros Hnodup. rewrite fmap_app. apply NoDup_app. split; [done|]. split.
  - intros email Hin Hnew. apply list_elem_of_singleton in Hnew. simpl in Hnew. subst email.
    by apply findUserByEmail_None in Hfind.
  - simpl. apply NoDup_singleton.
Qed.

Lemma adminPOST_guards_witness :
  fst (adminPOST sampleAdminExternals (Some (AdminSession.mk "u9" LEGAL))
                 (Some sampleNewUser) [])
  = adminError "Unauthorized" 401.
Proof.
  apply (adminPOST_guards sampleAdminExternals (Some (AdminSession.mk "u9" LEGAL))
           (Some sampleNewUser) []).
  reflexivity.
Defined.

(** An answer 201 goes with exactly one new row: it has the email, the
    name and the role of the request, is active and has never logged in;
    the password hash it stores is the hash of the temporary password that
    the answer carries, which has at most 10 characters. *)
Theorem adminPOST_created (ext : AdminExternals) (session : option AdminSession.t)
    (reqJson : option CreateUserBody.t) (users : list User.t) :
  let run := adminPOST ext session reqJson users in
  AdminResponse.status (fst run) = 201 →
  ∃ body user tempPassword message,
    reqJson = Some body
    ∧ notAdmin session = false
    ∧ snd run = users ++ [user]
    ∧ AdminResponse.body (fst run) = UserCreated (createdView user) tempPassword message
    ∧ User.email user = CreateUserBody.email body
    ∧ User.fullName user = CreateUserBody.fullName body
    ∧ parseRole (CreateUserBody.role body) = Some (User.role user)
    ∧ User.isActive user = true
    ∧ User.lastLogin user = None
    ∧ User.passwordHash user = bcryptHash ext tempPassword
    ∧ (String.length tempPassword ≤ 10)%nat
    ∧ User.email user ∉ User.email <$> users.
Proof.
  intros run. subst run. unfold adminPOST.
  destruct (notAdmin session); [done|].
  destruct reqJson as [body|]; [|done].
  destruct (negb (createUserValid ext body)) eqn:Hvalid; [done|].
  destruct (findUserByEmail (CreateUserBody.email body) users) as [existing|] eqn:Hfind;
    [done|].
  cbv zeta. cbn [fst snd]. intros _.
  eexists body, _, _, _. repeat split.
  - apply negb_false_iff in Hvalid. unfold createUserValid in Hvalid.
    apply andb_true_iff in Hvalid as [_ Hrole]. apply bool_decide_eq_true in Hrole.
    destruct Hrole as [role Hrole]. simpl. by rewrite Hrole.
  - unfold sliceLast. rewrite dropChars_length. lia.
  - simpl. by apply findUserByEmail_None.
Qed.

Lemma adminPOST_created_witness :
  ∃ user,
    snd (adminPOST sampleAdminExternals sampleAdmin (Some sampleNewUser) []) = [user]
    ∧ User.email user = "new.member@example.org"
    ∧ User.isActive user = true.
Proof.
  destruct (adminPOST_created sampleAdminExternals sampleAdmin (Some sampleNewUser) [])
    as (body & user & tempPassword & message & Hbody & _ & Hrun & _ & Hemail & _ & _
        & Hactive & _).
  - vm_compute. reflexivity.
  - injection Hbody as <-. exists user.
    split; [exact Hrun|]. split; [exact Hemail|exact Hactive].
Defined.

(** The list of users goes to administrators only; for them it holds every
    user once, the most recently created first, and no password hash. *)
Theorem adminGET_lists_all (session : option AdminSession.t) (users : list User.t) :
  if notAdmin session
  then adminGET session users = adminError "Unauthorized" 401
  else ∃ listed,
         adminGET session users = AdminResponse.mk 200 (UserList (listView <$> listed))
         ∧ listed ≡ₚ users
         ∧ StronglySorted (λ a b, User.createdAt b ≤ User.createdAt a) listed.
Proof.
  unfold adminGET. destruct (notAdmin session); [done|].
  exists (stableSort userCreatedAtDesc users). split; [done|].
  split; [apply stableSort_perm|].
  eapply StronglySorted_mono; [|apply stableSort_sorted].
  - intros a b H. unfold userCreatedAtDesc in H. by apply Z.leb_le in H.
  - intros a b. unfold userCreatedAtDesc. rewrite !Z.leb_le. lia.
  - intros a b c. unfold userCreatedAtDesc. rewrite !Z.leb_le. lia.
Qed.

(** ** The rate limiter of the API wrapper *)

(** [checkRateLimit] and [getRateLimitInfo] agree: for a limit of at
    least 1, a call is refused exactly when the info, asked at the same
    time, reports nothing remaining; a refused call changes nothing and
    names a waiting time that is not negative. *)
Theorem checkRateLimit_info (now : Z) (identifier : string)
    (config : RateLimitConfig.t) (store : gmap string RateRecord.t) :
  1 ≤ RateLimitConfig.maxRequests config →
  let run := checkRateLimit now identifier config store in
  let info := getRateLimitInfo now identifier (RateLimitConfig.maxRequests config) store in
  (fst run = Done () ↔ 0 < RateLimitInfo.remaining info)
  ∧ (fst run ≠ Done () →
     snd run = store
     ∧ ∃ record,
         store !! identifier = Some record
         ∧ 0 ≤ ceilSeconds (RateRecord.resetTime record - now)
         ∧ fst run
           = Raise (AppErrorValue
                      (newRateLimitError
                         (Some ("Too many requests. Please try again in "
                                +:+ pretty (ceilSeconds (RateRecord.resetTime record - now))
                                +:+ " seconds."))))).
Proof.
  intros Hmax run info. subst run info. unfold checkRateLimit, getRateLimitInfo.
  cbv zeta.
  destruct (store !! identifier) as [record|] eqn:Hrecord.
  - destruct (RateRecord.resetTime record <? now) eqn:Hexp.
    + cbn [fst snd RateLimitInfo.remaining]. split; [split; [lia|done]|done].
    + apply Z.ltb_ge in Hexp.
      destruct (RateLimitConfig.maxRequests config <=? RateRecord.count record) eqn:Hfull.
      * apply Z.leb_le in Hfull. cbn [fst snd RateLimitInfo.remaining]. split.
        -- split; [done|]. lia.
        -- intros _. split; [done|]. exists record. split; [done|]. split; [|done].
           unfold ceilSeconds.
           assert ((- (RateRecord.resetTime record - now)) / 1000 ≤ 0); [|lia].
           apply Z.div_le_upper_bound; lia.
      * apply Z.leb_gt in Hfull. cbn [fst snd RateLimitInfo.remaining].
        split; [split; [lia|done]|done].
  - cbn [fst snd RateLimitInfo.remaining]. split; [split; [lia|done]|done].
Qed.

Lemma checkRateLimit_info_witness :
  let config := limiterConfig LimitAuth in
  let store : gmap string RateRecord.t := {[ "203.0.113.9" := RateRecord.mk 5 1700000060000 ]} in
  let run := checkRateLimit 1700000000000 "203.0.113.9" config store in
  let info := getRateLimitInfo 1700000000000 "203.0.113.9" 5 store in
  (fst run = Done () ↔ 0 < RateLimitInfo.remaining info)
  ∧ (fst run ≠ Done () →
     snd run = store
     ∧ ∃ record,
         store !! "203.0.113.9" = Some record
         ∧ 0 ≤ ceilSeconds (RateRecord.resetTime record - 1700000000000)
         ∧ fst run
           = Raise (AppErrorValue
                      (newRateLimitError
                         (Some ("Too many requests. Please try again in "
                                +:+ pretty (ceilSeconds (RateRecord.resetTime record
                                                         - 1700000000000))
                                +:+ " seconds."))))).
Proof.
  intros config store.
  apply (checkRateLimit_info 1700000000000 "203.0.113.9" config store).
  simpl. lia.
Defined.

(** The limiter of the chatbot route and the limiter of the wrapper count
    in the same way: on the same table and at the same time, one returns
    [false] exactly when the other throws, and they leave the same
    table. *)
Theorem rateLimit_checkRateLimit (ext : Externals) (identifier : string)
    (maxRequests windowMs : Z) (w : World) :
  let run := rateLimit ext identifier maxRequests windowMs w in
  let check :=
    checkRateLimit (dateNow ext) identifier (RateLimitConfig.mk maxRequests windowMs)
                   (rateLimitMap w) in
  rateLimitMap (snd run) = snd check
  ∧ (fst run = Returned true ∨ fst run = Returned false)
  ∧ (fst run = Returned true ↔ fst check = Done ()).
Proof.
  unfold rateLimit, checkRateLimit. cbv zeta.
  destruct (rateLimitMap w !! identifier) as [record|]; [|by repeat split; auto].
  destruct (RateRecord.resetTime record <? dateNow ext); [by repeat split; auto|].
  cbn [RateLimitConfig.maxRequests RateLimitConfig.windowMs].
  destruct (maxRequests <=? RateRecord.count record); by repeat split; auto.
Qed.

Lemma cleanup_lookup (now : Z) (identifier : string) (store : gmap string RateRecord.t) :
  cleanup now store !! identifier
  = match store !! identifier with
    | Some record => if RateRecord.resetTime record <? now then None else Some record
    | None => None
    end.
Proof.
  unfold cleanup. destruct (store !! identifier) as [record|] eqn:Hrecord.
  - destruct (RateRecord.resetTime record <? now) eqn:Hexp.
    + apply Z.ltb_lt in Hexp. apply map_lookup_filter_None. right.
      intros record' Hrecord'. simpl. rewrite Hrecord in Hrecord'.
      injection Hrecord' as <-. tauto.
    + apply Z.ltb_ge in Hexp. apply map_lookup_filter_Some. split; [done|]. simpl. lia.
  - apply map_lookup_filter_None. by left.
Qed.

(** The cleanup that runs in the background cannot be observed: after a
    cleanup at an earlier time, [checkRateLimit] gives the same outcome
    and [getRateLimitInfo] the same answer as without it, and for a window
    that is not negative the tables differ by this cleanup only. *)
Theorem cleanup_unobserved (cleaned now : Z) (identifier : string)
    (config : RateLimitConfig.t) (maxRequests : Z) (store : gmap string RateRecord.t) :
  cleaned ≤ now →
  fst (checkRateLimit now identifier config (cleanup cleaned store))
  = fst (checkRateLimit now identifier config store)
  ∧ getRateLimitInfo now identifier maxRequests (cleanup cleaned store)
    = getRateLimitInfo now identifier maxRequests store
  ∧ (0 ≤ RateLimitConfig.windowMs config →
     snd (checkRateLimit now identifier config (cleanup cleaned store))
     = cleanup cleaned (snd (checkRateLimit now identifier config store))).
Proof.
  intros Hearlier. unfold checkRateLimit, getRateLimitInfo. cbv zeta.
  rewrite cleanup_lookup.
  assert (∀ record : RateRecord.t,
            cleaned ≤ RateRecord.resetTime record →
            cleanup cleaned (<[identifier := record]> store)
            = <[identifier := record]> (cleanup cleaned store)) as Hkept.
  { intros record Hrecord. unfold cleanup. apply map_filter_insert_True. simpl. lia. }
  destruct (store !! identifier) as [record|] eqn:Hrecord.
  - destruct (RateRecord.resetTime record <? cleaned) eqn:Hgone.
    + apply Z.ltb_lt in Hgone.
      assert ((RateRecord.resetTime record <? now) = true) as -> by (apply Z.ltb_lt; lia).
      cbn [fst snd]. split; [done|]. split; [done|]. intros Hwindow.
      rewrite Hkept; [done|]. simpl. lia.
    + apply Z.ltb_ge in Hgone.
      destruct (RateRecord.resetTime record <? now) eqn:Hexp.
      * cbn [fst snd]. split; [done|]. split; [done|]. intros Hwindow.
        rewrite Hkept; [done|]. simpl. lia.
      * apply Z.ltb_ge in Hexp.
        destruct (RateLimitConfig.maxRequests config <=? RateRecord.count record);
          cbn [fst snd]; (split; [done|]); (split; [done|]); intros Hwindow; [done|].
        rewrite Hkept; [done|]. simpl. lia.
  - cbn [fst snd]. split; [done|]. split; [done|]. intros Hwindow.
    rewrite Hkept; [done|]. simpl. lia.
Qed.

Lemma cleanup_unobserved_witness :
  let store : gmap string RateRecord.t :=
    {[ "203.0.113.9" := RateRecord.mk 5 1700000060000;
       "198.51.100.4" := RateRecord.mk 2 1699999000000 ]} in
  let config := limiterConfig LimitAuth in
  fst (checkRateLimit 1700000000000 "203.0.113.9" config (cleanup 1699999900000 store))
  = fst (checkRateLimit 1700000000000 "203.0.113.9" config store)
  ∧ getRateLimitInfo 1700000000000 "203.0.113.9" 5 (cleanup 1699999900000 store)
    = getRateLimitInfo 1700000000000 "203.0.113.9" 5 store
  ∧ (0 ≤ RateLimitConfig.windowMs config →
     snd (checkRateLimit 1700000000000 "203.0.113.9" config (cleanup 1699999900000 store))
     = cleanup 1699999900000 (snd (checkRateLimit 1700000000000 "203.0.113.9" config store))).
Proof.
  intros store config.
  apply (cleanup_unobserved 1699999900000 1700000000000 "203.0.113.9" config 5 store).
  lia.
Defined.

(** After [resetRateLimit] the identifier has its whole limit again: the
    next call is let through and begins a new window, and the records of
    the other identifiers are as they were. *)
Theorem resetRateLimit_fresh (now : Z) (identifier : string) (config : RateLimitConfig.t)
    (store : gmap string RateRecord.t) :
  let store' := resetRateLimit identifier store in
  checkRateLimit now identifier config store'
  = (Done (), <[identifier := RateRecord.mk 1 (now + RateLimitConfig.windowMs config)]> store)
  ∧ RateLimitInfo.remaining
      (getRateLimitInfo now identifier (RateLimitConfig.maxRequests config) store')
    = RateLimitConfig.maxRequests config
  ∧ ∀ other, other ≠ identifier → store' !! other = store !! other.
Proof.
  unfold resetRateLimit, checkRateLimit, getRateLimitInfo. cbv zeta.
  rewrite lookup_delete_eq. split; [by rewrite insert_delete_eq|]. split; [done|].
  intros other Hother. by apply lookup_delete_ne.
Qed.

(** ** The identifier of a client *)

(** [getClientIdentifier] takes the first usable value in a fixed order:
    the first entry of [x-forwarded-for] without the white space around
    it, then [x-real-ip], then [cf-connecting-ip], where a value is usable
    when it is present and not empty; without a usable value the
    identifier is [unknown].  So the identifier is never the empty
    string. *)
Theorem getClientIdentifier_first_usable (headers : gmap string string) :
  let ip := getClientIdentifier headers in
  let usable (value : option string) := ∃ s, value = Some s ∧ s ≠ "" in
  let forwardedFor := (λ v, trim (beforeComma v)) <$> headers !! "x-forwarded-for" in
  let realIp := headers !! "x-real-ip" in
  let cfConnectingIp := headers !! "cf-connecting-ip" in
  ip ≠ ""
  ∧ (usable forwardedFor → forwardedFor = Some ip)
  ∧ (¬ usable forwardedFor → usable realIp → realIp = Some ip)
  ∧ (¬ usable forwardedFor → ¬ usable realIp → usable cfConnectingIp →
     cfConnectingIp = Some ip)
  ∧ (¬ usable forwardedFor → ¬ usable realIp → ¬ usable cfConnectingIp →
     ip = "unknown").
Proof.
  intros ip usable forwardedFor realIp cfConnectingIp.
  assert (∀ value, usable value ∨ ¬ usable value) as Hdec.
  { intros [s|]; unfold usable.
    - destruct (decide (s = "")) as [->|Hs].
      + right. by intros (? & [= <-] & ?).
      + left. by exists s.
    - right. by intros (? & ? & _). }
  assert (∀ value rest,
            (usable value → orElse value rest = value)
            ∧ (¬ usable value → orElse value rest = rest)) as Hor.
  { intros [s|] rest; unfold orElse, falsy, usable.
    - case_bool_decide as Hs.
      + split; [by intros (? & [= <-] & ?)|done].
      + split; [done|]. intros H. destruct H. by exists s.
    - split; [by intros (? & ? & _)|done]. }
  assert (ip = default "" (orElse forwardedFor
                             (orElse realIp (orElse cfConnectingIp (Some "unknown")))))
    as Hip by reflexivity.
  assert (∀ value, usable value → value = Some (default "" value) ∧ default "" value ≠ "")
    as Huse.
  { by intros value (s & -> & Hs). }
  clearbody ip.
  destruct (Hdec forwardedFor) as [Hf|Hf].
  { rewrite (proj1 (Hor forwardedFor _) Hf) in Hip. subst ip.
    destruct (Huse _ Hf) as [Hsome Hne]. by repeat split. }
  rewrite (proj2 (Hor forwardedFor _) Hf) in Hip.
  destruct (Hdec realIp) as [Hr|Hr].
  { rewrite (proj1 (Hor realIp _) Hr) in Hip. subst ip.
    destruct (Huse _ Hr) as [Hsome Hne]. by repeat split. }
  rewrite (proj2 (Hor realIp _) Hr) in Hip.
  destruct (Hdec cfConnectingIp) as [Hc|Hc].
  { rewrite (proj1 (Hor cfConnectingIp _) Hc) in Hip. subst ip.
    destruct (Huse _ Hc) as [Hsome Hne]. by repeat split. }
  rewrite (proj2 (Hor cfConnectingIp _) Hc) in Hip. subst ip. by repeat split.
Qed.

(** ** Pagination *)

Lemma roundHalfEven_near (x : Q) :
  (inject_Z (roundHalfEven x) - (1 # 2) <= x <= inject_Z (roundHalfEven x) + (1 # 2))%Q.
Proof.
  unfold roundHalfEven. cbv zeta.
  pose proof (Qfloor_le x) as Hlow. pose proof (Qlt_floor x) as Hhigh.
  rewrite inject_Z_plus in Hhigh. change (inject_Z 1) with 1%Q in Hhigh.
  assert (inject_Z (Qfloor x + 1) == inject_Z (Qfloor x) + 1)%Q as Hup
    by (by rewrite inject_Z_plus).
  destruct (Qcompare_spec (x - inject_Z (Qfloor x)) (1 # 2)) as [Heq|Hlt|Hgt].
  - destruct (Z.even (Qfloor x)); rewrite ?Hup; split; lra.
  - split; lra.
  - rewrite Hup. split; lra.
Qed.

Lemma roundHalfEven_whole (x : Q) (n : Z) :
  (x == inject_Z n)%Q → roundHalfEven x = n.
Proof.
  intros Hx. unfold roundHalfEven. cbv zeta.
  assert (Qfloor x = n) as -> by (rewrite Hx; apply Qfloor_Z).
  destruct (Qcompare_spec (x - inject_Z n) (1 # 2)) as [Heq|Hlt|Hgt]; [lra|done|lra].
Qed.

Lemma pow2_pos (e : Z) : (0 < 2 ^ e)%Q.
Proof. by apply Qpower_0_lt. Qed.

Lemma pow2_succ (e : Z) : (2 ^ (e + 1) == 2 * 2 ^ e)%Q.
Proof. rewrite Qpower_plus by done. change (2 ^ 1)%Q with 2%Q. lra. Qed.

Lemma pow2_whole (n : Z) : 0 ≤ n → (inject_Z (2 ^ n) == 2 ^ n)%Q.
Proof. intros Hn. by rewrite Zpower_Qpower. Qed.

Lemma floorLog2_spec (x : Q) :
  (0 < x)%Q → (2 ^ floorLog2 x <= x < 2 ^ (floorLog2 x + 1))%Q.
Proof.
  intros Hx. destruct x as [a b]. unfold floorLog2. cbn [Qnum Qden].
  assert (0 < a) as Ha by (unfold Qlt in Hx; simpl in Hx; lia).
  set (la := Z.log2 a). set (lb := Z.log2 (Z.pos b)).
  destruct (Z.log2_spec a Ha) as [Ha1 Ha2]. fold la in Ha1, Ha2.
  destruct (Z.log2_spec (Z.pos b) (Pos2Z.is_pos b)) as [Hb1 Hb2]. fold lb in Hb1, Hb2.
  assert (0 ≤ la) as Hla by apply Z.log2_nonneg.
  assert (0 ≤ lb) as Hlb by apply Z.log2_nonneg.
  rewrite Z.pow_succ_r in Ha2, Hb2 by done.
  rewrite Zle_Qle in Ha1, Hb1. rewrite Zlt_Qlt in Ha2, Hb2.
  rewrite inject_Z_mult in Ha2, Hb2.
  rewrite pow2_whole in Ha1, Ha2, Hb1, Hb2 by done.
  assert (2 ^ la == 2 ^ (la - lb) * 2 ^ lb)%Q as Hk.
  { rewrite <- Qpower_plus by done. by replace (la - lb + lb) with la by lia. }
  assert (a # b == inject_Z a / inject_Z (Z.pos b))%Q as Hab by apply Qmake_Qdiv.
  pose proof (pow2_pos la) as Hpa. pose proof (pow2_pos lb) as Hpb.
  pose proof (pow2_pos (la - lb)) as Hpk.
  set (A := inject_Z a) in *. set (B := inject_Z (Z.pos b)) in *.
  set (PA := (2 ^ la)%Q) in *. set (PB := (2 ^ lb)%Q) in *.
  set (PK := (2 ^ (la - lb))%Q) in *.
  assert (0 < B)%Q as HB by lra.
  assert ((a # b) * B == A)%Q as Hx'.
  { rewrite Hab. field. lra. }
  assert (2 ^ (la - lb) == PK)%Q as HPK by reflexivity.
  assert (PK == 2 * 2 ^ (la - lb - 1))%Q as Hhalf.
  { subst PK. rewrite <- pow2_succ. by replace (la - lb - 1 + 1) with (la - lb) by lia. }
  change (inject_Z 2) with 2%Q in Ha2, Hb2.
  set (X := a # b) in *. clearbody X A B PA PB PK.
  destruct (Qle_bool PK X) eqn:Hcmp.
  - apply Qle_bool_iff in Hcmp. rewrite pow2_succ, HPK. split; [done|].
    apply Qnot_le_lt. intros Hge.
    assert (2 * PK * PB <= X * B)%Q; [|lra].
    apply Qle_trans with (2 * PK * B)%Q; [nra|nra].
  - assert (X < PK)%Q as Hlt.
    { apply Qnot_le_lt. intros Hle. apply Qle_bool_iff in Hle. congruence. }
    replace (la - lb - 1 + 1) with (la - lb) by lia. rewrite HPK. split; [|done].
    set (PH := (2 ^ (la - lb - 1))%Q) in *. clearbody PH.
    apply Qnot_lt_le. intros Hbelow.
    assert (X * B < PK * PB)%Q; [|lra].
    apply Qlt_le_trans with (PH * B)%Q; [|nra].
    apply Qmult_lt_compat_r; [done|]. lra.
Qed.

Lemma whole_lt (a b : Z) : a < b → (inject_Z a < inject_Z b)%Q.
Proof. by rewrite Zlt_Qlt. Qed.

Lemma whole_lt_inv (a b : Z) : (inject_Z a < inject_Z b)%Q → a < b.
Proof. by rewrite Zlt_Qlt. Qed.

Lemma whole_le (a b : Z) : a ≤ b → (inject_Z a <= inject_Z b)%Q.
Proof. by rewrite Zle_Qle. Qed.

Lemma whole_le_inv (a b : Z) : (inject_Z a <= inject_Z b)%Q → a ≤ b.
Proof. by rewrite Zle_Qle. Qed.

(** Rounding changes a positive number by at most its [2^-53]-th part. *)
Lemma roundPositive_near (x : Q) :
  (0 < x)%Q →
  (x - x * (1 # 9007199254740992) <= roundPositive x
   <= x + x * (1 # 9007199254740992))%Q.
Proof.
  intros Hx. unfold roundPositive. cbv zeta.
  destruct (floorLog2_spec x Hx) as [Hlow _].
  set (e := floorLog2 x) in *.
  pose proof (pow2_pos (e - 52)) as HU.
  assert (2 ^ e == 2 ^ (e - 52) * 4503599627370496)%Q as He.
  { change 4503599627370496%Q with (2 ^ 52)%Q. rewrite <- Qpower_plus by done.
    by replace (e - 52 + 52) with e by lia. }
  set (U := (2 ^ (e - 52))%Q) in *.
  pose proof (roundHalfEven_near (x / U)) as [Hm1 Hm2].
  assert (x / U * U == x)%Q as HY by (field; lra).
  set (Y := (x / U)%Q) in *. set (M := inject_Z (roundHalfEven Y)) in *.
  set (P := (2 ^ e)%Q) in *. clearbody M Y P U.
  assert (M * U - U * (1 # 2) <= x)%Q by nra.
  assert (x <= M * U + U * (1 # 2))%Q by nra.
  assert (U * (1 # 2) <= x * (1 # 9007199254740992))%Q; [|split; lra].
  assert (U * (1 # 2) == P * (1 # 9007199254740992))%Q as -> by (rewrite He; field).
  nra.
Qed.

(** A positive whole number below [2^53] is a double. *)
Lemma roundPositive_whole (x : Q) (n : Z) :
  0 < n < 2 ^ 53 → (x == inject_Z n)%Q → (roundPositive x == x)%Q.
Proof.
  intros [Hn1 Hn2] Hxn.
  assert (0 < x)%Q as Hx by (rewrite Hxn; exact (whole_lt 0 n Hn1)).
  destruct (floorLog2_spec x Hx) as [Hlow Hhigh].
  unfold roundPositive. cbv zeta. set (e := floorLog2 x) in *.
  assert (1 <= x)%Q as Hone.
  { rewrite Hxn. apply (whole_le 1 n). lia. }
  assert (x < 2 ^ 53)%Q as Hbelow.
  { rewrite Hxn. rewrite <- (pow2_whole 53) by lia. exact (whole_lt _ _ Hn2). }
  assert (0 ≤ e) as He0.
  { destruct (Z.le_gt_cases 0 e) as [|Hneg]; [done|]. exfalso.
    assert (2 ^ (e + 1) <= 2 ^ 0)%Q by (apply Qpower_le_compat_l; [lia|done]).
    change (2 ^ 0)%Q with 1%Q in *. lra. }
  assert (e ≤ 52) as He52.
  { destruct (Z.le_gt_cases e 52) as [|Hbig]; [done|]. exfalso.
    assert (2 ^ 53 <= 2 ^ e)%Q by (apply Qpower_le_compat_l; [lia|done]). lra. }
  assert (2 ^ (e - 52) * inject_Z (2 ^ (52 - e)) == 1)%Q as Hinv.
  { rewrite pow2_whole by lia. rewrite <- Qpower_plus by done.
    by replace (e - 52 + (52 - e)) with 0 by lia. }
  pose proof (pow2_pos (e - 52)) as HU.
  set (U := (2 ^ (e - 52))%Q) in *. set (V := inject_Z (2 ^ (52 - e))) in *.
  assert (x / U == inject_Z (n * 2 ^ (52 - e)))%Q as Hwhole.
  { rewrite inject_Z_mult. fold V. rewrite <- Hxn. field_simplify_eq; [|lra].
    rewrite <- (Qmult_1_r x) at 1. rewrite <- Hinv. ring. }
  rewrite (roundHalfEven_whole _ _ Hwhole), inject_Z_mult. fold V. rewrite <- Hxn.
  rewrite <- (Qmult_1_r x) at 2. rewrite <- Hinv. ring.
Qed.

Lemma binary64_whole (x : Q) (n : Z) :
  - 2 ^ 53 < n < 2 ^ 53 → (x == inject_Z n)%Q → (binary64 x == x)%Q.
Proof.
  intros Hn Hxn. unfold binary64.
  destruct (Qcompare_spec x 0) as [Hzero|Hneg|Hpos].
  - by rewrite Hzero.
  - assert (n < 0) as Hn' by (rewrite Hxn in Hneg; exact (whole_lt_inv n 0 Hneg)).
    rewrite (roundPositive_whole (- x) (- n)); [ring|lia|].
    rewrite Hxn, inject_Z_opp. reflexivity.
  - assert (0 < n) as Hn' by (rewrite Hxn in Hpos; exact (whole_lt_inv 0 n Hpos)).
    apply (roundPositive_whole x n); [lia|done].
Qed.

Lemma binary64_near (x : Q) :
  ((0 <= x → x - x * (1 # 9007199254740992) <= binary64 x
             <= x + x * (1 # 9007199254740992))
   ∧ (x <= 0 → x + x * (1 # 9007199254740992) <= binary64 x
               <= x - x * (1 # 9007199254740992)))%Q.
Proof.
  unfold binary64.
  destruct (Qcompare_spec x 0) as [Hzero|Hneg|Hpos].
  - split; intros _; split; lra.
  - pose proof (roundPositive_near (- x)) as Hnear.
    split; intros H; [lra|]. destruct Hnear as [H1 H2]; [lra|]. split; lra.
  - pose proof (roundPositive_near x Hpos) as [H1 H2].
    split; intros H; [|lra]. split; lra.
Qed.

Lemma Qceiling_unique (x : Q) (n : Z) :
  (inject_Z n - 1 < x <= inject_Z n)%Q → Qceiling x = n.
Proof.
  intros [Hlow Hhigh].
  pose proof (Qle_ceiling x) as Hc1. pose proof (Qceiling_lt x) as Hc2.
  assert (inject_Z (Qceiling x - 1) == inject_Z (Qceiling x) - 1)%Q as Hminus.
  { unfold Z.sub. rewrite inject_Z_plus. reflexivity. }
  rewrite Hminus in Hc2.
  assert (inject_Z n - 1 == inject_Z (n - 1))%Q as Hn.
  { unfold Z.sub. rewrite inject_Z_plus. reflexivity. }
  assert (inject_Z (Qceiling x) - 1 < inject_Z n)%Q as H1 by lra.
  assert (inject_Z n - 1 < inject_Z (Qceiling x))%Q as H2 by lra.
  rewrite <- Hminus in H1. rewrite Hn in H2.
  apply whole_lt_inv in H1, H2. lia.
Qed.

(** The quotient of a whole number below [2^53] and a positive whole
    number, rounded and then taken to the next whole number, is the next
    whole number of the exact quotient. *)
Lemma ceiling_quotient (total limit n : Z) :
  0 ≤ total < 2 ^ 53 → 0 < limit →
  (n - 1) * limit < total ≤ n * limit →
  Qceiling (binary64 (inject_Z total / inject_Z limit)) = n.
Proof.
  intros [Ht0 Ht] Hlimit [Hlow Hhigh].
  assert (0 ≤ n) as Hn0 by nia.
  assert (n ≤ total) as Hnt by nia.
  pose proof (whole_lt 0 limit Hlimit) as HL.
  pose proof (whole_le 0 total Ht0) as HT0.
  pose proof (whole_lt total (2 ^ 53) Ht) as HT.
  change (inject_Z (2 ^ 53)) with 9007199254740992%Q in HT.
  change (inject_Z 0) with 0%Q in HL, HT0.
  assert (inject_Z total / inject_Z limit * inject_Z limit == inject_Z total)%Q as Hx
    by (field; lra).
  apply Qceiling_unique.
  destruct (Z.eq_dec total (n * limit)) as [Heq|Hne].
  - assert (inject_Z total / inject_Z limit == inject_Z n)%Q as Hwhole.
    { rewrite Heq, inject_Z_mult. field. lra. }
    rewrite (binary64_whole _ n) by (done || lia). rewrite Hwhole. split; lra.
  - assert (total + 1 ≤ n * limit) as Hup by lia.
    assert ((n - 1) * limit + 1 ≤ total) as Hdown by lia.
    apply whole_le in Hup, Hdown.
    rewrite inject_Z_plus, inject_Z_mult in Hup.
    rewrite inject_Z_plus, inject_Z_mult in Hdown.
    assert (inject_Z (n - 1) == inject_Z n - 1)%Q as Hminus.
    { unfold Z.sub. rewrite inject_Z_plus. reflexivity. }
    rewrite Hminus in Hdown. change (inject_Z 1) with 1%Q in Hup, Hdown.
    assert (0 <= inject_Z total / inject_Z limit)%Q as Hx0.
    { apply Qle_shift_div_l; [done|]. lra. }
    destruct (binary64_near (inject_Z total / inject_Z limit)) as [Hnear _].
    destruct (Hnear Hx0) as [Hn1 Hn2].
    set (X := (inject_Z total / inject_Z limit)%Q) in *.
    set (F := binary64 X) in *.
    set (N := inject_Z n) in *. set (L := inject_Z limit) in *.
    set (Tq := inject_Z total) in *. clearbody F X N L Tq.
    split.
    + apply Qnot_le_lt. intros Hbad.
      assert (F * L <= (N - 1) * L)%Q by nra.
      assert ((X - X * (1 # 9007199254740992)) * L <= F * L)%Q by nra.
      nra.
    + apply Qnot_lt_le. intros Hbad.
      assert (N * L < F * L)%Q by nra.
      assert (F * L <= (X + X * (1 # 9007199254740992)) * L)%Q by nra.
      nra.
Qed.

(** A product of whole numbers, rounded, is below a whole number of
    magnitude below [2^53] exactly when the exact product is. *)
Lemma product_below (page limit total : Z) :
  0 ≤ total < 2 ^ 53 →
  Qle_bool (inject_Z total) (binary64 (inject_Z page * inject_Z limit)) = false
  ↔ page * limit < total.
Proof.
  intros [Ht0 Ht].
  rewrite <- inject_Z_mult. set (p := page * limit).
  pose proof (whole_le 0 total Ht0) as HT0.
  pose proof (whole_lt total (2 ^ 53) Ht) as HT.
  change (inject_Z (2 ^ 53)) with 9007199254740992%Q in HT.
  change (inject_Z 0) with 0%Q in HT0.
  assert (∀ a b : Q, Qle_bool a b = false ↔ (b < a)%Q) as Hfalse.
  { intros a b. split.
    - intros H. apply Qnot_le_lt. intros Hle. apply Qle_bool_iff in Hle. congruence.
    - intros H. destruct (Qle_bool a b) eqn:E; [|done].
      apply Qle_bool_iff in E. lra. }
  rewrite Hfalse.
  destruct (Z.lt_ge_cases p (2 ^ 53)) as [Hsmall|Hbig].
  - destruct (Z.lt_ge_cases (- 2 ^ 53) p) as [Hsmall'|Hneg].
    + rewrite (binary64_whole (inject_Z p) p) by (done || lia).
      split; [apply whole_lt_inv|apply whole_lt].
    + destruct (binary64_near (inject_Z p)) as [_ Hnear].
      pose proof (whole_le p (- 2 ^ 53) Hneg) as HP.
      change (inject_Z (- 2 ^ 53)) with (- 9007199254740992)%Q in HP.
      destruct Hnear as [_ Hup]; [lra|].
      split; [intros _; lia|intros _]. 
      set (P := inject_Z p) in *. set (F := binary64 P) in *. clearbody F P. lra.
  - destruct (binary64_near (inject_Z p)) as [Hnear _].
    assert (inject_Z total <= 9007199254740991)%Q as HT'.
    { apply (whole_le total 9007199254740991). lia. }
    pose proof (whole_le (2 ^ 53) p Hbig) as HP.
    change (inject_Z (2 ^ 53)) with 9007199254740992%Q in HP.
    destruct Hnear as [Hdown _]; [lra|].
    set (P := inject_Z p) in *. set (F := binary64 P) in *. clearbody F P.
    split; [intros H; exfalso; lra|intros H; lia].
Qed.

(** For whole numbers in the safe range and a positive limit the fields
    of [pagination] agree although the product and the quotient are
    rounded: there is a next page exactly when the page is in front of the
    last one, the number of pages is the least that holds [total]
    entries, and there is a previous page exactly when the page is after
    the first. *)
Theorem paginatedResponse_pages {T : Type} (data : list T) (total page limit : Z) :
  0 < limit ≤ MAX_SAFE_INTEGER →
  0 ≤ total ≤ MAX_SAFE_INTEGER →
  - MAX_SAFE_INTEGER ≤ page ≤ MAX_SAFE_INTEGER →
  let response := paginatedResponse data total page limit in
  let pagination := snd response in
  fst response = data
  ∧ (Pagination.hasNext pagination = true ↔ page < Pagination.totalPages pagination)
  ∧ (Pagination.totalPages pagination - 1) * limit < total
    ≤ Pagination.totalPages pagination * limit
  ∧ (Pagination.hasPrev pagination = true ↔ 1 < page).
Proof.
  unfold MAX_SAFE_INTEGER. intros [Hlimit _] [Ht0 Ht] _. cbv zeta.
  unfold paginatedResponse.
  cbn [fst snd Pagination.hasNext Pagination.totalPages Pagination.hasPrev].
  set (n := - ((- total) / limit)).
  assert ((n - 1) * limit < total ≤ n * limit) as Hn.
  { subst n.
    pose proof (Z.mul_div_le (- total) limit Hlimit).
    pose proof (Z.mul_succ_div_gt (- total) limit Hlimit). nia. }
  rewrite (ceiling_quotient total limit n) by (done || lia).
  split; [done|]. split; [|split; [done|apply Z.ltb_lt]].
  rewrite negb_true_iff, product_below by lia. nia.
Qed.

Lemma paginatedResponse_pages_witness :
  let pagination := snd (paginatedResponse ["a"; "b"] 41 2 20) in
  (Pagination.hasNext pagination = true ↔ 2 < Pagination.totalPages pagination)
  ∧ (Pagination.totalPages pagination - 1) * 20 < 41
    ≤ Pagination.totalPages pagination * 20.
Proof.
  destruct (paginatedResponse_pages ["a"; "b"] 41 2 20) as (_ & Hnext & Hpages & _).
  - vm_compute. split; [reflexivity|discriminate].
  - vm_compute. split; discriminate.
  - vm_compute. split; discriminate.
  - split; [exact Hnext|exact Hpages].
Defined.

(** Outside the safe range the fields can disagree: the product of page
    and limit rounds to the total, so no next page is reported although
    the page is in front of the last one. *)
Example paginatedResponse_rounds :
  let pagination :=
    snd (paginatedResponse ([] : list string)
           9007199254740996 5 1801439850948199) in
  Pagination.hasNext pagination = false
  ∧ Pagination.totalPages pagination = 6.
Proof. vm_compute. split; reflexivity. Qed.

(** ** The CSRF check, when it refuses *)

(** A request that the check refuses is answered with 401, unless cookie
    and header carry tokens of the same length whose UTF-8 encodings differ
    in length: then the comparison itself throws, and the answer is 500. *)
Theorem verifyCsrfToken_refusal (req : Request.t) (cookieStore : gmap string Cookie.t)
    (error : ErrorValue) :
  verifyCsrfToken req cookieStore = Raise error →
  let status := ErrorResponse.status (handleError error) in
  (status = 401 ∨ status = 500)
  ∧ (status = 500
     ↔ ∃ cookieToken headerToken,
         Cookie.value <$> cookieStore !! CSRF_COOKIE_NAME = Some cookieToken
         ∧ Request.headers req !! CSRF_HEADER_NAME = Some headerToken
         ∧ cookieToken ≠ "" ∧ headerToken ≠ ""
         ∧ unevenBytes cookieToken headerToken).
Proof.
  unfold verifyCsrfToken. cbv zeta.
  destruct (_ || _); [discriminate|].
  destruct (Cookie.value <$> cookieStore !! CSRF_COOKIE_NAME) as [cookieToken|] eqn:Hcookie;
    simpl.
  2: { intros [= <-]. simpl. split; [by left|]. split; [done|].
       by intros (? & ? & ? & _). }
  case_bool_decide as Hc; simpl.
  { intros [= <-]. simpl. split; [by left|]. split; [done|].
    intros (? & ? & [= <-] & _ & ? & _). done. }
  destruct (Request.headers req !! CSRF_HEADER_NAME) as [headerToken|] eqn:Hheader; simpl.
  2: { intros [= <-]. simpl. split; [by left|]. split; [done|].
       by intros (? & ? & _ & ? & _). }
  case_bool_decide as Hh; simpl.
  { intros [= <-]. simpl. split; [by left|]. split; [done|].
    intros (? & ? & _ & [= <-] & _ & ? & _). done. }
  unfold timingSafeEqual, cryptoTimingSafeEqual, unevenBytes.
  case_bool_decide as Hlen; simpl.
  - case_bool_decide as Hbytes; simpl.
    + case_bool_decide as Heq; simpl; [discriminate|].
      intros [= <-]. simpl. split; [by left|]. split; [done|].
      intros (? & ? & [= <-] & [= <-] & _ & _ & _ & ?). done.
    + intros [= <-]. simpl. split; [by right|]. split; [|done].
      intros _. by exists cookieToken, headerToken.
  - intros [= <-]. simpl. split; [by left|]. split; [done|].
    intros (? & ? & [= <-] & [= <-] & _ & _ & ? & _). done.
Qed.

Lemma verifyCsrfToken_refusal_witness :
  let req := Request.mk "POST" {[ "x-csrf-token" := String (Ascii.ascii_of_N 233) "" ]} in
  let cookieStore : gmap string Cookie.t :=
    {[ "csrf-token" := Cookie.mk "a" true false "strict" 86400 "/" ]} in
  let error :=
    OtherError "RangeError" "Input buffers must have the same byte length"
               (Some "ERR_CRYPTO_TIMING_SAFE_EQUAL_LENGTH") in
  verifyCsrfToken req cookieStore = Raise error
  ∧ (ErrorResponse.status (handleError error) = 500
     ↔ ∃ cookieToken headerToken,
         Cookie.value <$> cookieStore !! CSRF_COOKIE_NAME = Some cookieToken
         ∧ Request.headers req !! CSRF_HEADER_NAME = Some headerToken
         ∧ cookieToken ≠ "" ∧ headerToken ≠ ""
         ∧ unevenBytes cookieToken headerToken).
Proof.
  intros req cookieStore error. split; [reflexivity|].
  apply (verifyCsrfToken_refusal req cookieStore error). reflexivity.
Defined.

(** ** The API route wrapper *)

Lemma authorize_cases (options : ApiHandlerOptions.t) (ext : ApiExternals)
    (clientIp : string) (w : ApiWorld.t) :
  let auth :=
    ApiHandlerOptions.requireAuth options = true →
    ∃ id account,
      getServerSession ext = Some id
      ∧ id ≠ ""
      ∧ userFindUnique ext id = Some account
      ∧ User.isActive account = true
      ∧ ∀ role,
          ApiHandlerOptions.requireRole options = Some role →
          roleHierarchy role ≤ roleHierarchy (User.role account) in
  (auth
   ∧ authorize options ext clientIp w
     = (Granted (contextUser options ext) (contextSession options ext), w)
   ∧ (ApiHandlerOptions.requireAuth options = true → is_Some (contextUser options ext)))
  ∨ (¬ auth
     ∧ ∃ response w',
         authorize options ext clientIp w = (Denied response, w')
         ∧ (ErrorResponse.status response = 401 ∨ ErrorResponse.status response = 403)
         ∧ ApiWorld.store w' = ApiWorld.store w
         ∧ Forall (λ e, isCallHandler e = false) (eventsSince w w')).
Proof.
  intros auth. subst auth. unfold authorize, contextUser, contextSession.
  assert (eventsSince w w = []) as Hsame.
  { unfold eventsSince. by rewrite drop_all. }
  assert (∀ e, eventsSince w (record e w) = [e]) as Hone.
  { intros e. unfold eventsSince, record. simpl. by rewrite drop_app_length. }
  destruct (ApiHandlerOptions.requireAuth options); [|left; by split].
  destruct (getServerSession ext) as [id|]; simpl.
  2: { right. split; [intros H; by destruct (H eq_refl) as (? & ? & ? & _)|].
       eexists _, _. split; [done|]. split; [by left|]. split; [done|].
       rewrite Hone. by repeat constructor. }
  case_bool_decide as Hid; simpl.
  { right. split; [intros H; destruct (H eq_refl) as (? & ? & [= <-] & ? & _); done|].
    eexists _, _. split; [done|]. split; [by left|]. split; [done|].
    rewrite Hone. by repeat constructor. }
  destruct (userFindUnique ext id) as [account|] eqn:Hfind.
  2: { right. split.
       { intros H. destruct (H eq_refl) as (? & ? & [= <-] & _ & ? & _). congruence. }
       eexists _, _. split; [done|]. split; [by right|]. split; [done|].
       rewrite Hsame. constructor. }
  destruct (User.isActive account) eqn:Hactive; simpl.
  2: { right. split.
       { intros H. destruct (H eq_refl) as (? & ? & [= <-] & _ & ? & ? & _). congruence. }
       eexists _, _. split; [done|]. split; [by right|]. split; [done|].
       rewrite Hsame. constructor. }
  destruct (ApiHandlerOptions.requireRole options) as [requireRole|].
  2: { left. split; [|done]. intros _. exists id, account. repeat split; try done. }
  destruct (roleHierarchy (User.role account) <? roleHierarchy requireRole) eqn:Hrole.
  - apply Z.ltb_lt in Hrole. right. split.
    { intros H. destruct (H eq_refl) as (? & ? & [= <-] & _ & Hfind' & _ & Hle).
      rewrite Hfind in Hfind'. injection Hfind' as <-.
      specialize (Hle _ eq_refl). lia. }
    eexists _, _. split; [done|]. split; [by right|]. split; [done|].
    rewrite Hone. by repeat constructor.
  - apply Z.ltb_ge in Hrole. left. split; [|done]. intros _. exists id, account.
    repeat split; try done. by intros ? [= <-].
Qed.

Lemma verifyCsrfToken_status (req : Request.t) (cookieStore : gmap string Cookie.t)
    (error : ErrorValue) :
  verifyCsrfToken req cookieStore = Raise error →
  ErrorResponse.status (handleError error) = 401
  ∨ ErrorResponse.status (handleError error) = 500.
Proof.
  unfold verifyCsrfToken, timingSafeEqual, cryptoTimingSafeEqual. cbv zeta.
  repeat case_match; intros [= <-]; simpl; auto.
  all: simplify_eq; simpl; auto.
Qed.

Lemma verifyCsrfToken_GET (req : Request.t) (cookieStore : gmap string Cookie.t) :
  Request.method req = "GET" → verifyCsrfToken req cookieStore = Done ().
Proof. unfold verifyCsrfToken. by intros ->. Qed.

Lemma limit_status (options : ApiHandlerOptions.t) (ext : ApiExternals)
    (clientIp : string) (store : gmap string RateRecord.t) (error : ErrorValue) :
  fst (limit options ext clientIp store) = Raise error →
  ErrorResponse.status (handleError error) = 429.
Proof.
  unfold limit, checkRateLimit. cbv zeta.
  repeat case_match; simpl; intros [= <-]; done.
Qed.

Lemma createApiHandler_cases {R : Type} (status : R → Z)
    (handler : Request.t → ApiContext.t → Try R) (options : ApiHandlerOptions.t)
    (ext : ApiExternals) (req : Request.t) (routeParams : option (gmap string string))
    (w : ApiWorld.t) :
  let clientIp := getClientIdentifier (Request.headers req) in
  let run := createApiHandler status handler options ext req routeParams w in
  (admitted options ext req w
   ∧ run = serve status handler options ext req routeParams clientIp
                 (contextUser options ext) (contextSession options ext)
                 (ApiWorld.mk (storeAfter options ext req w) (ApiWorld.events w))
   ∧ (ApiHandlerOptions.requireAuth options = true → is_Some (contextUser options ext)))
  ∨ (¬ admitted options ext req w
     ∧ ∃ response,
         fst run = JsonError response
         ∧ ErrorResponse.status response ∈ [429; 401; 403; 500]
         ∧ ApiWorld.store (snd run) = storeAfter options ext req w
         ∧ Forall (λ e, isCallHandler e = false) (eventsSince w (snd run))).
Proof.
  intros clientIp run. subst run. unfold createApiHandler, admitted, storeAfter.
  cbv zeta. fold clientIp.
  assert (∀ st e, eventsSince w (record e (ApiWorld.mk st (ApiWorld.events w))) = [e])
    as Hone.
  { intros st e. unfold eventsSince, record. simpl. by rewrite drop_app_length. }
  destruct (fst (limit options ext clientIp (ApiWorld.store w))) as [[]|error] eqn:Hlimit.
  2: { right. split.
       { intros [H _]. unfold limit in Hlimit.
         destruct (ApiHandlerOptions.rateLimit options) as [name|]; [|done].
         rewrite (H name eq_refl) in Hlimit. done. }
       eexists. split; [done|]. split.
       { rewrite (limit_status _ _ _ _ _ Hlimit). set_solver. }
       split; [done|]. unfold catchError. cbn [snd]. rewrite Hone. by repeat constructor. }
  assert (∀ name,
            ApiHandlerOptions.rateLimit options = Some name →
            fst (checkRateLimit (apiNow ext) clientIp (limiterConfig name) (ApiWorld.store w))
            = Done ()) as Hpass.
  { intros name Hname. unfold limit in Hlimit. by rewrite Hname in Hlimit. }
  destruct (if ApiHandlerOptions.enableCsrf options
               && negb (bool_decide (Request.method req = "GET"))
            then verifyCsrfToken req (cookies ext) else Done ()) as [[]|error] eqn:Hcsrf.
  2: { destruct (ApiHandlerOptions.enableCsrf options); [|done].
       destruct (bool_decide (Request.method req = "GET")); [done|]. simpl in Hcsrf.
       right. split.
       { intros (_ & H & _). rewrite (H eq_refl) in Hcsrf. done. }
       eexists. split; [done|]. split.
       { destruct (verifyCsrfToken_status _ _ _ Hcsrf) as [-> | ->]; set_solver. }
       split; [done|]. unfold catchError. cbn [snd]. rewrite Hone. by repeat constructor. }
  assert (ApiHandlerOptions.enableCsrf options = true →
          verifyCsrfToken req (cookies ext) = Done ()) as Hverified.
  { intros Henabled. rewrite Henabled in Hcsrf.
    case_bool_decide as Hget; [by apply verifyCsrfToken_GET|done]. }
  destruct (authorize_cases options ext clientIp
              (ApiWorld.mk (snd (limit options ext clientIp (ApiWorld.store w)))
                           (ApiWorld.events w)))
    as [(Hauth & -> & Hsome) | (Hauth & response & w' & -> & Hstatus & Hstore & Hevents)].
  - left. done.
  - right. split; [by intros (_ & _ & ?)|]. exists response. split; [done|].
    split; [destruct Hstatus as [-> | ->]; set_solver|]. split; [done|]. done.
Qed.

Lemma serve_events {R : Type} (status : R → Z)
    (handler : Request.t → ApiContext.t → Try R) (options : ApiHandlerOptions.t)
    (ext : ApiExternals) (req : Request.t) (routeParams : option (gmap string string))
    (clientIp : string) (account : option User.t) (session : option string)
    (w w1 : ApiWorld.t) :
  ApiWorld.events w1 = ApiWorld.events w →
  let run := serve status handler options ext req routeParams clientIp account session w1 in
  ApiWorld.store (snd run) = ApiWorld.store w1
  ∧ ∃ rest,
      eventsSince w (snd run)
      = CallHandler (ApiContext.mk account session req (default ∅ routeParams)) :: rest
      ∧ Forall (λ e, isCallHandler e = false) rest.
Proof.
  intros Hevents run. subst run. unfold serve, catchError, eventsSince, record. cbv zeta.
  rewrite <- Hevents.
  repeat case_match; cbn [fst snd ApiWorld.store ApiWorld.events];
    (split; [done|]); rewrite <- ?(assoc_L (++)), drop_app_length;
    eexists; (split; [reflexivity|]); by repeat constructor.
Qed.

(** The handler is run exactly for the requests that pass the limiter,
    the CSRF check and the checks of the session, the account and the
    role; it is run once, with this request, and with a user exactly when
    [requireAuth] is set. *)
Theorem createApiHandler_gates {R : Type} (status : R → Z)
    (handler : Request.t → ApiContext.t → Try R) (options : ApiHandlerOptions.t)
    (ext : ApiExternals) (req : Request.t) (routeParams : option (gmap string string))
    (w : ApiWorld.t) :
  let run := createApiHandler status handler options ext req routeParams w in
  let calls := filter (λ e, isCallHandler e = true) (eventsSince w (snd run)) in
  (admitted options ext req w ↔ calls ≠ [])
  ∧ ∀ e,
      e ∈ calls →
      calls = [e]
      ∧ ∃ context,
          e = CallHandler context
          ∧ ApiContext.req context = req
          ∧ ApiContext.user context = contextUser options ext
          ∧ (is_Some (ApiContext.user context)
             ↔ ApiHandlerOptions.requireAuth options = true).
Proof.
  intros run calls. subst calls run.
  destruct (createApiHandler_cases status handler options ext req routeParams w)
    as [(Hadmitted & -> & Hsome) | (Hrefused & response & _ & _ & _ & Hquiet)].
  - destruct (serve_events status handler options ext req routeParams
                (getClientIdentifier (Request.headers req))
                (contextUser options ext) (contextSession options ext) w
                (ApiWorld.mk (storeAfter options ext req w) (ApiWorld.events w)) eq_refl)
      as (_ & rest & -> & Hrest).
    rewrite filter_cons_True by done.
    assert (filter (λ e, isCallHandler e = true) rest = []) as ->.
    { clear -Hrest. induction Hrest as [|e rest He _ IH]; [done|].
      rewrite filter_cons_False; [done|]. by rewrite He. }
    split; [done|]. intros e ->%list_elem_of_singleton. split; [done|].
    eexists. split; [done|]. split; [done|]. split; [done|]. simpl. split; [|done].
    unfold contextUser. destruct (ApiHandlerOptions.requireAuth options); [done|].
    by intros [? ?].
  - assert (filter (λ e, isCallHandler e = true)
              (eventsSince w (snd (createApiHandler status handler options ext req
                                     routeParams w))) = []) as ->.
    { induction Hquiet as [|e rest He _ IH]; [done|].
      rewrite filter_cons_False; [done|]. by rewrite He. }
    split; [done|]. by intros e ?%elem_of_nil.
Qed.

(** A request that is not admitted is answered with a JSON error of
    status 429, 401, 403 or 500, never with a response of the handler.
    The limiter has counted it all the same: the table after the request
    is the table after the limiter, also when a later check refuses. *)
Theorem createApiHandler_refused {R : Type} (status : R → Z)
    (handler : Request.t → ApiContext.t → Try R) (options : ApiHandlerOptions.t)
    (ext : ApiExternals) (req : Request.t) (routeParams : option (gmap string string))
    (w : ApiWorld.t) :
  ¬ admitted options ext req w →
  let run := createApiHandler status handler options ext req routeParams w in
  (∃ response,
     fst run = JsonError response
     ∧ ErrorResponse.status response ∈ [429; 401; 403; 500])
  ∧ ApiWorld.store (snd run)
    = match ApiHandlerOptions.rateLimit options with
      | Some name =>
          snd (checkRateLimit (apiNow ext) (getClientIdentifier (Request.headers req))
                 (limiterConfig name) (ApiWorld.store w))
      | None => ApiWorld.store w
      end.
Proof.
  intros Hrefused run. subst run.
  destruct (createApiHandler_cases status handler options ext req routeParams w)
    as [(Hadmitted & _) | (_ & response & Hrun & Hstatus & Hstore & _)]; [done|].
  split; [by exists response|]. rewrite Hstore.
  unfold storeAfter, limit. by destruct (ApiHandlerOptions.rateLimit options).
Qed.

(** For an admitted request whose handler returns a response, the wrapper
    returns this response unless the audit row is asked for and cannot be
    written: then the answer is the error response, although the handler
    has done its work. *)
Theorem createApiHandler_audit {R : Type} (status : R → Z)
    (handler : Request.t → ApiContext.t → Try R) (options : ApiHandlerOptions.t)
    (ext : ApiExternals) (req : Request.t) (routeParams : option (gmap string string))
    (w : ApiWorld.t) (response : R) :
  admitted options ext req w →
  handler req (ApiContext.mk (contextUser options ext) (contextSession options ext) req
                             (default ∅ routeParams)) = Done response →
  let run := createApiHandler status handler options ext req routeParams w in
  match auditLogCreate ext with
  | Some error =>
      if audited options
      then fst run = JsonError (handleError error)
      else fst run = HandlerResponse response
  | None => fst run = HandlerResponse response
  end.
Proof.
  intros Hadmitted Hhandler run. subst run.
  destruct (createApiHandler_cases status handler options ext req routeParams w)
    as [(_ & -> & Hsome) | (Hrefused & _)]; [|done].
  unfold serve, audited, contextUser in *. cbv zeta. rewrite Hhandler.
  destruct (ApiHandlerOptions.requireAuth options); simpl.
  - destruct (Hsome eq_refl) as [account ->].
    destruct (ApiHandlerOptions.enableAudit options); simpl;
      [|by destruct (auditLogCreate ext)].
    destruct (falsy (ApiHandlerOptions.auditAction options)); simpl;
      by destruct (auditLogCreate ext).
  - by destruct (auditLogCreate ext).
Qed.

(** Without [requireAuth] the options [requireRole], [enableAudit] and
    [auditAction] have no effect: no role is checked and no audit row is
    written. *)
Theorem createApiHandler_without_auth {R : Type} (status : R → Z)
    (handler : Request.t → ApiContext.t → Try R)
    (requireRole : option UserRole) (enableCsrf : bool) (rateLimit : option LimiterName)
    (enableAudit : bool) (auditAction : option string)
    (ext : ApiExternals) (req : Request.t) (routeParams : option (gmap string string))
    (w : ApiWorld.t) :
  createApiHandler status handler
    (ApiHandlerOptions.mk false requireRole enableCsrf rateLimit enableAudit auditAction)
    ext req routeParams w
  = createApiHandler status handler
      (ApiHandlerOptions.mk false None enableCsrf rateLimit false None)
      ext req routeParams w.
Proof.
  unfold createApiHandler, authorize, limit, serve. simpl. reflexivity.
Qed.

Lemma createApiHandler_refused_witness :
  let run :=
    createApiHandler (λ r : Z, r) (λ _ _, Done 200) auditedOptions
      (sampleApiExternals None None) sampleApiRequest None sampleApiWorld in
  (∃ response,
     fst run = JsonError response
     ∧ ErrorResponse.status response ∈ [429; 401; 403; 500])
  ∧ ApiWorld.store (snd run)
    = snd (checkRateLimit 1700000100000 "203.0.113.9" (limiterConfig LimitApi) ∅).
Proof.
  apply (createApiHandler_refused (λ r : Z, r) (λ _ _, Done 200) auditedOptions
           (sampleApiExternals None None) sampleApiRequest None sampleApiWorld).
  intros (_ & _ & H). destruct (H eq_refl) as (? & ? & H' & _). discriminate H'.
Defined.

Lemma createApiHandler_audit_witness :
  fst (createApiHandler (λ r : Z, r) (λ _ _, Done 200) auditedOptions
         (sampleApiExternals (Some "user-7") (Some connectionLost))
         sampleApiRequest None sampleApiWorld)
  = JsonError (handleError connectionLost).
Proof.
  refine (createApiHandler_audit (λ r : Z, r) (λ _ _, Done 200) auditedOptions
            (sampleApiExternals (Some "user-7") (Some connectionLost))
            sampleApiRequest None sampleApiWorld 200 _ eq_refl).
  split; [|split].
  - intros name [= <-]. reflexivity.
  - intros _. reflexivity.
  - intros _. exists "user-7", sampleAccount.
    split; [reflexivity|]. split; [discriminate|]. split; [reflexivity|].
    split; [reflexivity|]. intros role [= <-]. simpl. lia.
Defined.
